(** * tender-digest: the incremental discovery engine

    A shallow embedding of the discovery core of danp/tender-digest:
    the [store] (a SQLite table keyed by tender id), the driver [findNew]
    and the source clients with their [List] operation, followed by the
    properties of the specification that concern them.

    The repository holds the program in several successive forms, one
    per source.  Three clients are embedded: the token-session client
    with its look-up of the closing location ([Token]), the form-session
    client ([Form]) and the browser-session client ([Browser]).  The
    store and the loop of [findNew] are the same text in all of them;
    the browser program differs in its watermark and in its cutoff.  The
    earlier form of the token-session client, without the look-up and
    with the prologue of [List] that the form-session client has, is
    [TokenPlain].  Around this core stand the notifier ([Notifier]), the
    [main] of the programs ([Program]) and the first program of the
    repository, with one fetch and a directory of marks ([Legacy]); the
    second part of the properties is about them and about what the
    clients make of their sources.

    Conventions of the embedding.
    - Go's [time.Time] is a normalised civil time in UTC; the process is
      taken to run in UTC, so that [time.Now()] and parsed dates share one
      location.
    - [time.Now()] reads an oracle [clock : nat -> Time]: the n-th call of
      a run returns [clock n].
    - The database and the network are oracles too: the n-th statement or
      request of a run gets the outcome the oracle gives for n.
    - A Go function returning [(v, error)] is a [result]; [findNew] keeps
      Go's pair, so that "no partial output" is a statement and not a type.
    - The unbounded [for] loop of [findNew] takes fuel. *)

From Stdlib Require Import ZArith List String Ascii Bool Lia.
Import ListNotations.
Open Scope string_scope.
Open Scope Z_scope.

Set Implicit Arguments.

(** ** Errors and results *)

Definition error := string.

Inductive result (A : Type) : Type :=
| Ok (a : A)
| Err (e : error).
Arguments Ok {A} a.
Arguments Err {A} e.

(** State and error: the effects persist when a call fails. *)
Definition M (S A : Type) : Type := S -> result A * S.

Definition ret {S A} (a : A) : M S A := fun s => (Ok a, s).
Definition fail {S A} (e : error) : M S A := fun s => (Err e, s).
Definition bind {S A B} (m : M S A) (k : A -> M S B) : M S B :=
  fun s => match m s with
           | (Ok a, s') => k a s'
           | (Err e, s') => (Err e, s')
           end.
Definition get {S} : M S S := fun s => (Ok s, s).
Definition put {S} (s : S) : M S unit := fun _ => (Ok tt, s).
Definition modify {S} (f : S -> S) : M S unit := fun s => (Ok tt, f s).

Declare Scope go_scope.
Delimit Scope go_scope with go.
Notation "x <- m ;; k" := (bind m (fun x => k))
  (at level 100, m at next level, right associativity) : go_scope.
Notation "' p <- m ;; k" := (bind m (fun p => k))
  (at level 100, p pattern, m at next level, right associativity) : go_scope.
Notation "m ;;; k" := (bind m (fun _ => k))
  (at level 100, right associativity) : go_scope.

(** ** Decimal digits: [strconv.Itoa], [fmt.Sprint] on an int, [strconv.Atoi] *)

Definition digit (n : Z) : ascii :=
  match n with
  | 0 => "0" | 1 => "1" | 2 => "2" | 3 => "3" | 4 => "4"
  | 5 => "5" | 6 => "6" | 7 => "7" | 8 => "8" | _ => "9"
  end%char.

Definition digitVal (c : ascii) : option Z :=
  let n := Z.of_N (N_of_ascii c) in
  if (48 <=? n) && (n <=? 57) then Some (n - 48) else None.

Definition isDigit (c : ascii) : bool :=
  match digitVal c with Some _ => true | None => false end.

(** The digits of [n >= 0], most significant first, in front of [acc]. *)
Fixpoint udigits (fuel : nat) (n : Z) (acc : string) : string :=
  match fuel with
  | O => acc
  | S fuel' =>
      if n <? 10 then String (digit n) acc
      else udigits fuel' (n / 10) (String (digit (n mod 10)) acc)
  end.

Definition decimal (n : Z) : string :=
  udigits (S (Z.to_nat (Z.log2 n))) n "".

Definition Itoa (z : Z) : string :=
  if z <? 0 then String "-" (decimal (- z)) else decimal z.

Fixpoint parseDigits (s : string) (acc : Z) : option Z :=
  match s with
  | EmptyString => Some acc
  | String c s' =>
      match digitVal c with
      | Some d => parseDigits s' (10 * acc + d)
      | None => None
      end
  end.

Definition inInt64 (z : Z) : bool := (- 2 ^ 63 <=? z) && (z <? 2 ^ 63).

(** [n++] on an [int], which has 64 bits: past the largest value it
    wraps around to the smallest. *)
Definition incr (n : Z) : Z := (n + 1 + 2 ^ 63) mod 2 ^ 64 - 2 ^ 63.

(** [strconv.Atoi]: an optional sign, then at least one digit, nothing
    else, and the value in the range of int. *)
Definition Atoi (s : string) : result Z :=
  let digits :=
    match s with
    | String c s' =>
        if Ascii.eqb c "-" then (true, s')
        else if Ascii.eqb c "+" then (false, s') else (false, s)
    | EmptyString => (false, s)
    end in
  match snd digits with
  | EmptyString => Err "strconv.Atoi: invalid syntax"
  | ds =>
      match parseDigits ds 0 with
      | None => Err "strconv.Atoi: invalid syntax"
      | Some v =>
          let z := if fst digits then - v else v in
          if inInt64 z then Ok z else Err "strconv.Atoi: value out of range"
      end
  end.

(** ** Go's [time] package, as far as the engine uses it *)

Module GoTime.

(** A civil time in UTC.  [tSec] counts the seconds since midnight. *)
Record Time : Type := mkTime {
  tYear : Z;
  tMonth : Z;
  tDay : Z;
  tSec : Z;
  tNsec : Z
}.

(** [time.Time{}]: January 1, year 1, 00:00:00 UTC. *)
Definition zeroTime : Time := mkTime 1 1 1 0 0.

Definition eqb (t u : Time) : bool :=
  (tYear t =? tYear u) && (tMonth t =? tMonth u) && (tDay t =? tDay u)
  && (tSec t =? tSec u) && (tNsec t =? tNsec u).

Definition IsZero (t : Time) : bool := eqb t zeroTime.

Definition Year (t : Time) : Z := tYear t.

(** Lexicographic comparison of the fields: for normalised times of one
    location this is the comparison of the instants. *)
Definition compare (t u : Time) : comparison :=
  match tYear t ?= tYear u with
  | Eq => match tMonth t ?= tMonth u with
          | Eq => match tDay t ?= tDay u with
                  | Eq => match tSec t ?= tSec u with
                          | Eq => tNsec t ?= tNsec u
                          | c => c
                          end
                  | c => c
                  end
          | c => c
          end
  | c => c
  end.

Definition Before (t u : Time) : bool :=
  match compare t u with Lt => true | _ => false end.

Definition isLeap (y : Z) : bool :=
  (y mod 4 =? 0) && (negb (y mod 100 =? 0) || (y mod 400 =? 0)).

Definition daysIn (m y : Z) : Z :=
  match m with
  | 2 => if isLeap y then 29 else 28
  | 4 | 6 | 9 | 11 => 30
  | _ => 31
  end.

(** Normalised and in range: what [time.Parse] and [time.Now] return. *)
Definition wf (t : Time) : bool :=
  (1 <=? tMonth t) && (tMonth t <=? 12)
  && (1 <=? tDay t) && (tDay t <=? daysIn (tMonth t) (tYear t))
  && (0 <=? tSec t) && (tSec t <? 86400)
  && (0 <=? tNsec t) && (tNsec t <? 1000000000).

(** [time.Date] normalises a month outside 1..12 into the year, and a day
    outside the month into the neighbouring months. *)
Definition normMonth (y m : Z) : Z * Z :=
  (y + (m - 1) / 12, (m - 1) mod 12 + 1).

Fixpoint normDay (fuel : nat) (y m d : Z) : Z * Z * Z :=
  match fuel with
  | O => (y, m, d)
  | S fuel' =>
      if d <? 1 then
        let '(y', m') := normMonth y (m - 1) in
        normDay fuel' y' m' (d + daysIn m' y')
      else if daysIn m y <? d then
        let '(y', m') := normMonth y (m + 1) in
        normDay fuel' y' m' (d - daysIn m y)
      else (y, m, d)
  end.

Definition Date (y m d sec nsec : Z) : Time :=
  let s := sec + nsec / 1000000000 in
  let '(y1, m1) := normMonth y m in
  let d1 := d + s / 86400 in
  let '(y2, m2, d2) := normDay (S (Z.to_nat (Z.abs d1))) y1 m1 d1 in
  mkTime y2 m2 d2 (s mod 86400) (nsec mod 1000000000).

Definition AddDate (t : Time) (years months days : Z) : Time :=
  Date (tYear t + years) (tMonth t + months) (tDay t + days) (tSec t) (tNsec t).

(** *** Formatting *)

(** [w] digits of [n >= 0], zero padded; more when [n] needs more. *)
Fixpoint zpad (w : nat) (n : Z) : string :=
  match w with
  | O => if n =? 0 then "" else decimal n
  | S w' => zpad w' (n / 10) ++ String (digit (n mod 10)) ""
  end.

Definition appendInt (x : Z) (w : nat) : string :=
  if x <? 0 then String "-" (zpad w (- x)) else zpad w x.

(** [t.Format("2006-01-02")] *)
Definition FormatDateOnly (t : Time) : string :=
  appendInt (tYear t) 4 ++ "-" ++ appendInt (tMonth t) 2 ++ "-"
  ++ appendInt (tDay t) 2.

(** The fraction of layout [.999999999]: nothing when zero, otherwise
    nine digits without the trailing zeros. *)
Fixpoint trimZeros (fuel : nat) (n : Z) (w : nat) : string :=
  match fuel with
  | O => zpad w n
  | S fuel' =>
      if (n mod 10 =? 0) then trimZeros fuel' (n / 10) (Nat.pred w)
      else zpad w n
  end.

Definition formatFraction (nsec : Z) : string :=
  if nsec =? 0 then "" else String "." (trimZeros 9 nsec 9).

(** [t.Format("2006-01-02 15:04:05.999999999-07:00")], the layout with
    which the SQLite driver writes a [time.Time] when the database is
    opened with [_time_format=sqlite]. *)
Definition FormatSqlite (t : Time) : string :=
  FormatDateOnly t ++ " "
  ++ appendInt (tSec t / 3600) 2 ++ ":"
  ++ appendInt (tSec t / 60 mod 60) 2 ++ ":"
  ++ appendInt (tSec t mod 60) 2
  ++ formatFraction (tNsec t) ++ "+00:00".

(** *** Parsing *)

Definition num2 (a b : ascii) : option Z :=
  match digitVal a, digitVal b with
  | Some x, Some y => Some (10 * x + y)
  | _, _ => None
  end.

Definition num4 (a b c d : ascii) : option Z :=
  match num2 a b, num2 c d with
  | Some x, Some y => Some (100 * x + y)
  | _, _ => None
  end.

(** The checks [time.Parse] makes once the fields are read. *)
Definition checked (y m d sec : Z) : result Time :=
  if negb ((1 <=? m) && (m <=? 12)) then Err "parsing time: month out of range"
  else if negb ((1 <=? d) && (d <=? daysIn m y)) then
    Err "parsing time: day out of range"
  else Ok (mkTime y m d sec 0).

(** [time.Parse("2006-01-02", s)] *)
Definition ParseDateOnly (s : string) : result Time :=
  match list_ascii_of_string s with
  | [y3; y2; y1; y0; s1; m1; m0; s2; d1; d0] =>
      match num4 y3 y2 y1 y0, num2 m1 m0, num2 d1 d0 with
      | Some y, Some m, Some d =>
          if Ascii.eqb s1 "-" && Ascii.eqb s2 "-" then checked y m d 0
          else Err "parsing time: cannot parse"
      | _, _, _ => Err "parsing time: cannot parse"
      end
  | y3 :: y2 :: y1 :: y0 :: s1 :: m1 :: m0 :: s2 :: d1 :: d0 :: _ :: _ =>
      Err "parsing time: extra text"
  | _ => Err "parsing time: cannot parse"
  end.

End GoTime.

Import GoTime.

(** ** The data model *)

Record Tender : Type := mkTender {
  ID : string;
  URL : string;
  Description : string;
  Agency : string;
  IssuedDate : Time;
  CloseDate : Time
}.

(** A row of table [tenders]: [id text primary key, url text, description
    text, agency text, issued datetime, close datetime, first_observed
    datetime].  SQLite keeps the three dates as the text it was given. *)
Record Row : Type := mkRow {
  id : string;
  url : string;
  description : string;
  agency : string;
  issued : string;
  close : string;
  first_observed : string
}.

(** What the run cannot decide: the readings of the clock, and whether
    the n-th SQL statement fails, in [Exec]/[Scan] or in [RowsAffected]. *)
Record Env : Type := mkEnv {
  clock : nat -> Time;
  dbFault : nat -> option error;
  affectedFault : nat -> option error
}.

(** The state of a run: the client (with its side of the network), the
    table, the number of statements sent to the database and the number
    of clock readings taken. *)
Record World (C : Type) : Type := mkWorld {
  cli : C;
  rows : list Row;
  stmts : nat;
  ticks : nat
}.
Arguments mkWorld {C} cli rows stmts ticks.

(** ** The store *)

Section Store.

Variable E : Env.
Context {C : Type}.

Local Open Scope go_scope.

(** [time.Now()] *)
Definition readClock (w : World C) : Time * World C :=
  (clock E (ticks w), mkWorld (cli w) (rows w) (stmts w) (S (ticks w))).

Definition hasId (k : string) (rs : list Row) : bool :=
  existsb (fun r => String.eqb (id r) k) rs.

(** A [sql.Result], reduced to what [RowsAffected] will return. *)
Definition sqlResult : Type := result Z.

Definition RowsAffected (res : sqlResult) : result Z := res.

(** [db.Exec("insert into tenders (...) values (...) on conflict do
    nothing", ...)]: the row is appended unless a row with its primary
    key is there. *)
Definition execInsert (r : Row) : M (World C) sqlResult := fun w =>
  let n := stmts w in
  match dbFault E n with
  | Some e => (Err e, mkWorld (cli w) (rows w) (S n) (ticks w))
  | None =>
      let conflict := hasId (id r) (rows w) in
      let rows' := if conflict then rows w else (rows w ++ [r])%list in
      let ra := if conflict then 0 else 1 in
      (Ok match affectedFault E n with Some e => Err e | None => Ok ra end,
       mkWorld (cli w) rows' (S n) (ticks w))
  end.

(** The larger of two texts in SQLite's BINARY collation. *)
Definition textMax (a b : string) : string :=
  if String.ltb a b then b else a.

(** [max(col)] over the table: NULL on an empty table. *)
Definition sqlMax (col : Row -> string) (rs : list Row) : option string :=
  match rs with
  | [] => None
  | r :: rs' => Some (fold_left (fun m r' => textMax m (col r')) rs' (col r))
  end.

(** [db.QueryRow("select max(col) from tenders").Scan(&ts)] with
    [ts sql.NullString] *)
Definition queryMax (col : Row -> string) : M (World C) (option string) :=
  fun w =>
    let n := stmts w in
    let w' := mkWorld (cli w) (rows w) (S n) (ticks w) in
    match dbFault E n with
    | Some e => (Err e, w')
    | None => (Ok (sqlMax col (rows w)), w')
    end.

Definition add (t : Tender) : M (World C) bool := fun w =>
  let '(now, w0) := readClock w in
  match execInsert
          (mkRow (ID t) (URL t) (Description t) (Agency t)
                 (FormatDateOnly (IssuedDate t))
                 (FormatDateOnly (CloseDate t))
                 (FormatSqlite now)) w0 with
  | (Err e, w1) => (Err ("insert: " ++ e), w1)
  | (Ok res, w1) =>
      match RowsAffected res with
      | Err e => (Err ("affected: " ++ e), w1)
      | Ok ra => (Ok (0 <? ra), w1)
      end
  end.

Definition maxOf (col : Row -> string) : M (World C) Time :=
  ts <- queryMax col ;;
  match ts with
  | None => ret zeroTime
  | Some s =>
      match ParseDateOnly s with
      | Err _ => ret zeroTime
      | Ok t => ret t
      end
  end.

Definition maxIssued : M (World C) Time := maxOf issued.

Definition maxObserved : M (World C) Time := maxOf first_observed.

End Store.

(** ** The driver *)

Section Driver.

Variable E : Env.
Context {C : Type}.

(** [cl.List(ctx, token)]: the client sees its own state and the clock. *)
Variable List : string -> M (C * nat) (list Tender * string).

Definition callList (token : string) : M (World C) (list Tender * string) :=
  fun w =>
    let '(r, (c, k)) := List token (cli w, ticks w) in
    (r, mkWorld c (rows w) (stmts w) k).

(** How the body of [for _, t := range ct] leaves the page. *)
Inductive pageExit : Type :=
| NextPage (nt : list Tender)
| BreakOuter (nt : list Tender)
| Failed (e : error).

(** [stop t] is the test before [break outer]. *)
Fixpoint rangePage (stop : Tender -> bool) (ct nt : list Tender)
  (w : World C) : pageExit * World C :=
  match ct with
  | [] => (NextPage nt, w)
  | t :: ct' =>
      match add E t w with
      | (Err e, w') => (Failed e, w')
      | (Ok isNew, w') =>
          let nt' := if isNew then (nt ++ [t])%list else nt in
          if stop t then (BreakOuter nt', w')
          else rangePage stop ct' nt' w'
      end
  end.

(** A Go call either returns or is still running when the fuel ends. *)
Inductive run (A : Type) : Type :=
| Returned (a : A)
| OutOfFuel.
Arguments Returned {A} a.
Arguments OutOfFuel {A}.

(** What [findNew] returns: Go's pair of a slice and an error. *)
Definition output : Type := list Tender * option error.

(** The loop labelled [outer]. *)
Fixpoint pageLoop (fuel : nat) (stop : Tender -> bool) (token : string)
  (nt : list Tender) (w : World C) : run output * World C :=
  match fuel with
  | O => (OutOfFuel, w)
  | S fuel' =>
      match callList token w with
      | (Err e, w1) => (Returned ([], Some e), w1)
      | (Ok (ct, nextToken), w1) =>
          match rangePage stop ct nt w1 with
          | (Failed e, w2) => (Returned ([], Some e), w2)
          | (BreakOuter nt', w2) => (Returned (nt', None), w2)
          | (NextPage nt', w2) =>
              if String.eqb nextToken "" then (Returned (nt', None), w2)
              else pageLoop fuel' stop nextToken nt' w2
          end
      end
  end.

(** [findNew] of the programs that stop on the issued date. *)
Definition findNew (fuel : nat) (w : World C) : run output * World C :=
  match maxIssued E w with
  | (Err e, w') => (Returned ([], Some e), w')
  | (Ok max, w') =>
      let start := max in
      let start := if negb (IsZero start) then AddDate start 0 (-1) 0
                   else start in
      pageLoop fuel (fun t => Before (IssuedDate t) start) "" [] w'
  end.

(** [findNew] of the browser program, which stops on the close date. *)
Definition findNewObserved (fuel : nat) (w : World C) : run output * World C :=
  match maxObserved E w with
  | (Err e, w') => (Returned ([], Some e), w')
  | (Ok max, w') =>
      let cutoff := max in
      let '(cutoff, w'') :=
        if IsZero cutoff then readClock E w' else (cutoff, w') in
      let cutoff := AddDate cutoff 0 (-4) 0 in
      pageLoop fuel (fun t => Before (CloseDate t) cutoff) "" [] w''
  end.

End Driver.

(** ** What the clients share *)

(** A parsed [*url.URL]: scheme and host, then the path. *)
Record Url : Type := mkUrl {
  origin : string;
  path : string
}.

Definition URLString (u : Url) : string := origin u ++ path u.

(** [strings.Contains] *)
Definition Contains (s substr : string) : bool :=
  match String.index 0 substr s with
  | Some _ => true
  | None => false
  end.

(** What a round trip gives: [c.Do] fails, or there is a status and a
    body, which [ReadAll] may fail to read and the decoder to decode. *)
Inductive body (B : Type) : Type :=
| ReadFailed (e : error)
| Malformed (e : error)
| Decoded (b : B).
Arguments ReadFailed {B} e.
Arguments Malformed {B} e.
Arguments Decoded {B} b.

Inductive reply (B : Type) : Type :=
| NoReply (e : error)
| Reply (status : Z) (b : body B).
Arguments NoReply {B} e.
Arguments Reply {B} status b.

(** A client that never reads the clock. *)
Definition withoutClock {S A} (m : M S A) : M (S * nat) A :=
  fun sk => let '(r, s') := m (fst sk) in (r, (s', snd sk)).

(** ** The token-session client (procurement-portal.novascotia.ca) *)

Module Token.

Record Client : Type := mkClient {
  u : Url;
  ready : bool;
  token : string
}.

Definition NewClient (baseURL : Url) : Client := mkClient baseURL false "".

(** The fields the client decodes from the JSON bodies; a field that is
    absent in the JSON has Go's zero value. *)
Record tenderData : Type := mkTenderData {
  TenderID : string;
  Title : string;
  ProcurementEntity : string;
  PostDate : string;
  ClosingDate : string;
  ClosingLocation : string
}.

Record json : Type := mkJson {
  JWTToken : string;
  TenderDataList : list tenderData
}.

Inductive request : Type :=
| Authenticate
| Tenders (page : Z) (bearer : string)
| TenderById (tenderId : string) (bearer : string).

(** The client and the requests it has sent so far, oldest first. *)
Record State : Type := mkState {
  self : Client;
  sent : list request
}.

Section WithNet.

(** The server: the reply to the n-th request of the run. *)
Variable net : nat -> request -> reply json.

(** [url.Parse(loc)] followed by [String()]. *)
Variable parseURL : string -> result string.

Local Open Scope go_scope.

(** [f.c.Do(req)], the test of the status and [io.ReadAll]. *)
Definition roundTrip (req : request) : M State (body json) := fun s =>
  let s' := mkState (self s) (sent s ++ [req])%list in
  match net (List.length (sent s)) req with
  | NoReply e => (Err e, s')
  | Reply status b =>
      if status =? 200 then
        match b with
        | ReadFailed e => (Err e, s')
        | _ => (Ok b, s')
        end
      else (Err ("got status " ++ Itoa status), s')
  end.

Definition init : M State unit :=
  s <- get ;;
  if ready (self s) then ret tt
  else
    b <- roundTrip Authenticate ;;
    match b with
    | ReadFailed e => fail e
    | Malformed e => fail ("unmarshaling body: " ++ e)
    | Decoded body =>
        if String.eqb (JWTToken body) "" then
          fail "body does not contain jwttoken"
        else
          modify (fun s => mkState (mkClient (u (self s)) true (JWTToken body))
                                   (sent s))
    end.

Definition tenderClosingLocationURL (tenderId : string) : M State string :=
  init ;;;
  s <- get ;;
  b <- roundTrip (TenderById tenderId (token (self s))) ;;
  match b with
  | ReadFailed e | Malformed e => fail e
  | Decoded respBody =>
      match TenderDataList respBody with
      | [td] =>
          let loc := ClosingLocation td in
          if String.eqb loc "" then ret ""
          else match parseURL loc with
               | Err _ => ret ""
               | Ok locU => ret locU
               end
      | _ => ret ""
      end
  end.

(** The body of [for _, td := range respBody.TenderDataList]. *)
Definition tenderOf (td : tenderData) : M State Tender :=
  match ParseDateOnly (PostDate td) with
  | Err e => fail e
  | Ok pd =>
      if (String.length (ClosingDate td) <? 10)%nat then
        fail ("bad closing date " ++ ClosingDate td)
      else
        match ParseDateOnly (String.substring 0 10 (ClosingDate td)) with
        | Err e => fail e
        | Ok cd =>
            cURL <- tenderClosingLocationURL (TenderID td) ;;
            s <- get ;;
            let cURL :=
              if String.eqb cURL "" || negb (Contains cURL "Detail") then
                URLString (u (self s)) ++ "/tenders/" ++ TenderID td
              else cURL in
            ret (mkTender (TenderID td) cURL (Title td)
                          (ProcurementEntity td) pd cd)
        end
  end.

Fixpoint tendersOf (tds : list tenderData) (ts : list Tender)
  : M State (list Tender) :=
  match tds with
  | [] => ret ts
  | td :: tds' =>
      t <- tenderOf td ;;
      tendersOf tds' (ts ++ [t])%list
  end.

Definition List (tok : string) : M State (list Tender * string) :=
  init ;;;
  page <- (if String.eqb tok "" then ret 1
           else match Atoi tok with
                | Err e => fail e
                | Ok p => ret p
                end) ;;
  s <- get ;;
  b <- roundTrip (Tenders page (token (self s))) ;;
  match b with
  | ReadFailed e | Malformed e => fail e
  | Decoded respBody =>
      ts <- tendersOf (TenderDataList respBody) [] ;;
      let tok := "" in
      let '(page, tok) :=
        if (0 <? List.length ts)%nat then (incr page, Itoa (incr page))
        else (page, tok) in
      ret (ts, tok)
  end.

Definition findNew (E : Env) : nat -> World State -> run output * World State :=
  findNew E (fun tok => withoutClock (List tok)).

End WithNet.

End Token.

(** ** Strings and the other two date layouts *)

(** The white space of ASCII: [\t], [\n], [\v], [\f], [\r] and the
    space. *)
Definition isSpace (c : ascii) : bool :=
  let n := N_of_ascii c in
  (N.eqb n 32 || (N.leb 9 n && N.leb n 13))%N.

(** The other runes of [unicode.IsSpace], in UTF-8: U+0085 and U+00A0 in
    two bytes; U+1680, U+2000 to U+200A, U+2028, U+2029, U+202F, U+205F
    and U+3000 in three. *)
Definition isSpace2 (a b : ascii) : bool :=
  let '(x, y) := (N_of_ascii a, N_of_ascii b) in
  (N.eqb x 194 && (N.eqb y 133 || N.eqb y 160))%N.

Definition isSpace3 (a b c : ascii) : bool :=
  let '(x, y, z) := (N_of_ascii a, N_of_ascii b, N_of_ascii c) in
  ((N.eqb x 225 && N.eqb y 154 && N.eqb z 128)
   || (N.eqb x 226 && N.eqb y 128
       && ((N.leb 128 z && N.leb z 138) || N.eqb z 168 || N.eqb z 169
           || N.eqb z 175))
   || (N.eqb x 226 && N.eqb y 129 && N.eqb z 159)
   || (N.eqb x 227 && N.eqb y 128 && N.eqb z 128))%N.

(** [strings.TrimLeftFunc(s, unicode.IsSpace)] on the bytes of [s]: a
    byte that starts no white space ends the run, as does a byte that
    is no valid UTF-8. *)
Fixpoint dropSpaces (l : list ascii) : list ascii :=
  match l with
  | [] => []
  | a :: l1 =>
      if isSpace a then dropSpaces l1
      else
        match l1 with
        | [] => l
        | b :: l2 =>
            if isSpace2 a b then dropSpaces l2
            else
              match l2 with
              | [] => l
              | c :: l3 => if isSpace3 a b c then dropSpaces l3 else l
              end
        end
  end.

(** [strings.TrimRightFunc(s, unicode.IsSpace)] on the bytes of [s] in
    reverse: the last byte comes first. *)
Fixpoint dropSpacesRight (r : list ascii) : list ascii :=
  match r with
  | [] => []
  | c :: r1 =>
      if isSpace c then dropSpacesRight r1
      else
        match r1 with
        | [] => r
        | b :: r2 =>
            if isSpace2 b c then dropSpacesRight r2
            else
              match r2 with
              | [] => r
              | a :: r3 => if isSpace3 a b c then dropSpacesRight r3 else r
              end
        end
  end.

(** [strings.TrimSpace]: the white space of Unicode is cut off at both
    ends. *)
Definition TrimSpace (s : string) : string :=
  string_of_list_ascii
    (rev (dropSpacesRight (rev (dropSpaces (list_ascii_of_string s))))).

(** [strings.TrimPrefix] *)
Definition TrimPrefix (s prefix : string) : string :=
  if String.prefix prefix s then
    String.substring (String.length prefix)
                     (String.length s - String.length prefix) s
  else s.

(** [strings.Cut(s, " ")] *)
Fixpoint CutSpace (s : string) : string * string * bool :=
  match s with
  | EmptyString => ("", "", false)
  | String c s' =>
      if Ascii.eqb c " " then ("", s', true)
      else let '(before, after, found) := CutSpace s' in
           if found then (String c before, after, true)
           else (s, "", false)
  end.

Definition lower (c : ascii) : ascii :=
  let n := N_of_ascii c in
  if (N.leb 65 n && N.leb n 90)%N then ascii_of_N (n + 32) else c.

Fixpoint lowerString (s : string) : string :=
  match s with
  | EmptyString => EmptyString
  | String c s' => String (lower c) (lowerString s')
  end.

(** The index, from 1, of the name that equals [s] but for the case. *)
Fixpoint lookupName (names : list string) (s : string) (i : Z) : option Z :=
  match names with
  | [] => None
  | n :: names' =>
      if String.eqb (lowerString n) (lowerString s) then Some i
      else lookupName names' s (i + 1)
  end.

Definition shortMonthNames : list string :=
  ["Jan"; "Feb"; "Mar"; "Apr"; "May"; "Jun";
   "Jul"; "Aug"; "Sep"; "Oct"; "Nov"; "Dec"].

Definition shortDayNames : list string :=
  ["Sun"; "Mon"; "Tue"; "Wed"; "Thu"; "Fri"; "Sat"].

Definition name3 (a b c : ascii) : string :=
  String a (String b (String c "")).

(** What [time.Parse] does between two elements of a layout: a space
    of the layout stands for a run of spaces of the value, or for its
    end ([skip] and [cutspace]); any other byte stands for itself. *)
Fixpoint cutspace (l : list ascii) : list ascii :=
  match l with
  | c :: l' => if Ascii.eqb c " " then cutspace l' else l
  | [] => []
  end.

Definition skipSpace (value : list ascii) : option (list ascii) :=
  match value with
  | [] => Some []
  | c :: _ => if Ascii.eqb c " " then Some (cutspace value) else None
  end.

Definition skipChar (p : ascii) (value : list ascii) : option (list ascii) :=
  match value with
  | c :: value' => if Ascii.eqb c p then Some value' else None
  | [] => None
  end.

(** [lookup] in the names of the days or of the months: the first three
    bytes of the value, whatever their case. *)
Definition lookup3 (names : list string) (first : Z) (value : list ascii)
  : option (Z * list ascii) :=
  match value with
  | a :: b :: c :: value' =>
      match lookupName names (name3 a b c) first with
      | Some i => Some (i, value')
      | None => None
      end
  | _ => None
  end.

(** [getnum(value, false)]: one or two digits. *)
Definition getnum (l : list ascii) : option (Z * list ascii) :=
  match l with
  | a :: l' =>
      match digitVal a with
      | None => None
      | Some x =>
          match l' with
          | b :: l'' =>
              match digitVal b with
              | Some y => Some (10 * x + y, l'')
              | None => Some (x, l')
              end
          | [] => Some (x, l')
          end
      end
  | [] => None
  end.

(** [getnum(value, true)]: two digits. *)
Definition getnum2 (l : list ascii) : option (Z * list ascii) :=
  match l with
  | a :: b :: l' =>
      match num2 a b with
      | Some n => Some (n, l')
      | None => None
      end
  | _ => None
  end.

(** The element [2006]: four digits. *)
Definition getyear (l : list ascii) : option (Z * list ascii) :=
  match l with
  | y3 :: y2 :: y1 :: y0 :: l' =>
      match num4 y3 y2 y1 y0 with
      | Some y => Some (y, l')
      | None => None
      end
  | _ => None
  end.

(** The digits at the head of the value. *)
Fixpoint spanDigits (l : list ascii) : list Z * list ascii :=
  match l with
  | c :: l' =>
      match digitVal c with
      | Some d => let '(ds, rest) := spanDigits l' in (d :: ds, rest)
      | None => ([], l)
      end
  | [] => ([], [])
  end.

(** A fraction of a second that the value has after its seconds though
    the layout has none: a period or a comma and digits, of which the
    first nine count ([parseNanoseconds]). *)
Definition fraction (l : list ascii) : Z * list ascii :=
  match l with
  | p :: l' =>
      if Ascii.eqb p "." || Ascii.eqb p "," then
        match spanDigits l' with
        | ([], _) => (0, l)
        | (ds, rest) =>
            let ds9 := firstn 9 ds in
            (fold_left (fun acc d => 10 * acc + d) ds9 0
             * 10 ^ Z.of_nat (9 - List.length ds9), rest)
        end
      else (0, l)
  | [] => (0, l)
  end.

(** The check of the day that [time.Parse] makes at its end. *)
Definition dated (y m d sec nsec : Z) : result Time :=
  if negb ((1 <=? d) && (d <=? daysIn m y)) then
    Err "parsing time: day out of range"
  else Ok (mkTime y m d sec nsec).

Definition cannotParse {A : Type} : result A := Err "parsing time: cannot parse".

(** [time.Parse("02 Jan 2006", s)] *)
Definition ParseDayMonYear (s : string) : result Time :=
  match getnum2 (list_ascii_of_string s) with
  | None => cannotParse
  | Some (d, v1) =>
      match skipSpace v1 with
      | None => cannotParse
      | Some v2 =>
          match lookup3 shortMonthNames 1 v2 with
          | None => cannotParse
          | Some (m, v3) =>
              match skipSpace v3 with
              | None => cannotParse
              | Some v4 =>
                  match getyear v4 with
                  | None => cannotParse
                  | Some (y, []) => dated y m d 0 0
                  | Some (y, _ :: _) => Err "parsing time: extra text"
                  end
              end
          end
      end
  end.

(** The clock of the layout [3:04:05 PM], from the hour on: the seconds
    since midnight and the nanoseconds. *)
Definition clock12 (l : list ascii) : result (Z * Z) :=
  match getnum l with
  | None => cannotParse
  | Some (h, v1) =>
      if 12 <? h then Err "parsing time: hour out of range"
      else
        match skipChar ":" v1 with
        | None => cannotParse
        | Some v2 =>
            match getnum2 v2 with
            | None => cannotParse
            | Some (mi, v3) =>
                if 60 <=? mi then Err "parsing time: minute out of range"
                else
                  match skipChar ":" v3 with
                  | None => cannotParse
                  | Some v4 =>
                      match getnum2 v4 with
                      | None => cannotParse
                      | Some (se, v5) =>
                          if 60 <=? se then
                            Err "parsing time: second out of range"
                          else
                            let '(nsec, v6) := fraction v5 in
                            match skipSpace v6 with
                            | None => cannotParse
                            | Some [a; m] =>
                                let pm := Ascii.eqb a "P" in
                                if (pm || Ascii.eqb a "A") && Ascii.eqb m "M"
                                then
                                  let h := if pm && (h <? 12) then h + 12
                                           else if negb pm && (h =? 12) then 0
                                                else h in
                                  Ok (h * 3600 + mi * 60 + se, nsec)
                                else cannotParse
                            | Some (a :: m :: _ :: _) =>
                                if (Ascii.eqb a "P" || Ascii.eqb a "A")
                                   && Ascii.eqb m "M"
                                then Err "parsing time: extra text"
                                else cannotParse
                            | Some _ => cannotParse
                            end
                      end
                  end
            end
        end
  end.

(** [time.Parse("Mon Jan 2, 2006 3:04:05 PM", s)].  The name of the day
    has to be one, and is not compared with the date. *)
Definition ParseDisplay (s : string) : result Time :=
  match lookup3 shortDayNames 0 (list_ascii_of_string s) with
  | None => cannotParse
  | Some (_, v1) =>
      match skipSpace v1 with
      | None => cannotParse
      | Some v2 =>
          match lookup3 shortMonthNames 1 v2 with
          | None => cannotParse
          | Some (m, v3) =>
              match skipSpace v3 with
              | None => cannotParse
              | Some v4 =>
                  match getnum v4 with
                  | None => cannotParse
                  | Some (d, v5) =>
                      match skipChar "," v5 with
                      | None => cannotParse
                      | Some v6 =>
                          match skipSpace v6 with
                          | None => cannotParse
                          | Some v7 =>
                              match getyear v7 with
                              | None => cannotParse
                              | Some (y, v8) =>
                                  match skipSpace v8 with
                                  | None => cannotParse
                                  | Some v9 =>
                                      match clock12 v9 with
                                      | Err e => Err e
                                      | Ok (sec, nsec) => dated y m d sec nsec
                                      end
                                  end
                              end
                          end
                      end
                  end
              end
          end
      end
  end.

(** ** The form-session client (procurement.novascotia.ca/ns-tenders.aspx) *)

Module Form.

(** [url.Values], with one value for a key. *)
Definition Values : Type := list (string * string).

Fixpoint Set_ (vals : Values) (k v : string) : Values :=
  match vals with
  | [] => [(k, v)]
  | (k', v') :: vals' =>
      if String.eqb k' k then (k, v) :: vals'
      else (k', v') :: Set_ vals' k v
  end.

Record Client : Type := mkClient {
  u : Url;
  ready : bool;
  vals : Values
}.

Definition NewClient (baseURL : Url) : Client := mkClient baseURL false [].

(** A row that the selector of the grid finds, with what the closure
    reads from it. *)
Record GridRow : Type := mkGridRow {
  hasTh : bool;
  isPagination : bool;
  linkText : string;
  linkHref : option string;
  agencySpan : string;
  descriptionCell : string;
  dateSpans : list string
}.

(** The parsed page: the hidden inputs of [form#aspnetForm] and the rows
    of the grid, both in the order of the document. *)
Record Doc : Type := mkDoc {
  hidden : list (string * string);
  grid : list GridRow
}.

Inductive request : Type :=
| GetForm
| PostForm (form : Values).

Record State : Type := mkState {
  self : Client;
  sent : list request
}.

Definition field : string :=
  "ctl00$ctl00$ctl00$ContentPlaceHolderDefault$childContent$u_NSTendersgrid_v2_2$".

Definition pageSize : Z := 100.

Section WithNet.

Variable net : nat -> request -> reply Doc.

(** [f.u.Parse(href)] followed by [String()]. *)
Variable resolve : Url -> string -> result string.

Local Open Scope go_scope.

Definition roundTrip (req : request) : M State Doc := fun s =>
  let s' := mkState (self s) (sent s ++ [req])%list in
  match net (List.length (sent s)) req with
  | NoReply e => (Err e, s')
  | Reply status b =>
      if status =? 200 then
        match b with
        | ReadFailed e | Malformed e => (Err e, s')
        | Decoded doc => (Ok doc, s')
        end
      else (Err ("got status " ++ Itoa status), s')
  end.

Definition hiddenValues (doc : Doc) : Values :=
  fold_left (fun vals nv => Set_ vals (fst nv) (snd nv)) (hidden doc) [].

Definition setVals (vals : Values) : M State unit :=
  modify (fun s => mkState (mkClient (u (self s)) (ready (self s)) vals)
                           (sent s)).

Definition init : M State unit :=
  doc <- roundTrip GetForm ;;
  setVals (hiddenValues doc).

(** The closure given to [Each], for one row. *)
Definition tenderOf (base : Url) (s : GridRow) : result (option Tender) :=
  if hasTh s then Ok None
  else if isPagination s then Ok None
  else
    match linkHref s with
    | None => Err (linkText s ++ " missing href")
    | Some href =>
        match resolve base href with
        | Err e => Err e
        | Ok hurl =>
            match dateSpans s with
            | [span0; span1] =>
                match ParseDayMonYear span1 with
                | Err e => Err e
                | Ok id =>
                    match ParseDayMonYear span0 with
                    | Err e => Err e
                    | Ok cd =>
                        Ok (Some (mkTender (linkText s) hurl
                                           (TrimSpace (descriptionCell s))
                                           (TrimSpace (agencySpan s)) id cd))
                    end
                end
            | spans =>
                Err ("expected 2 date spans for id " ++ linkText s
                     ++ ", found " ++ Itoa (Z.of_nat (List.length spans)))
            end
        end
    end.

(** [coll.each]: once a row has failed, the rows after it are skipped. *)
Definition each (base : Url) (acc : option error * list Tender) (s : GridRow)
  : option error * list Tender :=
  match fst acc with
  | Some _ => acc
  | None =>
      match tenderOf base s with
      | Err e => (Some e, snd acc)
      | Ok None => acc
      | Ok (Some t) => (None, (snd acc ++ [t])%list)
      end
  end.

Definition List (tok : string) : M State (list Tender * string) :=
  s <- get ;;
  (if negb (ready (self s)) then
     if negb (String.eqb tok "") then
       fail "List must first be called with empty token"
     else
       init ;;;
       modify (fun s => mkState (mkClient (u (self s)) true (vals (self s)))
                                (sent s))
   else ret tt) ;;;
  page <- (if String.eqb tok "" then ret 1
           else match Atoi tok with
                | Err e => fail e
                | Ok p => ret p
                end) ;;
  s <- get ;;
  let vals := vals (self s) in
  let vals := Set_ vals (field ++ "ddDateRange") "0" in
  let vals := Set_ vals (field ++ "tbSearchTenderID") "" in
  let vals := Set_ vals (field ++ "tbDescription") "" in
  let vals := Set_ vals (field ++ "ddCategoryList") "0" in
  let vals := Set_ vals (field ++ "ddDeptAgency")
                   "Halifax Regional Municipality (HRM)" in
  let vals := Set_ vals (field ++ "ddPageSize") (Itoa pageSize) in
  let vals :=
    if 1 <? page then
      Set_ (Set_ vals "__EVENTTARGET" (field ++ "GridView1"))
           "__EVENTARGUMENT" ("Page$" ++ Itoa page)
    else Set_ vals (field ++ "btnFilter") "Filter" in
  (* [vals] is the map [f.vals] itself *)
  setVals vals ;;;
  doc <- roundTrip (PostForm vals) ;;
  setVals (hiddenValues doc) ;;;
  let '(err, ts) := fold_left (each (u (self s))) (grid doc) (None, []) in
  match err with
  | Some e => fail e
  | None =>
      let tok := "" in
      let '(page, tok) :=
        if Z.of_nat (List.length ts) >=? pageSize then (incr page, Itoa (incr page))
        else (page, tok) in
      ret (ts, tok)
  end.

Definition findNew (E : Env) : nat -> World State -> run output * World State :=
  findNew E (fun tok => withoutClock (List tok)).

End WithNet.

End Form.

(** ** The browser-session client (halifax.bidsandtenders.ca) *)

Module Browser.

(** The fields of an entry of [RawTenders.Data] that [List] reads. *)
Record RawTender : Type := mkRawTender {
  Id : string;
  Title : string;
  DateAvailableDisplay : string;
  DateClosingDisplay : string
}.

Record RawTenders : Type := mkRawTenders {
  Success : bool;
  Data : list RawTender;
  Total : Z
}.

(** *** The capture buffer: [c.responses] under [c.responsesMu] *)

Definition enqueue (q : list RawTenders) (rt : RawTenders) : list RawTenders :=
  (q ++ [rt])%list.

Definition dequeue (q : list RawTenders) : option (RawTenders * list RawTenders) :=
  match q with
  | [] => None
  | r :: q' => Some (r, q')
  end.

(** The two critical sections are atomic, so that an execution of hooks
    and [List] calls is a sequence of them. *)
Inductive op : Type :=
| Produce (rt : RawTenders)
| Consume.

(** The buffer after the operation, and what a [Consume] took. *)
Definition stepOp (q : list RawTenders) (o : op)
  : list RawTenders * option RawTenders :=
  match o with
  | Produce rt => (enqueue q rt, None)
  | Consume =>
      match dequeue q with
      | None => (q, None)
      | Some (r, q') => (q', Some r)
      end
  end.

Fixpoint runOps (q : list RawTenders) (sched : list op)
  : list RawTenders * list RawTenders :=
  match sched with
  | [] => (q, [])
  | o :: sched' =>
      let '(q1, got) := stepOp q o in
      let '(q2, taken) := runOps q1 sched' in
      (q2, match got with Some r => r :: taken | None => taken end)
  end.


(** *** The client *)

(** The handles [pw], [b] and [p] of the Go struct are the browser of
    the oracle below. *)
Record Client : Type := mkClient {
  u : Url;
  ready : bool;
  responses : list RawTenders
}.

Definition NewClient (baseURL : Url) : Client := mkClient baseURL false [].

(** What the client asks of playwright and of the page. *)
Inductive action : Type :=
| Install
| Run
| Launch
| NewContext
| NewPage
| Goto (url : string)
| ClickOpenToggleFilters
| ClickAll
| ClickNext
| WaitForTable
| IsEnabledNext.

(** A network response the page has seen. *)
Record response : Type := mkResponse {
  respURL : string;
  respBody : body RawTenders
}.

(** What an action gives: whether it fails, what [IsEnabled] answers,
    and the responses whose hooks have reached the buffer, in the order
    in which they took the lock, by the time the action returns. *)
Record outcome : Type := mkOutcome {
  failure : option error;
  enabled : bool;
  arrived : list response
}.

(** The client, the actions so far, and whether a hook is registered. *)
Record State : Type := mkState {
  self : Client;
  done : list action;
  hooked : bool
}.

(** The function given to [page.On("response", ...)]. *)
Definition hook (q : list RawTenders) (r : response) : list RawTenders :=
  if negb (Contains (respURL r) "/Module/Tenders/en/Tender/Search/") then q
  else match respBody r with
       | Decoded rt => enqueue q rt
       | _ => q
       end.

(** [unprintableRe.ReplaceAllString(s, "")] *)
Definition removeUnprintable (s : string) : string :=
  string_of_list_ascii
    (filter (fun c => let n := N_of_ascii c in (N.leb 32 n && N.leb n 126)%N)
            (list_ascii_of_string s)).

Definition isReSpace (c : ascii) : bool :=
  let n := N_of_ascii c in
  (N.eqb n 32 || N.eqb n 9 || N.eqb n 10 || N.eqb n 12 || N.eqb n 13)%N.

(** [squeezeRe.ReplaceAllString(s, " ")] *)
Fixpoint squeeze (inSpace : bool) (s : string) : string :=
  match s with
  | EmptyString => EmptyString
  | String c s' =>
      if isReSpace c then
        if inSpace then squeeze true s' else String " " (squeeze true s')
      else String c (squeeze false s')
  end.

Section WithBrowser.

Variable E : Env.

Variable browser : nat -> action -> outcome.

(** [base.ResolveReference(&url.URL{Path: path}).String()]: the address
    of the path on the host of [base], with the path escaped and its dot
    segments removed. *)
Variable resolveRef : Url -> string -> string.

Local Open Scope go_scope.

Definition setSelf (f : Client -> Client) : M (State * nat) unit :=
  modify (fun sk : State * nat =>
            (mkState (f (self (fst sk))) (done (fst sk)) (hooked (fst sk)),
             snd sk)).

(** One action: the hooks that ran meanwhile have filled the buffer. *)
Definition perform (a : action) (wrap : string) : M (State * nat) bool :=
  fun sk =>
    let s := fst sk in
    let o := browser (List.length (done s)) a in
    let q := if hooked s then fold_left hook (arrived o) (responses (self s))
             else responses (self s) in
    let s' := mkState (mkClient (u (self s)) (ready (self s)) q)
                      (done s ++ [a])%list (hooked s) in
    match failure o with
    | Some e => (Err (wrap ++ e), (s', snd sk))
    | None => (Ok (enabled o), (s', snd sk))
    end.

(** [time.Now()] *)
Definition now : M (State * nat) Time :=
  fun sk => (Ok (clock E (snd sk)), (fst sk, S (snd sk))).

Definition init : M (State * nat) unit :=
  sk <- get ;;
  if ready (self (fst sk)) then ret tt
  else
    perform Install "installing playwright: " ;;;
    perform Run "running playwright: " ;;;
    perform Launch "launching browser: " ;;;
    perform NewContext "creating context: " ;;;
    perform NewPage "creating page: " ;;;
    modify (fun sk : State * nat =>
              (mkState (self (fst sk)) (done (fst sk)) true, snd sk)) ;;;
    perform (Goto (URLString (u (self (fst sk))))) "going to page: " ;;;
    perform ClickOpenToggleFilters "clicking open toggle filters: " ;;;
    perform ClickAll "clicking all: " ;;;
    setSelf (fun c => mkClient (u c) true (responses c)).

(** The body of [for _, d := range r.Data]. *)
Definition tenderOf (base : Url) (d : RawTender) : M (State * nat) Tender :=
  let '(id, rest, ok) := CutSpace (Title d) in
  if negb ok then fail ("cutting title " ++ Title d)
  else
    let rest := TrimSpace rest in
    let rest := TrimPrefix rest "-" in
    let rest := removeUnprintable rest in
    let rest := TrimSpace rest in
    let rest := squeeze false rest in
    match ParseDisplay (DateAvailableDisplay d) with
    | Err e => fail ("parsing issued date: " ++ e)
    | Ok issuedDate =>
        match ParseDisplay (DateClosingDisplay d) with
        | Err e => fail ("parsing close date: " ++ e)
        | Ok closeDate =>
            now <- now ;;
            let issuedDate :=
              if Year issuedDate =? 9999 then now else issuedDate in
            let closeDate :=
              if Year closeDate =? 9999 then now else closeDate in
            ret (mkTender id
                          (resolveRef base
                             ("/Module/Tenders/en/Tender/Detail/" ++ Id d))
                          rest "Halifax Regional Municipality"
                          issuedDate closeDate)
        end
    end.

Fixpoint tendersOf (base : Url) (ds : list RawTender) (tenders : list Tender)
  : M (State * nat) (list Tender) :=
  match ds with
  | [] => ret tenders
  | d :: ds' =>
      t <- tenderOf base d ;;
      tendersOf base ds' (tenders ++ [t])%list
  end.

Definition List (tok : string) : M (State * nat) (list Tender * string) :=
  init ;;;
  (if negb (String.eqb tok "") then perform ClickNext "clicking next: "
   else ret true) ;;;
  perform WaitForTable "waiting for table: " ;;;
  sk <- get ;;
  match dequeue (responses (self (fst sk))) with
  | None => fail "no responses"
  | Some (r, q') =>
      setSelf (fun c => mkClient (u c) (ready c) q') ;;;
      tenders <- tendersOf (u (self (fst sk))) (Data r) [] ;;
      ok <- perform IsEnabledNext "checking next enabled: " ;;
      ret (tenders, if ok then "next" else "")
  end.

Definition findNew : nat -> World State -> run output * World State :=
  findNewObserved E List.

End WithBrowser.

End Browser.

(** ** A synthetic client: a fixed sequence of pages

    The client of the tests of the driver: every call of [List] hands
    out the next page of a script, whatever the token. *)

Module Synthetic.

Definition page : Type := (list Tender * string)%type.

Definition List (tok : string) : M (list page * nat) (list Tender * string) :=
  fun sk =>
    match fst sk with
    | [] => (Err "no more pages", sk)
    | p :: script => (Ok p, (script, snd sk))
    end.

End Synthetic.

(** ** The token-session client before the lookup of the closing
    location

    The client, the bodies, the requests and the round trip are those
    of [Token]; [init] only takes the token, [List] refuses to start a
    session with a cursor, and the URL of a record is made of its id. *)

Module TokenPlain.

Section WithNet.

Variable net : nat -> Token.request -> reply Token.json.

Local Open Scope go_scope.

Definition init : M Token.State unit :=
  b <- Token.roundTrip net Token.Authenticate ;;
  match b with
  | ReadFailed e => fail e
  | Malformed e => fail ("unmarshaling body: " ++ e)
  | Decoded body =>
      if String.eqb (Token.JWTToken body) "" then
        fail "body does not contain jwttoken"
      else
        modify (fun s => Token.mkState
                           (Token.mkClient (Token.u (Token.self s))
                                           (Token.ready (Token.self s))
                                           (Token.JWTToken body))
                           (Token.sent s))
  end.

(** The loop [for _, td := range respBody.TenderDataList]. *)
Definition tenderOf (base : Url) (td : Token.tenderData) : result Tender :=
  match ParseDateOnly (Token.PostDate td) with
  | Err e => Err e
  | Ok pd =>
      if (String.length (Token.ClosingDate td) <? 10)%nat then
        Err ("bad closing date " ++ Token.ClosingDate td)
      else
        match ParseDateOnly (String.substring 0 10 (Token.ClosingDate td)) with
        | Err e => Err e
        | Ok cd =>
            Ok (mkTender (Token.TenderID td)
                         (URLString base ++ "/tenders/" ++ Token.TenderID td)
                         (Token.Title td) (Token.ProcurementEntity td) pd cd)
        end
  end.

Fixpoint tendersOf (base : Url) (tds : list Token.tenderData) (ts : list Tender)
  : result (list Tender) :=
  match tds with
  | [] => Ok ts
  | td :: tds' =>
      match tenderOf base td with
      | Err e => Err e
      | Ok t => tendersOf base tds' (ts ++ [t])%list
      end
  end.

Definition List (tok : string) : M Token.State (list Tender * string) :=
  s <- get ;;
  (if negb (Token.ready (Token.self s)) then
     if negb (String.eqb tok "") then
       fail "List must first be called with empty token"
     else
       init ;;;
       modify (fun s => Token.mkState
                          (Token.mkClient (Token.u (Token.self s)) true
                                          (Token.token (Token.self s)))
                          (Token.sent s))
   else ret tt) ;;;
  page <- (if String.eqb tok "" then ret 1
           else match Atoi tok with
                | Err e => fail e
                | Ok p => ret p
                end) ;;
  s <- get ;;
  b <- Token.roundTrip net (Token.Tenders page (Token.token (Token.self s))) ;;
  match b with
  | ReadFailed e | Malformed e => fail e
  | Decoded respBody =>
      match tendersOf (Token.u (Token.self s)) (Token.TenderDataList respBody) [] with
      | Err e => fail e
      | Ok ts =>
          let tok := "" in
          let '(page, tok) :=
            if (0 <? List.length ts)%nat then (incr page, Itoa (incr page))
            else (page, tok) in
          ret (ts, tok)
      end
  end.

Definition findNew (E : Env)
  : nat -> World Token.State -> run output * World Token.State :=
  findNew E (fun tok => withoutClock (List tok)).

End WithNet.

End TokenPlain.

(** ** The notifier (notifier.go) *)

Module Notifier.

(** [mail.Email] *)
Record Email : Type := mkEmail {
  Name : string;
  Address : string
}.

(** What [client.Send] is given: the key of the client and, of the
    message, the sender, the subject, the one personalization and the
    one content. *)
Record Mail : Type := mkMail {
  Key : string;
  From : Email;
  Subject : string;
  Tos : list Email;
  BCCs : list Email;
  ContentType : string;
  Content : string
}.

Record notifier : Type := mkNotifier {
  apiKey : string;
  fromName : string;
  fromEmail : string;
  toEmails : list string
}.

Definition nl : string := String (ascii_of_nat 10) "".
Definition quote : string := String (ascii_of_nat 34) "".

(** [t.Weekday()], Sunday being 0. *)
Definition Weekday (t : Time) : Z :=
  let y := if tMonth t <? 3 then tYear t - 1 else tYear t in
  let k := nth (Z.to_nat (tMonth t - 1)) [0; 3; 2; 5; 0; 3; 5; 1; 4; 6; 2; 4] 0 in
  (y + y / 4 - y / 100 + y / 400 + k + tDay t) mod 7.

(** [t.Format("Mon, 02 Jan 2006")] *)
Definition FormatDay (t : Time) : string :=
  nth (Z.to_nat (Weekday t)) shortDayNames "" ++ ", "
  ++ appendInt (tDay t) 2 ++ " "
  ++ nth (Z.to_nat (tMonth t - 1)) shortMonthNames "" ++ " "
  ++ appendInt (tYear t) 4.

(** [t.Format(time.RFC822)], the layout [02 Jan 06 15:04 MST], in UTC. *)
Definition FormatRFC822 (t : Time) : string :=
  appendInt (tDay t) 2 ++ " "
  ++ nth (Z.to_nat (tMonth t - 1)) shortMonthNames "" ++ " "
  ++ appendInt (Z.rem (tYear t) 100) 2 ++ " "
  ++ appendInt (tSec t / 3600) 2 ++ ":"
  ++ appendInt (tSec t / 60 mod 60) 2 ++ " UTC".

Definition heading : string :=
  "<p>These new HRM tenders have appeared:</p>" ++ nl ++ nl.

(** The two lines that the loop appends for a tender. *)
Definition link (t : Tender) : string :=
  "<h3><a href=" ++ quote ++ URL t ++ quote ++ ">" ++ Description t
  ++ "</a></h3>" ++ nl.

Definition dates (t : Tender) : string :=
  "Issued " ++ FormatDay (IssuedDate t) ++ " and closing "
  ++ FormatDay (CloseDate t) ++ nl ++ nl.

Definition hmsgOf (ts : list Tender) : string :=
  fold_left (fun hmsg t => (hmsg ++ link t) ++ dates t) ts heading.

Section WithMail.

Variable E : Env.

(** [mail.ParseEmail]: the name and the address of an RFC 5322
    address, or the error of [net/mail]. *)
Variable ParseEmail : string -> result Email.

(** SendGrid: the status of the response to the n-th message, and the
    error of the transport if there is one. *)
Variable sendgrid : nat -> Mail -> Z * option error.

(** The loop over [n.toEmails]. *)
Fixpoint parseTos (tes : list string) (tos : list Email) : result (list Email) :=
  match tes with
  | [] => Ok tos
  | te :: tes' =>
      match ParseEmail te with
      | Err e => Err e
      | Ok em => parseTos tes' (tos ++ [em])%list
      end
  end.

(** The state is the messages given to [client.Send] so far and the
    readings of the clock. *)
Definition notify (n : notifier) (ts : list Tender) : M (list Mail * nat) unit :=
  if (List.length ts =? 0)%nat then ret tt
  else if (List.length (toEmails n) =? 0)%nat then ret tt
  else
    let hmsg := hmsgOf ts in
    let from := mkEmail (fromName n) (fromEmail n) in
    match parseTos (toEmails n) [] with
    | Err e => fail e
    | Ok tos =>
        fun st =>
          let email :=
            mkMail (apiKey n) from
                   ("New HRM Tenders at " ++ FormatRFC822 (clock E (snd st)))
                   [from] tos "text/html" hmsg in
          let st' := ((fst st ++ [email])%list, S (snd st)) in
          match snd (sendgrid (List.length (fst st)) email) with
          | Some e => (Err e, st')
          | None => (Ok tt, st')
          end
    end.

End WithMail.

End Notifier.

(** ** The program: [main] *)

Module Program.

(** The variables of the environment that [main] reads. *)
Record Environ : Type := mkEnviron {
  SENDGRID_API_KEY : string;
  FROM_NAME : string;
  FROM_EMAIL : string;
  TO_EMAILS : string
}.

(** [strings.Split(s, ";")] *)
Fixpoint SplitSemi (s : string) : list string :=
  match s with
  | EmptyString => [""]
  | String c s' =>
      if Ascii.eqb c ";" then "" :: SplitSemi s'
      else match SplitSemi s' with
           | h :: t => String c h :: t
           | [] => [String c ""]
           end
  end.

(** How the process ends: [main] returns, or [log.Fatal] has logged an
    error and left with status 1. *)
Inductive exit : Type :=
| Exit0
| Fatal (e : error).

(** What the process has written to standard output, line by line, and
    the messages it has given to SendGrid. *)
Record Outside : Type := mkOutside {
  stdout : list string;
  handed : list Notifier.Mail
}.

Section WithDriver.

Variable E : Env.
Variable ParseEmail : string -> result Notifier.Email.
Variable sendgrid : nat -> Notifier.Mail -> Z * option error.

(** The client of the program and its [findNew]. *)
Variable C : Type.
Variable findNew : nat -> World C -> run output * World C.

(** [db.Exec("create table if not exists tenders ...")] *)
Definition createTable (w : World C) : result unit * World C :=
  let w' := mkWorld (cli w) (rows w) (S (stmts w)) (ticks w) in
  match dbFault E (stmts w) with
  | Some e => (Err e, w')
  | None => (Ok tt, w')
  end.

(** [fmt.Println(t.ID, t.Description)] *)
Definition Println (t : Tender) : string := ID t ++ " " ++ Description t.

(** [main], from the creation of the table on; [skipNotify] is the
    flag [-skip-notify]. *)
Definition main (skipNotify : bool) (env : Environ) (fuel : nat)
  (w : World C) (o : Outside) : run exit * World C * Outside :=
  match createTable w with
  | (Err e, w0) => (Returned (Fatal e), w0, o)
  | (Ok _, w0) =>
      match findNew fuel w0 with
      | (OutOfFuel _, w1) => (OutOfFuel _, w1, o)
      | (Returned (nt, Some e), w1) => (Returned (Fatal e), w1, o)
      | (Returned (nt, None), w1) =>
          if String.eqb (SENDGRID_API_KEY env) "" || skipNotify then
            (Returned Exit0, w1,
             mkOutside (stdout o ++ map Println nt)%list (handed o))
          else
            let not := Notifier.mkNotifier (SENDGRID_API_KEY env) (FROM_NAME env)
                                           (FROM_EMAIL env)
                                           (SplitSemi (TO_EMAILS env)) in
            match Notifier.notify E ParseEmail sendgrid not nt
                                  (handed o, ticks w1) with
            | (r, (mails, k)) =>
                (Returned match r with Ok _ => Exit0 | Err e => Fatal e end,
                 mkWorld (cli w1) (rows w1) (stmts w1) k,
                 mkOutside (stdout o) mails)
            end
      end
  end.

End WithDriver.

End Program.

(** ** The first program (main.go): one fetch and a directory of marks

    Its [tender] has the fields of [Tender], and the closure that reads
    a row of the grid is the one of the form client. *)

Module Legacy.

(** The two requests of [fetch]: the page, and the form with the
    cookie of the first response. *)
Inductive request : Type :=
| Get
| Post (form : Form.Values) (cookie : string).

Section WithNet.

Variable net : nat -> request -> reply Form.Doc.

(** [getResp.Header.Get("Set-Cookie")] of the reply to the n-th
    request. *)
Variable setCookie : nat -> string.

(** [purl.Parse(href)] followed by [String()]. *)
Variable resolve : Url -> string -> result string.

(** [http.DefaultClient.Do], the test of the status, [ioutil.ReadAll]
    and the parser of goquery; the state is the requests sent. *)
Definition roundTrip (req : request) : M (list request) Form.Doc := fun sent =>
  let sent' := (sent ++ [req])%list in
  match net (List.length sent) req with
  | NoReply e => (Err e, sent')
  | Reply status b =>
      if status =? 200 then
        match b with
        | ReadFailed e | Malformed e => (Err e, sent')
        | Decoded doc => (Ok doc, sent')
        end
      else (Err ("got status " ++ Itoa status), sent')
  end.

(** [fetch] returns its slice together with [c.err]. *)
Definition fetch (purl : Url) (sent : list request)
  : (list Tender * option error) * list request :=
  match roundTrip Get sent with
  | (Err e, sent1) => (([], Some e), sent1)
  | (Ok getDoc, sent1) =>
      let vals := Form.hiddenValues getDoc in
      let vals := Form.Set_ vals (Form.field ++ "ddDateRange") "0" in
      let vals := Form.Set_ vals (Form.field ++ "tbSearchTenderID") "" in
      let vals := Form.Set_ vals (Form.field ++ "tbDescription") "" in
      let vals := Form.Set_ vals (Form.field ++ "ddCategoryList") "0" in
      let vals := Form.Set_ vals (Form.field ++ "ddDeptAgency")
                            "Halifax Regional Municipality (HRM)" in
      let vals := Form.Set_ vals (Form.field ++ "ddPageSize") "100" in
      let vals := Form.Set_ vals (Form.field ++ "btnFilter") "Filter" in
      match roundTrip (Post vals (setCookie (List.length sent))) sent1 with
      | (Err e, sent2) => (([], Some e), sent2)
      | (Ok postDoc, sent2) =>
          let '(err, ts) :=
            fold_left (Form.each resolve purl) (Form.grid postDoc) (None, []) in
          ((ts, err), sent2)
      end
  end.

End WithNet.

(** The directory of the store: the paths that exist, and the calls of
    [os.OpenFile] so far. *)
Record Disk : Type := mkDisk {
  files : list string;
  opens : nat
}.

Section WithDisk.

(** [filepath.Join(s.dir, id)] *)
Variable Join : string -> string -> string.

(** The error of the n-th [os.OpenFile] when it is another one than
    "file exists". *)
Variable openFault : nat -> option error.

Definition exists_ (p : string) (d : Disk) : bool :=
  existsb (String.eqb p) (files d).

(** [os.OpenFile(p, os.O_CREATE|os.O_EXCL, 0666)] and what [mark]
    makes of it. *)
Definition mark (dir id : string) (d : Disk) : result bool * Disk :=
  let p := Join dir id in
  match openFault (opens d) with
  | Some e => (Err e, mkDisk (files d) (S (opens d)))
  | None =>
      if exists_ p d then (Ok false, mkDisk (files d) (S (opens d)))
      else (Ok true, mkDisk (files d ++ [p])%list (S (opens d)))
  end.

(** The loop of [findNew] over the fetched records. *)
Fixpoint markAll (dir : string) (ct nt : list Tender) (d : Disk)
  : (list Tender * option error) * Disk :=
  match ct with
  | [] => ((nt, None), d)
  | t :: ct' =>
      match mark dir (ID t) d with
      | (Err e, d') => (([], Some e), d')
      | (Ok isNew, d') =>
          markAll dir ct' (if isNew then (nt ++ [t])%list else nt) d'
      end
  end.

End WithDisk.

Section WithBoth.

Variable net : nat -> request -> reply Form.Doc.
Variable setCookie : nat -> string.
Variable resolve : Url -> string -> result string.
Variable Join : string -> string -> string.
Variable openFault : nat -> option error.

(** [findNew(fet, st)]: the state is the requests sent and the
    directory. *)
Definition findNew (purl : Url) (dir : string) (st : list request * Disk)
  : (list Tender * option error) * (list request * Disk) :=
  match fetch net setCookie resolve purl (fst st) with
  | ((ct, Some e), sent') => (([], Some e), (sent', snd st))
  | ((ct, None), sent') =>
      let '(r, d') := markAll Join openFault dir ct [] (snd st) in
      (r, (sent', d'))
  end.

End WithBoth.

End Legacy.

(** ** Vocabulary of the properties *)

(** The row that [add] writes for [t] when the clock reads [observed]. *)
Definition rowOf (t : Tender) (observed : Time) : Row :=
  mkRow (ID t) (URL t) (Description t) (Agency t)
        (FormatDateOnly (IssuedDate t)) (FormatDateOnly (CloseDate t))
        (FormatSqlite observed).

(** The database answers statement [n]. *)
Definition healthy (E : Env) (n : nat) : Prop :=
  dbFault E n = None /\ affectedFault E n = None.

(** The rows carry the time stamp that [add] gives them. *)
Definition stamped (rs : list Row) : Prop :=
  Forall (fun r => exists t, first_observed r = FormatSqlite t) rs.

(** A civil date that the layout [2006-01-02] writes in ten bytes. *)
Definition civil4 (t : Time) : bool :=
  wf t && (0 <=? tYear t) && (tYear t <=? 9999).

(** What the date columns keep of a time. *)
Definition midnight (t : Time) : Time :=
  mkTime (tYear t) (tMonth t) (tDay t) 0 0.

Definition dateKey (t : Time) : Z :=
  tYear t * 10000 + tMonth t * 100 + tDay t.

Definition laterDate (a b : Time) : Time :=
  if dateKey a <? dateKey b then b else a.

(** The latest of the dates [d0 :: ds], the first of them among equals. *)
Definition latest (d0 : Time) (ds : list Time) : Time :=
  fold_left laterDate ds d0.

(** A decimal digit, and the ten bytes of a date from its digits. *)
Definition isDig (a : Z) : Prop := 0 <= a <= 9.

Definition dateText (a b c d e f g h : Z) : string :=
  String (digit a) (String (digit b) (String (digit c) (String (digit d)
  (String "-" (String (digit e) (String (digit f)
  (String "-" (String (digit g) (String (digit h) ""))))))))).

(** [r] is a row that [add] writes for [t]. *)
Definition written (t : Tender) (r : Row) : Prop :=
  exists observed, r = rowOf t observed.

Section RunVocabulary.

Variable E : Env.
Context {C : Type}.
Variable List : string -> M (C * nat) (list Tender * string).

(** [add] on the records of [ts] in turn; the result lists those that
    were new. *)
Fixpoint addAll (ts : list Tender) (w : World C)
  : result (list Tender) * World C :=
  match ts with
  | [] => (Ok [], w)
  | t :: ts' =>
      match add E t w with
      | (Err e, w') => (Err e, w')
      | (Ok isNew, w') =>
          match addAll ts' w' with
          | (Ok news, w'') => (Ok (if isNew then t :: news else news), w'')
          | (Err e, w'') => (Err e, w'')
          end
      end
  end.

(** The state of the loop [outer] at the head of an iteration: the
    token, the new records so far, the world. *)
Definition loopState : Type := (string * list Tender * World C)%type.

(** [reaches stop n s s']: from [s], the loop arrives at [s'] after [n]
    pages that were listed and stored without error, without a record
    that stops the run, and with a further page to ask for. *)
Inductive reaches (stop : Tender -> bool) : nat -> loopState -> loopState -> Prop :=
| reaches_here s : reaches stop 0 s s
| reaches_next n token nt w ct nextToken w1 nt' w2 s' :
    callList List token w = (Ok (ct, nextToken), w1) ->
    rangePage E stop ct nt w1 = (NextPage nt', w2) ->
    String.eqb nextToken "" = false ->
    reaches stop n (nextToken, nt', w2) s' ->
    reaches stop (S n) (token, nt, w) s'.

(** [failsAt stop s inserted e w']: the iteration that starts in [s]
    fails with [e] and leaves the world [w'], in [List] or in the [add]
    of a record; [inserted] are the records of the page stored as new
    before that. *)
Inductive failsAt (stop : Tender -> bool)
  : loopState -> list Tender -> error -> World C -> Prop :=
| fails_in_List token nt w e w' :
    callList List token w = (Err e, w') ->
    failsAt stop (token, nt, w) [] e w'
| fails_in_add token nt w pre t post nextToken w1 news w2 e w' :
    callList List token w = (Ok ((pre ++ t :: post)%list, nextToken), w1) ->
    forallb (fun t => negb (stop t)) pre = true ->
    addAll pre w1 = (Ok news, w2) ->
    add E t w2 = (Err e, w') ->
    failsAt stop (token, nt, w) news e w'.

End RunVocabulary.

(** Every record that the client lists satisfies [P]. *)
Definition listsOnly {C : Type} (P : Tender -> Prop)
  (List : string -> M (C * nat) (list Tender * string)) : Prop :=
  forall tok s ct next s',
    List tok s = (Ok (ct, next), s') -> Forall P ct.

(** The browser client can read the entry [d]: the title has its space
    and the two displayed dates follow the layout. *)
Definition readable (d : Browser.RawTender) : Prop :=
  snd (CutSpace (Browser.Title d)) = true
  /\ (exists t, ParseDisplay (Browser.DateAvailableDisplay d) = Ok t)
  /\ (exists t, ParseDisplay (Browser.DateClosingDisplay d) = Ok t).

(** A displayed date as the record keeps it when the clock reads [now]:
    the date itself, or [now] when its year is 9999. *)
Definition kept (now : Time) (display : string) (date : Time) : Prop :=
  exists parsed,
    ParseDisplay display = Ok parsed
    /\ date = if Year parsed =? 9999 then now else parsed.

(** A source that serves its records in pages of [size]: the records of
    page [page], counted from 1, and whether records remain after it. *)
Definition pageOf {A : Type} (recs : list A) (size page : Z) : list A :=
  firstn (Z.to_nat size) (skipn (Z.to_nat (size * (page - 1))) recs).

Definition furtherPages (total size page : Z) : bool := size * page <? total.

(** The portal of the token client as such a source: it signs every
    guest in, serves pages of 25 and knows no closing location. *)
Definition pagedPortal (recs : list Token.tenderData)
  : nat -> Token.request -> reply Token.json :=
  fun _ req =>
    match req with
    | Token.Authenticate => Reply 200 (Decoded (Token.mkJson "jwt" []))
    | Token.Tenders page _ =>
        Reply 200 (Decoded (Token.mkJson "" (pageOf recs 25 page)))
    | Token.TenderById _ _ => Reply 200 (Decoded (Token.mkJson "" []))
    end.

(** *** Sessions *)

(** The state after the calls [List tok] for the tokens of [toks], in
    turn, whatever they return. *)
Fixpoint afterCalls {S A : Type} (List : string -> M S A) (toks : list string)
  (s : S) : S :=
  match toks with
  | [] => s
  | tok :: toks' => afterCalls List toks' (snd (List tok s))
  end.

Section SessionVocabulary.

Variables (S R : Type).
Variable ready : S -> bool.
Variable log : S -> list R.

(** [s'] comes after [s], is ready, and nothing logged in between
    satisfies [p]. *)
Definition extends (p : R -> bool) (s s' : S) : Prop :=
  ready s' = true
  /\ exists new, log s' = (log s ++ new)%list
                 /\ forallb (fun r => negb (p r)) new = true.

(** On a ready client [m] logs nothing that satisfies [p] and leaves the
    client ready. *)
Definition quiet (p : R -> bool) {A : Type} (m : M S A) : Prop :=
  forall s, ready s = true -> extends p s (snd (m s)).

(** The session of a client: [establishing] are the requests that set
    it up, [paging] those that fetch a page.
    - Once the client is ready it stays so, and no call establishes the
      session again.
    - A call that finds the client not ready and leaves it not ready has
      returned an error and has fetched no page.
    - A call with the empty token on a client that is not ready starts
      by establishing the session. *)
Definition sessionOnce {A : Type} (List : string -> M S A)
  (establishing paging : R -> bool) : Prop :=
  (forall toks s, ready s = true ->
                  extends establishing s (afterCalls List toks s))
  /\ (forall tok s,
         ready s = false -> ready (snd (List tok s)) = false ->
         (exists e, fst (List tok s) = Err e)
         /\ exists new, log (snd (List tok s)) = (log s ++ new)%list
                        /\ forallb (fun r => negb (paging r)) new = true)
  /\ (forall s, ready s = false ->
                exists r rest,
                  log (snd (List "" s)) = (log s ++ r :: rest)%list
                  /\ establishing r = true).

End SessionVocabulary.

Definition TokenEstablishing (r : Token.request) : bool :=
  match r with Token.Authenticate => true | _ => false end.

Definition TokenPaging (r : Token.request) : bool :=
  negb (TokenEstablishing r).

Definition FormEstablishing (r : Form.request) : bool :=
  match r with Form.GetForm => true | _ => false end.

Definition FormPaging (r : Form.request) : bool :=
  negb (FormEstablishing r).

Definition BrowserPaging (a : Browser.action) : bool :=
  match a with
  | Browser.ClickNext | Browser.WaitForTable | Browser.IsEnabledNext => true
  | _ => false
  end.

Definition BrowserEstablishing (a : Browser.action) : bool :=
  negb (BrowserPaging a).

(** *** The records of the token client *)

(** The record [t] is what the token client with base URL [base] makes
    of the entry [td]. *)
Definition mirrors (base : string) (td : Token.tenderData) (t : Tender) : Prop :=
  ID t = Token.TenderID td
  /\ Description t = Token.Title td
  /\ Agency t = Token.ProcurementEntity td
  /\ ParseDateOnly (Token.PostDate td) = Ok (IssuedDate t)
  /\ ParseDateOnly (String.substring 0 10 (Token.ClosingDate td))
     = Ok (CloseDate t)
  /\ (URL t = base ++ "/tenders/" ++ Token.TenderID td
      \/ Contains (URL t) "Detail" = true).

(** *** The records and the forms of the form client *)

(** The rows of the grid that stand for a tender: neither the header
    nor the pager. *)
Definition dataRows (rows : list Form.GridRow) : list Form.GridRow :=
  filter (fun r => negb (Form.hasTh r) && negb (Form.isPagination r)) rows.

(** The record [t] is what the form client with base URL [base] reads
    in the row [r]: the closing date in the first span of the dates, the
    date of issue in the second. *)
Definition reads (resolve : Url -> string -> result string) (base : Url)
  (r : Form.GridRow) (t : Tender) : Prop :=
  ID t = Form.linkText r
  /\ (exists href, Form.linkHref r = Some href /\ resolve base href = Ok (URL t))
  /\ Description t = TrimSpace (Form.descriptionCell r)
  /\ Agency t = TrimSpace (Form.agencySpan r)
  /\ exists closing issued,
       Form.dateSpans r = [closing; issued]
       /\ ParseDayMonYear issued = Ok (IssuedDate t)
       /\ ParseDayMonYear closing = Ok (CloseDate t).

(** What a form carries for the key [k]: [url.Values.Get]. *)
Definition valueOf (vals : Form.Values) (k : string) : string :=
  match find (fun kv => String.eqb (fst kv) k) vals with
  | Some kv => snd kv
  | None => ""
  end.

(** The keys that [List] sets for the page [page]. *)
Definition filterKeys (page : Z) : list string :=
  [Form.field ++ "ddDateRange"; Form.field ++ "tbSearchTenderID";
   Form.field ++ "tbDescription"; Form.field ++ "ddCategoryList";
   Form.field ++ "ddDeptAgency"; Form.field ++ "ddPageSize"]
  ++ (if 1 <? page then ["__EVENTTARGET"; "__EVENTARGUMENT"]
      else [Form.field ++ "btnFilter"]).

(** *** The descriptions of the browser client *)

Definition printable (c : ascii) : bool :=
  let n := N_of_ascii c in (N.leb 32 n && N.leb n 126)%N.

(** A text of printable ASCII that neither starts nor ends with a space
    and has no two spaces in a row. *)
Definition tidy (s : string) : Prop :=
  let l := list_ascii_of_string s in
  Forall (fun c => printable c = true) l
  /\ (forall pre rest, l <> (pre ++ " "%char :: " "%char :: rest)%list)
  /\ (forall rest, l <> (" "%char :: rest)%list)
  /\ (forall pre, l <> (pre ++ [" "%char])%list).

(** *** The messages *)

(** The message [m] is the one that the notifier [n] makes for the
    records [ts]: from the sender to the sender, every configured
    recipient a blind copy, in the order of the configuration. *)
Definition carries (ParseEmail : string -> result Notifier.Email)
  (n : Notifier.notifier) (ts : list Tender) (m : Notifier.Mail) : Prop :=
  Notifier.Key m = Notifier.apiKey n
  /\ Notifier.From m = Notifier.mkEmail (Notifier.fromName n) (Notifier.fromEmail n)
  /\ Notifier.Tos m = [Notifier.From m]
  /\ Forall2 (fun te em => ParseEmail te = Ok em)
             (Notifier.toEmails n) (Notifier.BCCs m)
  /\ Notifier.ContentType m = "text/html"
  /\ Notifier.Content m = Notifier.hmsgOf ts.

(** The two drivers of the programs over a client [List]: [findNew]
    on the issued date and [findNew] of the browser program. *)
Definition isDriver (E : Env) {C : Type}
  (List : string -> M (C * nat) (list Tender * string))
  (find : nat -> World C -> run output * World C) : Prop :=
  find = findNew E List \/ find = findNewObserved E List.

(** *** The two token clients *)

(** The portal answers the request for the closing location of every
    tender, and with nothing that the client would take for the URL of
    the tender: no single entry, or an entry whose location is empty,
    is not a URL, or is a URL without "Detail". *)
Definition noDetail (net : nat -> Token.request -> reply Token.json)
  (parseURL : string -> result string) : Prop :=
  forall n tenderId bearer,
  exists body,
    net n (Token.TenderById tenderId bearer) = Reply 200 (Decoded body)
    /\ forall td locU,
         Token.TenderDataList body = [td] ->
         parseURL (Token.ClosingLocation td) = Ok locU ->
         Token.ClosingLocation td = "" \/ Contains locU "Detail" = false.

(** The portal answers the request for a page in the same way at every
    point of a session. *)
Definition steadyPages (net : nat -> Token.request -> reply Token.json) : Prop :=
  forall n m page bearer,
    net n (Token.Tenders page bearer) = net m (Token.Tenders page bearer).

(** *** The capture buffer of the browser client *)

(** The payloads that the hook takes from the responses [rs]. *)
Definition captured (rs : list Browser.response) : list Browser.RawTenders :=
  fold_left Browser.hook rs [].

(** The responses that arrive during the actions [acts], the first of
    which is the action number [start] of the session. *)
Fixpoint arrivalsOf (browser : nat -> Browser.action -> Browser.outcome)
  (start : nat) (acts : list Browser.action) : list Browser.response :=
  match acts with
  | [] => []
  | a :: acts' =>
      (Browser.arrived (browser start a) ++ arrivalsOf browser (S start) acts')%list
  end.

(** The removals among the critical sections [sched] that find a
    payload, when the buffer holds [n] payloads at the start. *)
Fixpoint served (n : nat) (sched : list Browser.op) : nat :=
  match sched with
  | [] => 0
  | Browser.Produce _ :: sched' => served (S n) sched'
  | Browser.Consume :: sched' =>
      match n with
      | O => served O sched'
      | S n' => S (served n' sched')
      end
  end.

(** The actions of a call of [List], on a client that has its session,
    that come before the removal from the buffer. *)
Definition actionsBefore (tok : string) : list Browser.action :=
  ((if String.eqb tok "" then [] else [Browser.ClickNext])
   ++ [Browser.WaitForTable])%list.

(** The critical sections of such a call, when [start] actions have been
    performed before it: the appends of the hooks that run before the
    table is there, the removal of [List], and the appends of the hooks
    that run while [List] asks whether "next page" is enabled. *)
Definition sectionsOf (browser : nat -> Browser.action -> Browser.outcome)
  (start : nat) (tok : string) : list Browser.op :=
  (map Browser.Produce
       (captured (arrivalsOf browser start (actionsBefore tok)))
   ++ Browser.Consume
   :: map Browser.Produce
          (captured (arrivalsOf browser
                                (start + List.length (actionsBefore tok))
                                [Browser.IsEnabledNext])))%list.

(** The actions of [init] after it has registered its hook. *)
Definition actionsHooked (u : Url) : list Browser.action :=
  [Browser.Goto (URLString u); Browser.ClickOpenToggleFilters;
   Browser.ClickAll].

(** *** The records of the browser client *)

(** The record [t] is the entry [d] as [List] makes it when the clock
    reads [now]: the id is the first word of the title, and each date is
    the displayed one, or [now] in the place of a date of year 9999. *)
Definition listedAs (now : Time) (d : Browser.RawTender) (t : Tender) : Prop :=
  ID t = fst (fst (CutSpace (Browser.Title d)))
  /\ kept now (Browser.DateAvailableDisplay d) (IssuedDate t)
  /\ kept now (Browser.DateClosingDisplay d) (CloseDate t).

(** The records [ts] are the entries [ds], one for one and in their
    order, the clock being read once for every entry, from the reading
    number [k] on. *)
Fixpoint listedFrom (E : Env) (k : nat) (ds : list Browser.RawTender)
  (ts : list Tender) : Prop :=
  match ds, ts with
  | [], [] => True
  | d :: ds', t :: ts' => listedAs (clock E k) d t /\ listedFrom E (S k) ds' ts'
  | _, _ => False
  end.

(** The row [r] holds the entry [d] as it is stored when the clock reads
    [now]: the two date columns have the displayed dates, and the date
    of [now] in the place of a date of year 9999. *)
Definition storedAs (now : Time) (d : Browser.RawTender) (r : Row) : Prop :=
  id r = fst (fst (CutSpace (Browser.Title d)))
  /\ (exists parsed,
         ParseDisplay (Browser.DateAvailableDisplay d) = Ok parsed
         /\ issued r = FormatDateOnly (if Year parsed =? 9999 then now
                                       else parsed))
  /\ (exists parsed,
         ParseDisplay (Browser.DateClosingDisplay d) = Ok parsed
         /\ close r = FormatDateOnly (if Year parsed =? 9999 then now
                                      else parsed)).

(** *** The ledger *)

(** The rows [added] carry ids that [rs] does not hold, each id once. *)
Definition unseen (rs added : list Row) : Prop :=
  NoDup (map id added)
  /\ Forall (fun r => hasId (id r) rs = false) added.

(** [rs'] is [rs] with such rows appended: no row changed or removed,
    no id stored twice. *)
Definition grownFrom (rs rs' : list Row) : Prop :=
  exists added, rs' = (rs ++ added)%list /\ unseen rs added.

(** The date of the watermark after a record issued on [d] is stored
    new in a table whose rows were issued on [ds]. *)
Definition watermarkWith (ds : list Time) (d : Time) : Time :=
  match ds with
  | [] => midnight d
  | d0 :: ds' => midnight (laterDate (latest d0 ds') d)
  end.

(** The issued-date watermark of a table whose rows were issued on
    [ds]: the zero time on the empty table. *)
Definition watermark (ds : list Time) : Time :=
  match ds with
  | [] => zeroTime
  | d0 :: ds' => midnight (latest d0 ds')
  end.

(** The records [nt] are the rows that a run has appended to [rs0] to
    arrive at [rs], in order, with ids that [rs0] did not hold. *)
Definition tally (rs0 : list Row) (nt : list Tender) (rs : list Row) : Prop :=
  exists added, rs = (rs0 ++ added)%list /\ unseen rs0 added
                /\ Forall2 written nt added.

(** ** Data for the examples *)

Module Sample.

(** A clock that advances by a second at every reading, from
    2024-11-08 10:00:00, and a database that never fails. *)
Definition env : Env :=
  mkEnv (fun n => mkTime 2024 11 8 (36000 + Z.of_nat n) 0)
        (fun _ => None) (fun _ => None).

Definition day (y m d : Z) : Time := mkTime y m d 0 0.

(** The records of the end-to-end scenario. *)
Definition T1 : Tender :=
  mkTender "T1" "https://example.org/T1" "Road works" "HRM"
           (day 2024 1 10) (day 2024 2 1).

Definition T2 : Tender :=
  mkTender "T2" "https://example.org/T2" "Snow removal" "HRM"
           (day 2024 1 5) (day 2024 2 5).

(** [T1] again, with other fields than the key. *)
Definition T1' : Tender :=
  mkTender "T1" "https://example.org/other" "Bridge repair" "Province"
           (day 2023 6 1) (day 2023 7 1).

(** An older record. *)
Definition T3 : Tender :=
  mkTender "T3" "https://example.org/T3" "Paving" "HRM"
           (day 2023 11 20) (day 2023 12 20).

(** A record issued before January 1 of year 1. *)
Definition T0 : Tender :=
  mkTender "T0" "https://example.org/T0" "Culvert" "HRM"
           (day 0 6 15) (day 2024 3 1).

(** A record issued on January 1 of year 1. *)
Definition TZ : Tender :=
  mkTender "TZ" "https://example.org/TZ" "Ferry" "HRM"
           (day 1 1 1) (day 2024 3 1).

(** Two records older than a month before [T1]. *)
Definition T4 : Tender :=
  mkTender "T4" "https://example.org/T4" "Dredging" "HRM"
           (day 2023 10 2) (day 2023 11 2).

Definition T5 : Tender :=
  mkTender "T5" "https://example.org/T5" "Lighting" "HRM"
           (day 2023 9 12) (day 2023 10 12).

(** A record that closed a month before the clock of [env] starts. *)
Definition T6 : Tender :=
  mkTender "T6" "https://example.org/T6" "Signage" "HRM"
           (day 2024 9 1) (day 2024 10 1).

(** Three pages, newest first. *)
Definition page1 : Synthetic.page := ([T1; T2], "2").
Definition page2 : Synthetic.page := ([T3; T4], "3").
Definition page3 : Synthetic.page := ([T5], "").

(** An entry of the browser source whose closing date is the
    placeholder of year 9999. *)
Definition raw1 : Browser.RawTender :=
  Browser.mkRawTender "88f81afc" "24-101 - Transit  shelters"
                      "Fri Nov 8, 2024 12:00:00 AM"
                      "Fri Dec 31, 9999 11:59:59 PM".

(** An entry of the portal of the token client, and a fresh client. *)
Definition td1 : Token.tenderData :=
  Token.mkTenderData "T1" "Road works" "Halifax Regional Municipality"
                     "2024-01-10" "2024-02-01T14:00:00" "".

Definition portal : Url := mkUrl "https://portal.example" "".

Definition fresh : Token.State := Token.mkState (Token.NewClient portal) [].

(** The portal when it refuses the first connection of a run. *)
Definition flakyPortal : nat -> Token.request -> reply Token.json :=
  fun n req =>
    match n with
    | O => NoReply "connection refused"
    | _ => pagedPortal [td1] n req
    end.

(** The form source: a page with a header row, one tender and the row
    of the pager. *)
Definition formNet : nat -> Form.request -> reply Form.Doc :=
  fun _ req =>
    match req with
    | Form.GetForm => Reply 200 (Decoded (Form.mkDoc [("__VIEWSTATE", "v0")] []))
    | Form.PostForm _ =>
        Reply 200 (Decoded (Form.mkDoc
          [("__VIEWSTATE", "v1")]
          [Form.mkGridRow true false "" None "" "" [];
           Form.mkGridRow false false "T1" (Some "/tender.aspx?id=T1")
                          " HRM " "  Road works "
                          ["01 Feb 2024"; "10 Jan 2024"];
           Form.mkGridRow false true "" None "" "" []]))
    end.

Definition formResolve (base : Url) (href : string) : result string :=
  Ok (origin base ++ href).

Definition formFresh : Form.State :=
  Form.mkState (Form.NewClient (mkUrl "https://p.example" "/ns-tenders.aspx")) [].

(** The browser source: the click on "all" brings a script and the
    search response with [raw1]; "next page" is not enabled. *)
Definition searchResponse : Browser.response :=
  Browser.mkResponse "https://h.example/Module/Tenders/en/Tender/Search/abc"
    (Decoded (Browser.mkRawTenders true [raw1] 1)).

Definition noise : Browser.response :=
  Browser.mkResponse "https://h.example/static/app.js" (Malformed "not json").

Definition browser : nat -> Browser.action -> Browser.outcome :=
  fun _ a =>
    match a with
    | Browser.ClickAll => Browser.mkOutcome None false [noise; searchResponse]
    | _ => Browser.mkOutcome None false []
    end.

Definition resolveRef (base : Url) (path : string) : string :=
  origin base ++ path.

(** A second entry, with both dates of year 9999 and two spaces in the
    closing date, and the browser source in two pages: the click on
    "all" brings the payload of [raw1], the click on "next page" that of
    [raw2]; "next page" is enabled until it has been clicked. *)
Definition raw2 : Browser.RawTender :=
  Browser.mkRawTender "91c2d07e" "24-103 Snow clearing"
                      "Fri Dec 31, 9999 12:00:00 AM"
                      "Fri Dec 31,  9999 11:59:59 PM".

Definition payloadA : Browser.RawTenders := Browser.mkRawTenders true [raw1] 2.

Definition payloadB : Browser.RawTenders := Browser.mkRawTenders true [raw2] 2.

Definition responseOf (rt : Browser.RawTenders) : Browser.response :=
  Browser.mkResponse "https://h.example/Module/Tenders/en/Tender/Search/abc"
                     (Decoded rt).

Definition browserPaged : nat -> Browser.action -> Browser.outcome :=
  fun n a =>
    match a with
    | Browser.ClickAll => Browser.mkOutcome None false [noise; responseOf payloadA]
    | Browser.ClickNext => Browser.mkOutcome None false [responseOf payloadB]
    | Browser.IsEnabledNext => Browser.mkOutcome None (n <? 10)%nat []
    | _ => Browser.mkOutcome None false []
    end.

(** The same source when the page has both payloads before the first
    call of [List] takes one. *)
Definition browserEager : nat -> Browser.action -> Browser.outcome :=
  fun n a =>
    match a with
    | Browser.ClickAll =>
        Browser.mkOutcome None false [responseOf payloadA; responseOf payloadB]
    | Browser.IsEnabledNext => Browser.mkOutcome None (n <? 10)%nat []
    | _ => Browser.mkOutcome None false []
    end.

Definition browserFresh : Browser.State :=
  Browser.mkState
    (Browser.NewClient (mkUrl "https://h.example" "/Module/Tenders/en"))
    [] false.

(** The form source when the second of three rows has lost its link. *)
Definition brokenGrid : Form.Doc :=
  Form.mkDoc
    [("__VIEWSTATE", "v2")]
    [Form.mkGridRow false false "T1" (Some "/tender.aspx?id=T1")
                    " HRM " "  Road works " ["01 Feb 2024"; "10 Jan 2024"];
     Form.mkGridRow false false "T9" None "HRM" "Culvert"
                    ["01 Mar 2024"; "12 Jan 2024"];
     Form.mkGridRow false false "T2" (Some "/tender.aspx?id=T2")
                    "HRM" "Snow removal" ["05 Feb 2024"; "05 Jan 2024"]].

Definition brokenFormNet : nat -> Form.request -> reply Form.Doc :=
  fun _ req =>
    match req with
    | Form.GetForm => Reply 200 (Decoded (Form.mkDoc [("__VIEWSTATE", "v0")] []))
    | Form.PostForm _ => Reply 200 (Decoded brokenGrid)
    end.

(** A form client that has its session, with the hidden fields of the
    last document. *)
Definition formReady : Form.State :=
  Form.mkState
    (Form.mkClient (mkUrl "https://p.example" "/ns-tenders.aspx") true
                   [("__VIEWSTATE", "v1"); ("__EVENTVALIDATION", "e1")])
    [Form.GetForm; Form.PostForm []].

(** Addresses: a text with an at sign is an address without a name. *)
Definition parseEmail (s : string) : result Notifier.Email :=
  if Contains s "@" then Ok (Notifier.mkEmail "" s)
  else Err "mail: missing '@' or angle-addr".

(** SendGrid when it accepts every message, and when it answers every
    message with the status 401. *)
Definition accepting : nat -> Notifier.Mail -> Z * option error :=
  fun _ _ => (202, None).

Definition rejecting : nat -> Notifier.Mail -> Z * option error :=
  fun _ _ => (401, None).

Definition notifierAB : Notifier.notifier :=
  Notifier.mkNotifier "key" "Digest" "digest@example.org"
                      ["a@example.org"; "b@example.org"].

Definition environ : Program.Environ :=
  Program.mkEnviron "key" "Digest" "digest@example.org"
                    "a@example.org;b@example.org".

(** The source of the first program: the page with its form, then the
    grid with the row that has lost its link. *)
Definition legacyNet : nat -> Legacy.request -> reply Form.Doc :=
  fun _ req =>
    match req with
    | Legacy.Get => Reply 200 (Decoded (Form.mkDoc [("__VIEWSTATE", "v0")] []))
    | Legacy.Post _ _ => Reply 200 (Decoded brokenGrid)
    end.

Definition cookies : nat -> string := fun _ => "ASP.NET_SessionId=abc".

(** A portal of 26 entries, which it serves on two pages, and the
    records of its entries. *)
Definition entry (i : nat) : Token.tenderData :=
  Token.mkTenderData ("T" ++ Itoa (Z.of_nat i)) "Road works"
                     "Halifax Regional Municipality"
                     "2024-01-10" "2024-02-01T14:00:00" "".

Definition record (i : nat) : Tender :=
  mkTender ("T" ++ Itoa (Z.of_nat i))
           ("https://portal.example/tenders/T" ++ Itoa (Z.of_nat i))
           "Road works" "Halifax Regional Municipality"
           (day 2024 1 10) (day 2024 2 1).

Definition portal26 : list Token.tenderData := map entry (seq 1 26).

Definition records26 : list Tender := map record (seq 1 26).

(** An entry whose title has no space, a payload that holds it after
    [raw1], and a browser client with this payload and another one in
    its buffer. *)
Definition rawBad : Browser.RawTender :=
  Browser.mkRawTender "77aa" "24-102" "Fri Nov 8, 2024 12:00:00 AM"
                      "Mon Nov 25, 2024 2:00:59 PM".

Definition badPayload : Browser.RawTenders :=
  Browser.mkRawTenders true [raw1; rawBad] 2.

Definition browserLoaded : Browser.State :=
  Browser.mkState
    (Browser.mkClient (mkUrl "https://h.example" "/Module/Tenders/en") true
                      [badPayload; Browser.mkRawTenders true [raw1] 1])
    [] true.

(** A client without state that lists the same page at every call. *)
Definition steady (ct : list Tender) : string -> M (unit * nat) (list Tender * string) :=
  fun _ sk => (Ok (ct, ""), sk).

Definition empty {C} (c : C) : World C := mkWorld c [] 0 0.

End Sample.

(** * Properties *)

Unset Implicit Arguments.

(** ** The counter of pages *)

Lemma incr_small (n : Z) : - 2 ^ 63 <= n + 1 < 2 ^ 63 -> incr n = n + 1.
Proof.
  intros H. unfold incr. rewrite Z.mod_small; lia.
Qed.

Lemma incr_wraps : incr (2 ^ 63 - 1) = - 2 ^ 63.
Proof. reflexivity. Qed.

Lemma incr_inInt64 (n : Z) : inInt64 (incr n) = true.
Proof.
  unfold inInt64, incr. apply andb_true_iff. rewrite Z.leb_le, Z.ltb_lt.
  pose proof (Z.mod_pos_bound (n + 1 + 2 ^ 63) (2 ^ 64)). lia.
Qed.

(** ** The store *)

Section StoreFacts.

Variable E : Env.
Variable C : Type.

(** [add] on a database that answers: the result tells whether the key
    was free, and only then a row is appended. *)
Lemma add_healthy (t : Tender) (w : World C) :
  healthy E (stmts w) ->
  add E t w =
  (Ok (negb (hasId (ID t) (rows w))),
   mkWorld (cli w)
           (if hasId (ID t) (rows w) then rows w
            else (rows w ++ [rowOf t (clock E (ticks w))])%list)
           (S (stmts w)) (S (ticks w))).
Proof.
  intros [Hd Ha]. unfold add, execInsert, readClock, RowsAffected; simpl.
  rewrite Hd, Ha. unfold rowOf.
  destruct (hasId (ID t) (rows w)); reflexivity.
Qed.

Lemma hasId_app (k : string) (rs rs' : list Row) :
  hasId k (rs ++ rs')%list = hasId k rs || hasId k rs'.
Proof. unfold hasId. apply existsb_app. Qed.

Lemma hasId_rowOf (t : Tender) (o : Time) : hasId (ID t) [rowOf t o] = true.
Proof. unfold hasId; simpl. rewrite String.eqb_refl. reflexivity. Qed.

(** Whatever the database does, [add] leaves the rows in place. *)
Lemma add_keeps_rows (t : Tender) (w : World C) :
  exists added, rows (snd (add E t w)) = (rows w ++ added)%list.
Proof.
  unfold add, execInsert, readClock, RowsAffected; simpl.
  destruct (dbFault E (stmts w)); simpl.
  - exists []. now rewrite app_nil_r.
  - destruct (hasId (ID t) (rows w)), (affectedFault E (stmts w)); simpl;
      solve [ exists []; now rewrite app_nil_r | eexists; reflexivity ].
Qed.

Lemma add_keeps_client (t : Tender) (w : World C) :
  cli (snd (add E t w)) = cli w.
Proof.
  unfold add, execInsert, readClock, RowsAffected; simpl.
  destruct (dbFault E (stmts w)); simpl; [reflexivity|].
  destruct (affectedFault E (stmts w)); reflexivity.
Qed.

End StoreFacts.

(** C1, as stated, fails on a store that holds the id already: the first
    of the two calls returns [isNew = false] and no row is inserted. *)
Lemma add_twice_on_stored_id :
  let w0 := mkWorld tt [rowOf Sample.T1 (Sample.day 2024 1 11)] 0 0 in
  let r1 := add Sample.env Sample.T1 w0 in
  let r2 := add Sample.env Sample.T1' (snd r1) in
  fst r1 = Ok false /\ fst r2 = Ok false /\ rows (snd r2) = rows w0.
Proof. vm_compute. repeat split. Qed.

(** C1 (amended): two calls of [add] with one id, on a database that
    answers.  The second call returns [false] and changes no row; the
    first returns [true] and appends the one row exactly when the store
    does not hold the id yet, and otherwise is a no-op as well. *)
Theorem add_idempotent (E : Env) (C : Type) (w : World C) (t t' : Tender) :
  ID t' = ID t ->
  healthy E (stmts w) -> healthy E (S (stmts w)) ->
  let r1 := add E t w in
  let r2 := add E t' (snd r1) in
  fst r2 = Ok false /\ rows (snd r2) = rows (snd r1) /\
  (hasId (ID t) (rows w) = false ->
   fst r1 = Ok true /\
   rows (snd r1) = (rows w ++ [rowOf t (clock E (ticks w))])%list) /\
  (hasId (ID t) (rows w) = true ->
   fst r1 = Ok false /\ rows (snd r1) = rows w).
Proof.
  intros Hid H0 H1. cbv zeta.
  rewrite (add_healthy E C t w H0). cbn [fst snd].
  rewrite add_healthy by exact H1. cbn [fst snd rows].
  rewrite Hid.
  destruct (hasId (ID t) (rows w)) eqn:Hh.
  - rewrite Hh. repeat split; try reflexivity; discriminate.
  - rewrite hasId_app, hasId_rowOf, orb_true_r.
    repeat split; try reflexivity; discriminate.
Qed.

Lemma add_idempotent_witness :
  let w := Sample.empty tt in
  let r1 := add Sample.env Sample.T1 w in
  let r2 := add Sample.env Sample.T1' (snd r1) in
  fst r2 = Ok false /\ rows (snd r2) = rows (snd r1) /\
  (hasId "T1" (rows w) = false ->
   fst r1 = Ok true /\
   rows (snd r1) =
   (rows w ++ [rowOf Sample.T1 (clock Sample.env (ticks w))])%list) /\
  (hasId "T1" (rows w) = true ->
   fst r1 = Ok false /\ rows (snd r1) = rows w).
Proof.
  apply (add_idempotent Sample.env unit (Sample.empty tt) Sample.T1 Sample.T1').
  - reflexivity.
  - split; reflexivity.
  - split; reflexivity.
Defined.

(** ** Texts and dates *)

Lemma length_append (s1 s2 : string) :
  String.length (s1 ++ s2) = (String.length s1 + String.length s2)%nat.
Proof. induction s1; simpl; [reflexivity | now rewrite IHs1]. Qed.

Lemma length_list_ascii (s : string) :
  List.length (list_ascii_of_string s) = String.length s.
Proof. induction s; simpl; [reflexivity | now rewrite IHs]. Qed.

Lemma zpad_length (w : nat) (n : Z) : (w <= String.length (zpad w n))%nat.
Proof.
  revert n. induction w as [|w IH]; intros n; simpl; [lia|].
  rewrite length_append; simpl. specialize (IH (n / 10)). lia.
Qed.

Lemma appendInt_length (x : Z) (w : nat) :
  (w <= String.length (appendInt x w))%nat.
Proof.
  unfold appendInt. destruct (x <? 0); simpl;
    [pose proof (zpad_length w (- x)) | pose proof (zpad_length w x)]; lia.
Qed.

(** A text of the SQLite layout is longer than a date. *)
Lemma FormatSqlite_length (t : Time) :
  (10 < String.length (FormatSqlite t))%nat.
Proof.
  unfold FormatSqlite, FormatDateOnly.
  repeat (rewrite length_append; simpl).
  pose proof (appendInt_length (tYear t) 4).
  pose proof (appendInt_length (tMonth t) 2).
  pose proof (appendInt_length (tDay t) 2).
  lia.
Qed.

(** [time.Parse] with layout [2006-01-02] takes ten bytes and no more. *)
Lemma ParseDateOnly_long (s : string) :
  (10 < String.length s)%nat -> exists e, ParseDateOnly s = Err e.
Proof.
  intros H. unfold ParseDateOnly. rewrite <- length_list_ascii in H.
  destruct (list_ascii_of_string s) as [|c0 [|c1 [|c2 [|c3 [|c4 [|c5 [|c6
    [|c7 [|c8 [|c9 [|c10 l]]]]]]]]]]]; simpl in H; try lia.
  eexists; reflexivity.
Qed.

Lemma ParseDateOnly_FormatSqlite (t : Time) :
  exists e, ParseDateOnly (FormatSqlite t) = Err e.
Proof. apply ParseDateOnly_long, FormatSqlite_length. Qed.

(** ** The watermark *)

Lemma textMax_cases (a b : string) : textMax a b = a \/ textMax a b = b.
Proof. unfold textMax. destruct (String.ltb a b); auto. Qed.

Lemma fold_textMax_In (col : Row -> string) (rs : list Row) (m : string) :
  let r := fold_left (fun m r' => textMax m (col r')) rs m in
  r = m \/ In r (map col rs).
Proof.
  revert m. induction rs as [|r rs IH]; intros m; simpl; [now left|].
  destruct (IH (textMax m (col r))) as [H|H].
  - rewrite H. destruct (textMax_cases m (col r)) as [H'|H']; rewrite H'; auto.
  - auto.
Qed.

(** [max(col)] is a value of the column. *)
Lemma sqlMax_In (col : Row -> string) (rs : list Row) (s : string) :
  sqlMax col rs = Some s -> In s (map col rs).
Proof.
  destruct rs as [|r rs]; simpl; [discriminate|].
  intros H; injection H as <-.
  destruct (fold_textMax_In col rs (col r)) as [H|H]; [left; now rewrite H | now right].
Qed.

Lemma stamped_add (E : Env) (C : Type) (t : Tender) (w : World C) :
  stamped (rows w) -> stamped (rows (snd (add E t w))).
Proof.
  intros H. unfold add, execInsert, readClock, RowsAffected; simpl.
  destruct (dbFault E (stmts w)); simpl; [exact H|].
  assert (H' : stamped (if hasId (ID t) (rows w) then rows w
                        else (rows w ++ [rowOf t (clock E (ticks w))])%list)).
  { destruct (hasId (ID t) (rows w)); [exact H|].
    apply Forall_app; split; [exact H|].
    constructor; [|constructor]. eexists; reflexivity. }
  destruct (affectedFault E (stmts w)); exact H'.
Qed.

(** C3: [maxObserved] reads [max(first_observed)] and parses it with the
    layout of a date.  The column holds time stamps, the parse fails, the
    failure is dropped: whatever rows [add] has written, the watermark of
    the first-observed policy is the zero time. *)
Theorem maxObserved_is_zero (E : Env) (C : Type) (w : World C) :
  dbFault E (stmts w) = None ->
  stamped (rows w) ->
  fst (maxObserved E w) = Ok zeroTime.
Proof.
  intros Hd Hs. unfold maxObserved, maxOf, bind, queryMax. rewrite Hd.
  destruct (sqlMax first_observed (rows w)) as [s|] eqn:Hm; [|reflexivity].
  apply sqlMax_In in Hm. apply in_map_iff in Hm as [r [<- Hr]].
  unfold stamped in Hs. rewrite Forall_forall in Hs.
  destruct (Hs r Hr) as [t ->].
  destruct (ParseDateOnly_FormatSqlite t) as [e ->]. reflexivity.
Qed.

Lemma maxObserved_is_zero_witness :
  let w := snd (add Sample.env Sample.T1 (Sample.empty tt)) in
  map first_observed (rows w) = ["2024-11-08 10:00:00+00:00"] /\
  fst (maxObserved Sample.env w) = Ok zeroTime.
Proof.
  split; [reflexivity|].
  apply (maxObserved_is_zero Sample.env unit).
  - reflexivity.
  - apply stamped_add. constructor.
Defined.

(** *** The date column orders as the dates do *)

Ltac digit_cases a H :=
  let H' := fresh in
  assert (H' : a = 0 \/ a = 1 \/ a = 2 \/ a = 3 \/ a = 4 \/ a = 5 \/ a = 6
               \/ a = 7 \/ a = 8 \/ a = 9) by (unfold isDig in H; lia);
  clear H;
  repeat (destruct H' as [H'|H']; [subst a|]); [..|subst a].

Lemma digitVal_digit (a : Z) : isDig a -> digitVal (digit a) = Some a.
Proof. intros H. digit_cases a H; reflexivity. Qed.

Lemma compare_digit (a b : Z) :
  isDig a -> isDig b -> Ascii.compare (digit a) (digit b) = (a ?= b).
Proof. intros Ha Hb. digit_cases a Ha; digit_cases b Hb; reflexivity. Qed.

Lemma zpad_step (w : nat) (q r : Z) :
  isDig r -> zpad (S w) (10 * q + r) = zpad w q ++ String (digit r) "".
Proof.
  intros H. unfold isDig in H. cbn [zpad].
  replace ((10 * q + r) / 10) with q by (apply Z.div_unique with r; lia).
  replace ((10 * q + r) mod 10) with r by (apply Z.mod_unique with q; lia).
  reflexivity.
Qed.

Lemma zpad2_digits (a b : Z) :
  isDig a -> isDig b ->
  zpad 2 (10 * a + b) = String (digit a) (String (digit b) "").
Proof.
  intros Ha Hb. rewrite zpad_step by assumption.
  replace a with (10 * 0 + a) at 1 by lia. rewrite zpad_step by assumption.
  reflexivity.
Qed.

Lemma zpad4_digits (a b c d : Z) :
  isDig a -> isDig b -> isDig c -> isDig d ->
  zpad 4 (10 * (10 * (10 * a + b) + c) + d)
  = String (digit a) (String (digit b) (String (digit c) (String (digit d) ""))).
Proof.
  intros Ha Hb Hc Hd. do 3 (rewrite zpad_step by assumption).
  replace a with (10 * 0 + a) at 1 by lia. rewrite zpad_step by assumption.
  reflexivity.
Qed.

Lemma two_digits (n : Z) :
  0 <= n <= 99 -> exists a b, isDig a /\ isDig b /\ n = 10 * a + b.
Proof.
  intros H. exists (n / 10), (n mod 10). unfold isDig.
  pose proof (Z.div_mod n 10 ltac:(lia)).
  pose proof (Z.mod_pos_bound n 10 ltac:(lia)).
  assert (0 <= n / 10) by (apply Z.div_pos; lia).
  assert (n / 10 < 10) by (apply Z.div_lt_upper_bound; lia).
  lia.
Qed.

Lemma four_digits (n : Z) :
  0 <= n <= 9999 ->
  exists a b c d, isDig a /\ isDig b /\ isDig c /\ isDig d /\
                  n = 10 * (10 * (10 * a + b) + c) + d.
Proof.
  intros H.
  destruct (two_digits (n / 100)) as (a & b & Ha & Hb & Hab).
  { split; [apply Z.div_pos; lia | ].
    assert (n / 100 < 100) by (apply Z.div_lt_upper_bound; lia). lia. }
  destruct (two_digits (n mod 100)) as (c & d & Hc & Hd & Hcd).
  { pose proof (Z.mod_pos_bound n 100 ltac:(lia)). lia. }
  exists a, b, c, d.
  pose proof (Z.div_mod n 100 ltac:(lia)).
  repeat split; try assumption; unfold isDig in *; lia.
Qed.

Lemma daysIn_le (m y : Z) : daysIn m y <= 31.
Proof.
  unfold daysIn. destruct (isLeap y); destruct m as [|p|p]; try lia;
    repeat (destruct p as [p|p|]; cbn; try lia).
Qed.

Lemma wf_bounds (t : Time) :
  wf t = true ->
  1 <= tMonth t <= 12 /\ 1 <= tDay t <= daysIn (tMonth t) (tYear t) /\
  1 <= tDay t <= 31.
Proof.
  unfold wf. rewrite !andb_true_iff, !Z.leb_le, !Z.ltb_lt.
  intros H.
  pose proof (daysIn_le (tMonth t) (tYear t)). lia.
Qed.

Lemma civil4_bounds (t : Time) :
  civil4 t = true ->
  0 <= tYear t <= 9999 /\ 1 <= tMonth t <= 12 /\
  1 <= tDay t <= daysIn (tMonth t) (tYear t) /\ 1 <= tDay t <= 31.
Proof.
  unfold civil4. rewrite !andb_true_iff, !Z.leb_le.
  intros [[H1 H2] H3]. pose proof (wf_bounds t H1). lia.
Qed.

Lemma FormatDateOnly_digits (t : Time) :
  civil4 t = true ->
  exists a b c d e f g h,
    isDig a /\ isDig b /\ isDig c /\ isDig d /\ isDig e /\ isDig f /\
    isDig g /\ isDig h /\
    tYear t = 10 * (10 * (10 * a + b) + c) + d /\
    tMonth t = 10 * e + f /\ tDay t = 10 * g + h /\
    FormatDateOnly t = dateText a b c d e f g h.
Proof.
  intros H. apply civil4_bounds in H as (Hy & Hm & _ & Hd).
  destruct (four_digits (tYear t) Hy) as (a & b & c & d & Ha & Hb & Hc & Hd' & Ey).
  destruct (two_digits (tMonth t)) as (e & f & He & Hf & Em); [lia|].
  destruct (two_digits (tDay t)) as (g & h & Hg & Hh & Ed); [lia|].
  exists a, b, c, d, e, f, g, h. repeat split; try assumption; try (unfold isDig in *; lia).
  unfold FormatDateOnly, appendInt.
  replace (tYear t <? 0) with false by (symmetry; apply Z.ltb_ge; lia).
  replace (tMonth t <? 0) with false by (symmetry; apply Z.ltb_ge; lia).
  replace (tDay t <? 0) with false by (symmetry; apply Z.ltb_ge; lia).
  rewrite Ey, Em, Ed.
  rewrite zpad4_digits, !zpad2_digits by assumption. reflexivity.
Qed.

Lemma compare_dateText (a b c d e f g h a' b' c' d' e' f' g' h' : Z) :
  isDig a -> isDig b -> isDig c -> isDig d ->
  isDig e -> isDig f -> isDig g -> isDig h ->
  isDig a' -> isDig b' -> isDig c' -> isDig d' ->
  isDig e' -> isDig f' -> isDig g' -> isDig h' ->
  String.compare (dateText a b c d e f g h) (dateText a' b' c' d' e' f' g' h')
  = ((10 * (10 * (10 * a + b) + c) + d) * 10000 + (10 * e + f) * 100
     + (10 * g + h)
     ?= (10 * (10 * (10 * a' + b') + c') + d') * 10000 + (10 * e' + f') * 100
        + (10 * g' + h')).
Proof.
  intros. unfold dateText. cbn [String.compare].
  rewrite !compare_digit by assumption.
  change (Ascii.compare "-" "-") with Eq. cbv iota.
  unfold isDig in *.
  repeat match goal with
         | |- context [?x ?= ?y] =>
             is_var x; is_var y;
             destruct (Z.compare_spec x y); [subst x| |]
         end;
  symmetry;
  first [ apply Z.compare_eq_iff; lia
        | apply Z.compare_lt_iff; lia
        | apply Z.compare_gt_iff; lia ].
Qed.

Lemma ltb_FormatDateOnly (t u : Time) :
  civil4 t = true -> civil4 u = true ->
  String.ltb (FormatDateOnly t) (FormatDateOnly u) = (dateKey t <? dateKey u).
Proof.
  intros Ht Hu.
  destruct (FormatDateOnly_digits t Ht)
    as (a & b & c & d & e & f & g & h & ? & ? & ? & ? & ? & ? & ? & ? & Ey & Em & Ed & ->).
  destruct (FormatDateOnly_digits u Hu)
    as (a' & b' & c' & d' & e' & f' & g' & h' & ? & ? & ? & ? & ? & ? & ? & ? & Ey' & Em' & Ed' & ->).
  unfold String.ltb. rewrite compare_dateText by assumption.
  unfold dateKey, Z.ltb. rewrite Ey, Em, Ed, Ey', Em', Ed'. reflexivity.
Qed.

Lemma ParseDateOnly_FormatDateOnly (t : Time) :
  civil4 t = true -> ParseDateOnly (FormatDateOnly t) = Ok (midnight t).
Proof.
  intros Ht. pose proof (civil4_bounds t Ht) as (Hy & Hm & Hd & _).
  destruct (FormatDateOnly_digits t Ht)
    as (a & b & c & d & e & f & g & h & ? & ? & ? & ? & ? & ? & ? & ? & Ey & Em & Ed & ->).
  unfold ParseDateOnly, dateText. cbn [list_ascii_of_string].
  unfold num4, num2. rewrite !digitVal_digit by assumption.
  change (Ascii.eqb "-" "-") with true. cbn [andb].
  unfold checked, midnight.
  replace (100 * (10 * a + b) + (10 * c + d)) with (tYear t) by lia.
  rewrite <- Em, <- Ed.
  replace ((1 <=? tMonth t) && (tMonth t <=? 12)) with true
    by (symmetry; rewrite andb_true_iff, !Z.leb_le; lia).
  replace ((1 <=? tDay t) && (tDay t <=? daysIn (tMonth t) (tYear t))) with true
    by (symmetry; rewrite andb_true_iff, !Z.leb_le; lia).
  reflexivity.
Qed.

Lemma civil4_laterDate (a b : Time) :
  civil4 a = true -> civil4 b = true -> civil4 (laterDate a b) = true.
Proof. unfold laterDate. destruct (dateKey a <? dateKey b); auto. Qed.

Lemma textMax_FormatDateOnly (a b : Time) :
  civil4 a = true -> civil4 b = true ->
  textMax (FormatDateOnly a) (FormatDateOnly b) = FormatDateOnly (laterDate a b).
Proof.
  intros Ha Hb. unfold textMax, laterDate.
  rewrite ltb_FormatDateOnly by assumption.
  destruct (dateKey a <? dateKey b); reflexivity.
Qed.

Lemma fold_textMax_dates (rs : list Row) (ds : list Time) (d0 : Time) :
  map issued rs = map FormatDateOnly ds ->
  civil4 d0 = true -> Forall (fun d => civil4 d = true) ds ->
  fold_left (fun m r' => textMax m (issued r')) rs (FormatDateOnly d0)
  = FormatDateOnly (latest d0 ds).
Proof.
  revert ds d0. induction rs as [|r rs IH]; intros [|d ds] d0 Hmap H0 Hds;
    simpl in Hmap; try discriminate; [reflexivity|].
  injection Hmap as Hr Hmap. inversion Hds as [|? ? Hd Hds']; subst.
  simpl. rewrite Hr, textMax_FormatDateOnly by assumption.
  unfold latest in *. simpl. apply IH; auto using civil4_laterDate.
Qed.

(** [latest] is one of the dates and no date is after it. *)
Lemma latest_In (d0 : Time) (ds : list Time) : In (latest d0 ds) (d0 :: ds).
Proof.
  unfold latest. revert d0. induction ds as [|d ds IH]; intros d0; simpl; [auto|].
  destruct (IH (laterDate d0 d)) as [H|H]; [|auto].
  rewrite <- H. unfold laterDate. destruct (dateKey d0 <? dateKey d); auto.
Qed.

Lemma laterDate_ge (a b : Time) :
  dateKey a <= dateKey (laterDate a b) /\ dateKey b <= dateKey (laterDate a b).
Proof.
  unfold laterDate. destruct (dateKey a <? dateKey b) eqn:Hlt;
    [apply Z.ltb_lt in Hlt | apply Z.ltb_ge in Hlt]; lia.
Qed.

Lemma latest_ge_first (d0 : Time) (ds : list Time) :
  dateKey d0 <= dateKey (latest d0 ds).
Proof.
  unfold latest. revert d0. induction ds as [|d ds IH]; intros d0; simpl; [lia|].
  specialize (IH (laterDate d0 d)). pose proof (laterDate_ge d0 d). lia.
Qed.

Lemma latest_upper (d0 : Time) (ds : list Time) (d : Time) :
  In d (d0 :: ds) -> dateKey d <= dateKey (latest d0 ds).
Proof.
  revert d0. induction ds as [|d1 ds IH]; intros d0 [H|H].
  - subst. apply latest_ge_first.
  - destruct H.
  - subst. apply latest_ge_first.
  - unfold latest; simpl. fold (latest (laterDate d0 d1) ds).
    destruct H as [H|H].
    + subst d1. pose proof (latest_ge_first (laterDate d0 d) ds).
      pose proof (laterDate_ge d0 d). lia.
    + apply IH. right. exact H.
Qed.

(** On civil dates the order of the keys is [Before] on the days. *)
Lemma Before_midnight (t u : Time) :
  civil4 t = true -> civil4 u = true ->
  Before (midnight t) (midnight u) = (dateKey t <? dateKey u).
Proof.
  intros Ht Hu.
  apply civil4_bounds in Ht as (_ & Hm & _ & Hd).
  apply civil4_bounds in Hu as (_ & Hm' & _ & Hd').
  unfold Before, compare, midnight, dateKey; cbn [tYear tMonth tDay tSec tNsec].
  destruct (Z.compare_spec (tYear t) (tYear u)) as [Ey|Ey|Ey];
    [rewrite Ey; destruct (Z.compare_spec (tMonth t) (tMonth u)) as [Em|Em|Em];
       [rewrite Em; destruct (Z.compare_spec (tDay t) (tDay u)) as [Ed|Ed|Ed]| |]
    | |];
    cbn; symmetry; first [apply Z.ltb_lt; lia | apply Z.ltb_ge; lia].
Qed.

(** The issued-date watermark, on a database that answers and on rows
    whose [issued] column was written from civil dates: the latest of
    the dates, at midnight.  On the empty table it is the zero time. *)
Lemma maxIssued_latest (E : Env) (C : Type) (w : World C) (d0 : Time)
  (ds : list Time) :
  dbFault E (stmts w) = None ->
  map issued (rows w) = map FormatDateOnly (d0 :: ds) ->
  Forall (fun d => civil4 d = true) (d0 :: ds) ->
  fst (maxIssued E w) = Ok (midnight (latest d0 ds)).
Proof.
  intros Hd Hmap Hciv. inversion Hciv as [|? ? H0 Hds]; subst.
  unfold maxIssued, maxOf, bind, queryMax. rewrite Hd.
  destruct (rows w) as [|r rs]; [discriminate|].
  simpl in Hmap. injection Hmap as Hr Hmap.
  cbn [sqlMax]. rewrite Hr, (fold_textMax_dates rs ds d0) by assumption.
  rewrite ParseDateOnly_FormatDateOnly; [reflexivity|].
  pose proof (latest_In d0 ds) as Hin.
  rewrite Forall_forall in Hciv. apply Hciv. exact Hin.
Qed.

Lemma maxIssued_empty (E : Env) (C : Type) (w : World C) :
  dbFault E (stmts w) = None -> rows w = [] ->
  fst (maxIssued E w) = Ok zeroTime.
Proof.
  intros Hd Hr. unfold maxIssued, maxOf, bind, queryMax. rewrite Hd, Hr.
  reflexivity.
Qed.

(** ** The driver *)

Section DriverFacts.

Variable E : Env.
Variable C : Type.
Variable List : string -> M (C * nat) (list Tender * string).

(** What a call of [add] that returns has done to the table. *)
Lemma add_ok (t : Tender) (w w' : World C) (isNew : bool) :
  add E t w = (Ok isNew, w') ->
  rows w' = (rows w ++ if isNew then [rowOf t (clock E (ticks w))] else [])%list
  /\ cli w' = cli w.
Proof.
  unfold add, execInsert, readClock, RowsAffected; simpl.
  destruct (dbFault E (stmts w)); [discriminate|].
  destruct (affectedFault E (stmts w)); [discriminate|].
  destruct (hasId (ID t) (rows w)); intros H; injection H as <- <-; simpl;
    split; try reflexivity. now rewrite app_nil_r.
Qed.

Lemma callList_rows (token : string) (w : World C) :
  rows (snd (callList List token w)) = rows w.
Proof.
  unfold callList. destruct (List token (cli w, ticks w)) as [r [c k]].
  reflexivity.
Qed.

(** The records that [addAll] reports are the rows it has appended. *)
Lemma addAll_ok (ts : list Tender) (w w' : World C) (news : list Tender) :
  addAll E ts w = (Ok news, w') ->
  cli w' = cli w /\
  exists added, rows w' = (rows w ++ added)%list /\ Forall2 written news added.
Proof.
  revert w news. induction ts as [|t ts IH]; intros w news; simpl.
  - intros H; injection H as <- <-. split; [reflexivity|].
    exists []. split; [now rewrite app_nil_r | constructor].
  - destruct (add E t w) as [[isNew|e] w1] eqn:Ha; [|discriminate].
    destruct (addAll E ts w1) as [[news'|e] w2] eqn:Hb; [|discriminate].
    intros H; injection H as <- <-.
    apply add_ok in Ha as [Hr Hc].
    destruct (IH _ _ Hb) as [Hc' (added & Hr' & Hw)].
    split; [congruence|]. rewrite Hr', Hr, <- app_assoc.
    eexists; split; [reflexivity|].
    destruct isNew; simpl; [constructor; [eexists; reflexivity | exact Hw] | exact Hw].
Qed.

Lemma addAll_app (ts ts' : list Tender) (w w1 w2 : World C)
  (news news' : list Tender) :
  addAll E ts w = (Ok news, w1) -> addAll E ts' w1 = (Ok news', w2) ->
  addAll E (ts ++ ts') w = (Ok (news ++ news')%list, w2).
Proof.
  revert w news. induction ts as [|t ts IH]; intros w news; simpl.
  - intros H; injection H as <- <-. auto.
  - destruct (add E t w) as [[isNew|e] w0]; [|discriminate].
    destruct (addAll E ts w0) as [[n0|e] w0'] eqn:Hb; [|discriminate].
    intros H H'; injection H as <- <-.
    rewrite (IH _ _ Hb H'). destruct isNew; reflexivity.
Qed.

(** [addAll] on the part of a page before the record that stops or
    fails is what [rangePage] does there. *)
Lemma rangePage_prefix (stop : Tender -> bool) (pre rest nt : list Tender)
  (w w' : World C) (news : list Tender) :
  forallb (fun t => negb (stop t)) pre = true ->
  addAll E pre w = (Ok news, w') ->
  rangePage E stop (pre ++ rest) nt w = rangePage E stop rest (nt ++ news) w'.
Proof.
  revert nt w news. induction pre as [|t pre IH]; intros nt w news; simpl.
  - intros _ H; injection H as <- <-. now rewrite app_nil_r.
  - rewrite andb_true_iff, negb_true_iff. intros [Hs Hpre].
    destruct (add E t w) as [[isNew|e] w0]; [|discriminate].
    destruct (addAll E pre w0) as [[n0|e] w0'] eqn:Hb; [|discriminate].
    intros H; injection H as <- <-. rewrite Hs.
    rewrite (IH _ _ _ Hpre Hb).
    destruct isNew; simpl; [rewrite <- app_assoc|]; reflexivity.
Qed.

(** A page that is left through its end or through [break outer] has
    stored, of its records, those it reports. *)
Lemma rangePage_inserted (stop : Tender -> bool) (ct nt nt' : list Tender)
  (w w' : World C) :
  rangePage E stop ct nt w = (NextPage nt', w')
  \/ rangePage E stop ct nt w = (BreakOuter nt', w') ->
  cli w' = cli w /\
  exists news added, nt' = (nt ++ news)%list /\
                     rows w' = (rows w ++ added)%list /\
                     Forall2 written news added.
Proof.
  revert nt w. induction ct as [|t ct IH]; intros nt w; simpl.
  - intros [H|H]; [|discriminate]. injection H as <- <-.
    split; [reflexivity|]. exists [], []. rewrite !app_nil_r.
    repeat split. constructor.
  - destruct (add E t w) as [[isNew|e] w0] eqn:Ha;
      [|intros [H|H]; discriminate].
    apply add_ok in Ha as [Hr Hc].
    assert (Hstep : exists n1 a1,
               (if isNew then (nt ++ [t])%list else nt) = (nt ++ n1)%list /\
               rows w0 = (rows w ++ a1)%list /\ Forall2 written n1 a1).
    { destruct isNew.
      - exists [t], [rowOf t (clock E (ticks w))].
        repeat split; [exact Hr|]. constructor; [eexists; reflexivity|constructor].
      - exists [], []. rewrite app_nil_r. repeat split; [exact Hr|constructor]. }
    destruct Hstep as (n1 & a1 & Hn1 & Ha1 & Hw1).
    destruct (stop t).
    + intros [H|H]; [discriminate|]. injection H as <- <-.
      split; [exact Hc|]. exists n1, a1. auto.
    + intros H. destruct (IH _ _ H) as [Hc' (n2 & a2 & Hn2 & Ha2 & Hw2)].
      split; [congruence|]. exists (n1 ++ n2)%list, (a1 ++ a2)%list.
      rewrite Hn2, Hn1, Ha2, Ha1, <- !app_assoc.
      repeat split. now apply Forall2_app.
Qed.

(** The loop does not see how it arrived: [n] pages cost [n] of fuel. *)
Lemma pageLoop_reaches (stop : Tender -> bool) (n : nat) (s s' : loopState)
  (fuel : nat) :
  reaches E List stop n s s' ->
  pageLoop E List (n + fuel) stop (fst (fst s)) (snd (fst s)) (snd s)
  = pageLoop E List fuel stop (fst (fst s')) (snd (fst s')) (snd s').
Proof.
  induction 1 as [s|n token nt w ct nextToken w1 nt' w2 s' Hl Hr Hn _ IH];
    [reflexivity|].
  cbn [fst snd] in *. change (S n + fuel)%nat with (S (n + fuel)).
  cbn [pageLoop]. rewrite Hl, Hr, Hn. exact IH.
Qed.

(** The new records so far are the rows the run has appended so far. *)
Lemma reaches_inserted (stop : Tender -> bool) (n : nat) (s s' : loopState) :
  reaches E List stop n s s' ->
  exists news added,
    snd (fst s') = (snd (fst s) ++ news)%list /\
    rows (snd s') = (rows (snd s) ++ added)%list /\
    Forall2 written news added.
Proof.
  induction 1 as [s|n token nt w ct nextToken w1 nt' w2 s' Hl Hr Hn _ IH].
  - exists [], []. rewrite !app_nil_r. repeat split. constructor.
  - cbn [fst snd] in *.
    destruct (rangePage_inserted stop ct nt nt' w1 w2 (or_introl Hr))
      as [_ (n1 & a1 & Hn1 & Ha1 & Hw1)].
    destruct IH as (n2 & a2 & Hn2 & Ha2 & Hw2).
    exists (n1 ++ n2)%list, (a1 ++ a2)%list.
    rewrite Hn2, Hn1, Ha2, Ha1, <- !app_assoc.
    pose proof (callList_rows token w) as Hrows. rewrite Hl in Hrows.
    cbn [snd] in Hrows. rewrite Hrows.
    repeat split. now apply Forall2_app.
Qed.

End DriverFacts.

Lemma addAll_app_inv (E : Env) (C : Type) (ts ts' : list Tender)
  (w w2 : World C) (news : list Tender) :
  addAll E (ts ++ ts') w = (Ok news, w2) ->
  exists n1 w1 n2,
    addAll E ts w = (Ok n1, w1) /\ addAll E ts' w1 = (Ok n2, w2) /\
    news = (n1 ++ n2)%list.
Proof.
  revert w news. induction ts as [|t ts IH]; intros w news; simpl.
  - intros H. exists [], w, news. auto.
  - destruct (add E t w) as [[isNew|e] w0]; [|discriminate].
    destruct (addAll E (ts ++ ts') w0) as [[n0|e] w0'] eqn:Hb; [|discriminate].
    intros H; injection H as <- <-.
    destruct (IH _ _ Hb) as (n1 & w1 & n2 & H1 & H2 & ->).
    rewrite H1. exists (if isNew then t :: n1 else n1), w1, n2.
    repeat split; [exact H2|]. destruct isNew; reflexivity.
Qed.

(** C2: the run has listed and stored [n] pages and the next page holds
    a record [trig] whose relevant date is before the cutoff, after the
    records [pre] that are not.  Then, the database answering, the run
    returns right after the [add] of [trig]: its world is the one that
    the [List] call of the page and the [add]s of [pre] and [trig] leave,
    so that the records [post] are not stored and [List] is not called
    again; and what it returns are the records that the run has
    inserted, in the order of the listing, [trig] among them if it was
    new. *)
Theorem findNew_early_exit (E : Env) (C : Type)
  (List : string -> M (C * nat) (list Tender * string))
  (relevant : Tender -> Time) (cutoff : Time)
  (n : nat) (w0 : World C) (token : string) (nt : list Tender) (w : World C)
  (pre : list Tender) (trig : Tender) (post : list Tender) (next : string)
  (w1 : World C) (news : list Tender) (w2 : World C) (fuel : nat) :
  let stop := fun t => Before (relevant t) cutoff in
  reaches E List stop n ("", [], w0) (token, nt, w) ->
  callList List token w = (Ok ((pre ++ trig :: post)%list, next), w1) ->
  forallb (fun t => negb (stop t)) pre = true ->
  Before (relevant trig) cutoff = true ->
  addAll E (pre ++ [trig]) w1 = (Ok news, w2) ->
  pageLoop E List (n + S fuel) stop "" [] w0
  = (Returned ((nt ++ news)%list, None), w2)
  /\ cli w2 = cli w1
  /\ exists added, rows w2 = (rows w0 ++ added)%list
                   /\ Forall2 written (nt ++ news)%list added.
Proof.
  intros stop Hreach Hl Hpre Htrig Hadd.
  pose proof (pageLoop_reaches E C List stop n _ _ (S fuel) Hreach) as Hrun.
  cbn [fst snd] in Hrun.
  destruct (addAll_app_inv E C _ _ _ _ _ Hadd) as (n1 & wp & n2 & H1 & H2 & ->).
  assert (Hpage : rangePage E stop (pre ++ trig :: post) nt w1
                  = (BreakOuter (nt ++ n1 ++ n2)%list, w2)).
  { rewrite (rangePage_prefix E C stop pre (trig :: post) nt w1 wp n1 Hpre H1).
    cbn [rangePage]. simpl in H2.
    destruct (add E trig wp) as [[isNew|e] wq]; [|discriminate].
    injection H2 as <- <-. unfold stop at 1. rewrite Htrig.
    destruct isNew; rewrite <- ?app_assoc, ?app_nil_r; reflexivity. }
  split; [|split].
  - rewrite Hrun. cbn [pageLoop]. rewrite Hl, Hpage. reflexivity.
  - apply (addAll_ok E C _ _ _ _ Hadd).
  - destruct (reaches_inserted E C List stop n _ _ Hreach)
      as (n0 & a0 & Hn0 & Ha0 & Hw0). cbn [fst snd] in *. subst nt.
    destruct (addAll_ok E C _ _ _ _ Hadd) as [_ (a1 & Ha1 & Hw1)].
    pose proof (callList_rows C List token w) as Hrows.
    rewrite Hl in Hrows. cbn [snd] in Hrows.
    exists (a0 ++ a1)%list. split.
    + rewrite Ha1, Hrows, Ha0, app_assoc. reflexivity.
    + cbn [app]. now apply Forall2_app.
Qed.

Lemma findNew_early_exit_witness :
  let stop := fun t => Before (IssuedDate t) (Sample.day 2023 12 10) in
  let w0 := Sample.empty [Sample.page1; Sample.page2; Sample.page3] in
  exists w1 w2,
    pageLoop Sample.env Synthetic.List (1 + 4) stop "" [] w0
    = (Returned (([Sample.T1; Sample.T2] ++ [Sample.T3])%list, None), w2)
    /\ cli w2 = cli w1 /\ cli w1 = [Sample.page3]
    /\ exists added, rows w2 = (rows w0 ++ added)%list
                     /\ Forall2 written ([Sample.T1; Sample.T2] ++ [Sample.T3])%list added.
Proof.
  intros stop w0.
  pose (wa := snd (rangePage Sample.env stop [Sample.T1; Sample.T2] []
                     (snd (callList Synthetic.List "" w0)))).
  pose (w1 := snd (callList Synthetic.List "2" wa)).
  pose (w2 := snd (addAll Sample.env [Sample.T3] w1)).
  exists w1, w2.
  assert (H : pageLoop Sample.env Synthetic.List (1 + 4) stop "" [] w0
              = (Returned (([Sample.T1; Sample.T2] ++ [Sample.T3])%list, None), w2)
              /\ cli w2 = cli w1
              /\ exists added, rows w2 = (rows w0 ++ added)%list
                   /\ Forall2 written ([Sample.T1; Sample.T2] ++ [Sample.T3])%list added).
  { apply (findNew_early_exit Sample.env _ Synthetic.List IssuedDate
             (Sample.day 2023 12 10) 1 w0 "2" [Sample.T1; Sample.T2] wa
             [] Sample.T3 [Sample.T4] "3" w1 [Sample.T3] w2 3).
    - apply (@reaches_next Sample.env _ Synthetic.List _ 0 "" [] w0
               [Sample.T1; Sample.T2] "2"
               (snd (callList Synthetic.List "" w0)) [Sample.T1; Sample.T2] wa
               ("2", [Sample.T1; Sample.T2], wa));
        [reflexivity | reflexivity | reflexivity | apply reaches_here].
    - reflexivity.
    - reflexivity.
    - reflexivity.
    - reflexivity. }
  destruct H as (H1 & H2 & H3).
  split; [exact H1 | split; [exact H2 | split; [reflexivity | exact H3]]].
Defined.

Lemma written_hasId (ts : list Tender) (added : list Row) (before after : list Row) :
  Forall2 written ts added ->
  Forall (fun t => hasId (ID t) (before ++ added ++ after) = true) ts.
Proof.
  intros H. revert before. induction H as [|t r ts added [o ->] _ IH]; intros before;
    constructor.
  - rewrite !hasId_app. cbn [app]. change (rowOf t o :: added)
      with ([rowOf t o] ++ added)%list. rewrite hasId_app, hasId_rowOf.
    rewrite orb_true_r. reflexivity.
  - specialize (IH (before ++ [rowOf t o])%list).
    rewrite <- !app_assoc in IH. exact IH.
Qed.

(** An error never comes with a list. *)
Lemma pageLoop_no_partial_output (E : Env) (C : Type)
  (List : string -> M (C * nat) (list Tender * string))
  (fuel : nat) (stop : Tender -> bool) (token : string) (nt out : list Tender)
  (w w' : World C) (e : error) :
  pageLoop E List fuel stop token nt w = (Returned (out, Some e), w') ->
  out = [].
Proof.
  revert token nt w. induction fuel as [|fuel IH]; intros token nt w; simpl;
    [discriminate|].
  destruct (callList List token w) as [[[ct next]|e0] w1].
  - destruct (rangePage E stop ct nt w1) as [[nt'|nt'|e1] w2].
    + destruct (String.eqb next ""); [discriminate | apply IH].
    + discriminate.
    + intros H; injection H as <- _ _. reflexivity.
  - intros H; injection H as <- _ _. reflexivity.
Qed.

(** C7: the run has listed and stored some pages, and the next iteration
    fails with [e], in [List] (session, transport, status, payload, a
    date that does not parse, an empty capture buffer) or in the [add] of
    a record.  Then the run returns [e] and no list; the rows of all the
    records it had inserted are in the table it leaves, so that a second
    [add] of any of them finds its id. *)
Theorem findNew_aborts (E : Env) (C : Type)
  (List : string -> M (C * nat) (list Tender * string))
  (stop : Tender -> bool) (n : nat) (w0 : World C) (s : loopState)
  (inserted : list Tender) (e : error) (w' : World C) (fuel : nat) :
  reaches E List stop n ("", [], w0) s ->
  failsAt E List stop s inserted e w' ->
  pageLoop E List (n + S fuel) stop "" [] w0 = (Returned ([], Some e), w')
  /\ (exists added extra,
        rows w' = (rows w0 ++ added ++ extra)%list
        /\ Forall2 written (snd (fst s) ++ inserted)%list added)
  /\ Forall (fun t => hasId (ID t) (rows w') = true)
            (snd (fst s) ++ inserted)%list.
Proof.
  intros Hreach Hfail.
  pose proof (pageLoop_reaches E C List stop n _ _ (S fuel) Hreach) as Hrun.
  destruct (reaches_inserted E C List stop n _ _ Hreach)
    as (n0 & a0 & Hn0 & Ha0 & Hw0).
  cbn [fst snd app] in Hrun, Hn0, Ha0.
  assert (Hmain :
    pageLoop E List (n + S fuel) stop "" [] w0 = (Returned ([], Some e), w')
    /\ exists added extra,
         rows w' = (rows w0 ++ added ++ extra)%list
         /\ Forall2 written (snd (fst s) ++ inserted)%list added).
  { destruct Hfail as [token nt w e w' Hl
                      |token nt w pre t post next w1 news w2 e w' Hl Hpre Hadd Ht];
      cbn [fst snd] in *; subst nt.
    - split.
      + rewrite Hrun. cbn [pageLoop]. rewrite Hl. reflexivity.
      + pose proof (callList_rows C List token w) as Hrows.
        rewrite Hl in Hrows. cbn [snd] in Hrows.
        exists a0, []. rewrite !app_nil_r. split; [congruence | exact Hw0].
    - split.
      + rewrite Hrun. cbn [pageLoop]. rewrite Hl.
        rewrite (rangePage_prefix E C stop pre (t :: post) n0 w1 w2 news Hpre Hadd).
        cbn [rangePage]. rewrite Ht. reflexivity.
      + pose proof (callList_rows C List token w) as Hrows.
        rewrite Hl in Hrows. cbn [snd] in Hrows.
        destruct (addAll_ok E C _ _ _ _ Hadd) as [_ (a1 & Ha1 & Hw1)].
        destruct (add_keeps_rows E C t w2) as [ex Hex]. rewrite Ht in Hex.
        cbn [snd] in Hex.
        exists (a0 ++ a1)%list, ex. split.
        * rewrite Hex, Ha1, Hrows, Ha0, <- !app_assoc. reflexivity.
        * cbn [app]. now apply Forall2_app. }
  destruct Hmain as [H1 (added & extra & Hrows & Hw)].
  split; [exact H1|]. split; [eauto|].
  rewrite Hrows. apply written_hasId. exact Hw.
Qed.

Lemma findNew_aborts_witness :
  let stop := fun t => Before (IssuedDate t) (Sample.day 2023 12 10) in
  let w0 := Sample.empty [Sample.page1] in
  exists w',
    pageLoop Sample.env Synthetic.List (1 + 1) stop "" [] w0
    = (Returned ([], Some "no more pages"), w')
    /\ (exists added extra,
          rows w' = (rows w0 ++ added ++ extra)%list
          /\ Forall2 written ([Sample.T1; Sample.T2] ++ [])%list added)
    /\ Forall (fun t => hasId (ID t) (rows w') = true)
              ([Sample.T1; Sample.T2] ++ [])%list.
Proof.
  intros stop w0.
  pose (wa := snd (rangePage Sample.env stop [Sample.T1; Sample.T2] []
                     (snd (callList Synthetic.List "" w0)))).
  exists (snd (callList Synthetic.List "2" wa)).
  apply (findNew_aborts Sample.env _ Synthetic.List stop 1 w0
           ("2", [Sample.T1; Sample.T2], wa) [] "no more pages" _ 0).
  - apply (@reaches_next Sample.env _ Synthetic.List _ 0 "" [] w0
             [Sample.T1; Sample.T2] "2"
             (snd (callList Synthetic.List "" w0)) [Sample.T1; Sample.T2] wa
             ("2", [Sample.T1; Sample.T2], wa));
      [reflexivity | reflexivity | reflexivity | apply reaches_here].
  - apply fails_in_List. reflexivity.
Defined.

(** ** The cutoff *)

Lemma IsZero_true (t : Time) : IsZero t = true -> t = zeroTime.
Proof.
  unfold IsZero, GoTime.eqb. rewrite !andb_true_iff, !Z.eqb_eq.
  destruct t; simpl. intros [[[[-> ->] ->] ->] ->]. reflexivity.
Qed.

(** No time of year 1 or later is before the zero time. *)
Lemma not_Before_zeroTime (t : Time) :
  wf t = true -> 1 <= tYear t -> Before t zeroTime = false.
Proof.
  intros Hwf Hy. unfold wf in Hwf.
  rewrite !andb_true_iff, !Z.leb_le, !Z.ltb_lt in Hwf.
  unfold Before, compare, zeroTime; cbn [tYear tMonth tDay tSec tNsec].
  repeat match goal with
         | |- context [?x ?= ?y] =>
             destruct (Z.compare_spec x y); try reflexivity; try lia
         end.
Qed.

Section LoopExt.

Variable E : Env.
Variable C : Type.
Variable List : string -> M (C * nat) (list Tender * string).
Variable P : Tender -> Prop.
Variables stop stop' : Tender -> bool.
Hypothesis HP : listsOnly P List.
Hypothesis Hstop : forall t, P t -> stop t = stop' t.

Lemma rangePage_ext (ct nt : list Tender) (w : World C) :
  Forall P ct -> rangePage E stop ct nt w = rangePage E stop' ct nt w.
Proof.
  intros H. revert nt w. induction H as [|t ct Ht _ IH]; intros nt w; simpl;
    [reflexivity|].
  destruct (add E t w) as [[isNew|e] w']; [|reflexivity].
  rewrite (Hstop t Ht), IH. reflexivity.
Qed.

(** Two tests that agree on the records of the source stop alike. *)
Lemma pageLoop_ext (fuel : nat) (token : string) (nt : list Tender)
  (w : World C) :
  pageLoop E List fuel stop token nt w = pageLoop E List fuel stop' token nt w.
Proof.
  revert token nt w. induction fuel as [|fuel IH]; intros token nt w; simpl;
    [reflexivity|].
  destruct (callList List token w) as [[[ct next]|e] w1] eqn:Hl; [|reflexivity].
  assert (Hct : Forall P ct).
  { unfold callList in Hl.
    destruct (List token (cli w, ticks w)) as [r [c k]] eqn:HL.
    injection Hl as -> _. exact (HP _ _ _ _ _ HL). }
  rewrite (rangePage_ext ct nt w1 Hct).
  destruct (rangePage E stop' ct nt w1) as [[nt'|nt'|e] w2]; try reflexivity.
  destruct (String.eqb next ""); [reflexivity | apply IH].
Qed.

End LoopExt.

(** C4, as stated, fails on a first run whose source lists a record
    issued before January 1 of year 1: the store is empty, the record is
    before the zero time that stands for "no watermark", and the run
    stops on it without asking for the second page. *)
Lemma findNew_empty_store_exits_early :
  let w0 := Sample.empty [([Sample.T0], "2"); ([Sample.T1], "")] in
  let r := findNew Sample.env Synthetic.List 5 w0 in
  rows w0 = [] /\ fst r = Returned ([Sample.T0], None)
  /\ cli (snd r) = [([Sample.T1], "")].
Proof. vm_compute. repeat split. Qed.

(** C4 (amended): the programs of the issued-date policy, on a database
    that answers.  The run is the loop with the test [IssuedDate] before
    the cutoff, and the cutoff is the watermark less one month unless the
    watermark is the zero time, when it is the zero time itself.  The
    watermark is the latest issued date of the rows, and the zero time
    on an empty store.  No record issued in year 1 or later is before
    the zero time, so that on a source of such records the run with the
    zero cutoff is the run without any test. *)
Theorem findNew_issued_cutoff (E : Env) (C : Type)
  (List : string -> M (C * nat) (list Tender * string))
  (fuel : nat) (w : World C) :
  dbFault E (stmts w) = None ->
  let w0 := mkWorld (cli w) (rows w) (S (stmts w)) (ticks w) in
  (exists wm, maxIssued E w = (Ok wm, w0) /\
     findNew E List fuel w
     = pageLoop E List fuel
         (fun t => Before (IssuedDate t)
                          (if IsZero wm then zeroTime else AddDate wm 0 (-1) 0))
         "" [] w0)
  /\ (rows w = [] -> fst (maxIssued E w) = Ok zeroTime)
  /\ (forall d0 ds,
        map issued (rows w) = map FormatDateOnly (d0 :: ds) ->
        Forall (fun d => civil4 d = true) (d0 :: ds) ->
        fst (maxIssued E w) = Ok (midnight (latest d0 ds)))
  /\ (listsOnly (fun t => wf (IssuedDate t) = true /\ 1 <= tYear (IssuedDate t))
                List ->
      pageLoop E List fuel (fun t => Before (IssuedDate t) zeroTime) "" [] w0
      = pageLoop E List fuel (fun _ => false) "" [] w0).
Proof.
  intros Hd w0. split; [|split; [|split]].
  - assert (Hq : exists wm, maxIssued E w = (Ok wm, w0)).
    { unfold maxIssued, maxOf, bind, queryMax. rewrite Hd. fold w0.
      destruct (sqlMax issued (rows w)) as [s|]; [|eexists; reflexivity].
      destruct (ParseDateOnly s); eexists; reflexivity. }
    destruct Hq as [wm Hq]. exists wm. split; [exact Hq|].
    unfold findNew. rewrite Hq.
    destruct (IsZero wm) eqn:Hz; cbn [negb]; [|reflexivity].
    apply IsZero_true in Hz. subst wm. reflexivity.
  - intros Hr. apply maxIssued_empty; assumption.
  - intros d0 ds Hmap Hciv. apply maxIssued_latest; assumption.
  - intros HL.
    apply (pageLoop_ext E C List _ _ _ HL).
    intros t [Hwf Hy]. apply not_Before_zeroTime; assumption.
Qed.

Lemma findNew_issued_cutoff_witness :
  let w := mkWorld [Sample.page1]
                   [rowOf Sample.T2 (clock Sample.env 0);
                    rowOf Sample.T1 (clock Sample.env 1);
                    rowOf Sample.T3 (clock Sample.env 2)] 3 3 in
  fst (maxIssued Sample.env w) = Ok (Sample.day 2024 1 10).
Proof.
  intros w.
  destruct (findNew_issued_cutoff Sample.env _ Synthetic.List 5 w eq_refl)
    as (_ & _ & H & _).
  apply (H (IssuedDate Sample.T2) [IssuedDate Sample.T1; IssuedDate Sample.T3]).
  - reflexivity.
  - repeat constructor.
Defined.

(** C5, as stated, fails on a first run: with an empty store the cutoff
    is four months before now, not now.  A record that closed a month
    ago is before now and yet does not stop the run, which goes on to
    the second page. *)
Lemma findNewObserved_first_run_cutoff :
  let w0 := Sample.empty [([Sample.T6], "2"); ([Sample.T1], "")] in
  let r := findNewObserved Sample.env Synthetic.List 5 w0 in
  rows w0 = []
  /\ Before (CloseDate Sample.T6) (clock Sample.env 0) = true
  /\ fst r = Returned ([Sample.T6; Sample.T1], None)
  /\ cli (snd r) = [].
Proof. vm_compute. repeat split. Qed.

(** C5 (amended): the browser program, on a database that answers.  The
    run is the loop with the test [CloseDate] before the cutoff; the
    cutoff is four months before the watermark that [maxObserved]
    returns, and four months before [time.Now()] when that watermark is
    the zero time, as it is on an empty store. *)
Theorem findNewObserved_cutoff (E : Env) (C : Type)
  (List : string -> M (C * nat) (list Tender * string))
  (fuel : nat) (w : World C) :
  dbFault E (stmts w) = None ->
  let w0 := mkWorld (cli w) (rows w) (S (stmts w)) (ticks w) in
  exists wm,
    maxObserved E w = (Ok wm, w0)
    /\ findNewObserved E List fuel w
       = (if IsZero wm then
            pageLoop E List fuel
              (fun t => Before (CloseDate t)
                               (AddDate (clock E (ticks w)) 0 (-4) 0))
              "" [] (mkWorld (cli w) (rows w) (S (stmts w)) (S (ticks w)))
          else
            pageLoop E List fuel
              (fun t => Before (CloseDate t) (AddDate wm 0 (-4) 0)) "" [] w0)
    /\ (rows w = [] -> wm = zeroTime).
Proof.
  intros Hd w0.
  assert (Hq : exists wm, maxObserved E w = (Ok wm, w0)
                          /\ (rows w = [] -> wm = zeroTime)).
  { unfold maxObserved, maxOf, bind, queryMax. rewrite Hd. fold w0.
    destruct (rows w) as [|r rs] eqn:Hr.
    - exists zeroTime. split; reflexivity.
    - destruct (sqlMax first_observed (r :: rs)) as [s|];
        [|eexists; split; [reflexivity | discriminate]].
      destruct (ParseDateOnly s); eexists; (split; [reflexivity | discriminate]). }
  destruct Hq as (wm & Hq & He). exists wm. split; [exact Hq|]. split; [|exact He].
  unfold findNewObserved. rewrite Hq.
  destruct (IsZero wm); reflexivity.
Qed.

Lemma findNewObserved_cutoff_witness :
  let w := Sample.empty [([Sample.T6], "2"); ([Sample.T1], "")] in
  exists wm,
    maxObserved Sample.env w = (Ok wm, mkWorld (cli w) (rows w) 1 0)
    /\ findNewObserved Sample.env Synthetic.List 5 w
       = (if IsZero wm then
            pageLoop Sample.env Synthetic.List 5
              (fun t => Before (CloseDate t)
                               (AddDate (clock Sample.env 0) 0 (-4) 0))
              "" [] (mkWorld (cli w) (rows w) 1 1)
          else
            pageLoop Sample.env Synthetic.List 5
              (fun t => Before (CloseDate t) (AddDate wm 0 (-4) 0)) "" []
              (mkWorld (cli w) (rows w) 1 0))
    /\ (rows w = [] -> wm = zeroTime).
Proof.
  intros w.
  exact (findNewObserved_cutoff Sample.env _ Synthetic.List 5 w eq_refl).
Defined.

(** ** The capture buffer *)


(** The hook appends, and [List] takes the head. *)
Lemma hook_enqueues (q : list Browser.RawTenders) (r : Browser.response) :
  Browser.hook q r = q
  \/ exists rt, Browser.respBody r = Decoded rt
                /\ Browser.hook q r = Browser.enqueue q rt.
Proof.
  unfold Browser.hook.
  destruct (negb (Contains (Browser.respURL r) "/Module/Tenders/en/Tender/Search/"));
    [now left|].
  destruct (Browser.respBody r); eauto.
Qed.

(** ** The browser client: the placeholder year *)




(** ** The cursor *)

Lemma udigits_nonempty (fuel : nat) (n : Z) (acc : string) :
  acc <> "" -> udigits fuel n acc <> "".
Proof.
  revert n acc. induction fuel as [|fuel IH]; intros n acc H; simpl; [exact H|].
  destruct (n <? 10); [discriminate | apply IH; discriminate].
Qed.

Lemma Itoa_nonempty (z : Z) : Itoa z <> "".
Proof.
  unfold Itoa. destruct (z <? 0); [discriminate|].
  unfold decimal. cbn [udigits].
  destruct (z <? 10); [discriminate | apply udigits_nonempty; discriminate].
Qed.

Lemma Itoa_eqb (z : Z) : String.eqb (Itoa z) "" = false.
Proof. apply String.eqb_neq, Itoa_nonempty. Qed.

Section TokenFacts.

Variable net : nat -> Token.request -> reply Token.json.
Variable parseURL : string -> result string.

(** The loop over the entries gives a record for every entry. *)
Lemma Token_tendersOf_length (tds : list Token.tenderData) (acc ts : list Tender)
  (s s' : Token.State) :
  Token.tendersOf net parseURL tds acc s = (Ok ts, s') ->
  List.length ts = (List.length acc + List.length tds)%nat.
Proof.
  revert acc s. induction tds as [|td tds IH]; intros acc s; simpl.
  - unfold ret. intros H; injection H as <- _. lia.
  - unfold bind at 1.
    destruct (Token.tenderOf net parseURL td s) as [[t|e] s1]; [|discriminate].
    intros H. apply IH in H. rewrite H, length_app. simpl. lia.
Qed.

(** What a call of [List] that returns has fetched: the page of the
    token, and the cursor as the code computes it. *)
Lemma Token_List_ok (tok : string) (s s' : Token.State) (ts : list Tender)
  (next : string) :
  Token.List net parseURL tok s = (Ok (ts, next), s') ->
  exists page n bearer respBody,
    (if String.eqb tok "" then page = 1 else Atoi tok = Ok page)
    /\ net n (Token.Tenders page bearer) = Reply 200 (Decoded respBody)
    /\ List.length ts = List.length (Token.TenderDataList respBody)
    /\ next = if (0 <? List.length ts)%nat then Itoa (incr page) else "".
Proof.
  unfold Token.List. unfold bind at 1.
  destruct (Token.init net s) as [[[]|e] s1]; [|discriminate].
  unfold bind at 1.
  assert (Hpage : forall k : Z -> M Token.State (list Tender * string),
    bind (if String.eqb tok "" then ret 1
          else match Atoi tok with Err e => fail e | Ok p => ret p end) k s1
    = (Ok (ts, next), s') ->
    exists page, (if String.eqb tok "" then page = 1 else Atoi tok = Ok page)
                 /\ k page s1 = (Ok (ts, next), s')).
  { intros k. unfold bind. destruct (String.eqb tok "").
    - intros H. exists 1. auto.
    - destruct (Atoi tok) as [p|e]; [|discriminate]. intros H. exists p. auto. }
  intros H. apply Hpage in H as (page & Hp & H). clear Hpage.
  unfold bind at 1 in H. unfold get at 1 in H.
  unfold bind at 1 in H. unfold Token.roundTrip at 1 in H.
  destruct (net (List.length (Token.sent s1))
                (Token.Tenders page (Token.token (Token.self s1))))
    as [e|status b] eqn:Hnet; [discriminate|].
  destruct (status =? 200) eqn:Hs; [apply Z.eqb_eq in Hs; subst status|discriminate].
  destruct b as [e|e|respBody]; try discriminate.
  unfold bind at 1 in H.
  destruct (Token.tendersOf net parseURL (Token.TenderDataList respBody) [] _)
    as [[ts'|e] s2] eqn:Hts; [|discriminate].
  apply Token_tendersOf_length in Hts. simpl in Hts.
  exists page, (List.length (Token.sent s1)), (Token.token (Token.self s1)), respBody.
  split; [exact Hp|]. split; [exact Hnet|].
  destruct (0 <? List.length ts')%nat eqn:Hlen; unfold ret in H;
    injection H as <- <- _; rewrite Hlen; split; [exact Hts | reflexivity | exact Hts | reflexivity].
Qed.

(** The cursor of the token client is empty exactly on a page without
    records. *)
Lemma Token_List_cursor (tok : string) (s s' : Token.State) (ts : list Tender)
  (next : string) :
  Token.List net parseURL tok s = (Ok (ts, next), s') -> (next = "" <-> ts = []).
Proof.
  intros H. apply Token_List_ok in H as (page & n & b & body & _ & _ & _ & ->).
  destruct ts as [|t ts]; simpl.
  - split; reflexivity.
  - split; [intros H; now apply Itoa_nonempty in H | discriminate].
Qed.

End TokenFacts.

(** C6, as stated, fails on the token client: the portal holds one
    record, page 1 is its last page, and [List] returns the cursor "2". *)
Lemma Token_cursor_on_last_page :
  let r := Token.List (pagedPortal [Sample.td1]) (fun s => Ok s) "" Sample.fresh in
  furtherPages 1 25 1 = false
  /\ exists t s', r = (Ok ([t], "2"), s') /\ ID t = "T1".
Proof.
  split; [reflexivity|]. eexists; eexists. split; [vm_compute; reflexivity | reflexivity].
Qed.

Lemma bind_ok {S A B : Type} (m : M S A) (k : A -> M S B) (s s' : S) (b : B) :
  bind m k s = (Ok b, s') ->
  exists a s1, m s = (Ok a, s1) /\ k a s1 = (Ok b, s').
Proof.
  unfold bind. destruct (m s) as [[a|e] s1]; [|discriminate]. eauto.
Qed.

Lemma pageOf_nil {A : Type} (recs : list A) (size page : Z) :
  0 < size -> 1 <= page -> pageOf recs size page = [] ->
  furtherPages (Z.of_nat (List.length recs)) size page = false.
Proof.
  intros Hs Hp H. unfold pageOf in H. unfold furtherPages. apply Z.ltb_ge.
  assert (Hlen : List.length (firstn (Z.to_nat size)
                   (skipn (Z.to_nat (size * (page - 1))) recs)) = 0%nat)
    by now rewrite H.
  rewrite length_firstn, length_skipn in Hlen. nia.
Qed.

Lemma pageOf_short {A : Type} (recs : list A) (size page : Z) :
  0 < size -> 1 <= page ->
  Z.of_nat (List.length (pageOf recs size page)) < size ->
  furtherPages (Z.of_nat (List.length recs)) size page = false.
Proof.
  intros Hs Hp H. unfold pageOf in H. unfold furtherPages. apply Z.ltb_ge.
  rewrite length_firstn, length_skipn in H. nia.
Qed.

Section FormFacts.

Variable net : nat -> Form.request -> reply Form.Doc.
Variable resolve : Url -> string -> result string.

(** The cursor of the form client is empty exactly on a page of fewer
    than a hundred records. *)
Lemma Form_List_cursor (tok : string) (s s' : Form.State) (ts : list Tender)
  (next : string) :
  Form.List net resolve tok s = (Ok (ts, next), s') ->
  (next = "" <-> Z.of_nat (List.length ts) < Form.pageSize).
Proof.
  unfold Form.List. intros H.
  apply bind_ok in H as (s0 & s1 & _ & H).
  apply bind_ok in H as ([] & s2 & _ & H).
  apply bind_ok in H as (page & s3 & _ & H).
  apply bind_ok in H as (s4 & s5 & _ & H).
  apply bind_ok in H as ([] & s6 & _ & H).
  apply bind_ok in H as (doc & s7 & _ & H).
  apply bind_ok in H as ([] & s8 & _ & H).
  destruct (fold_left (Form.each resolve (Form.u (Form.self s4))) (Form.grid doc)
                      (None, [])) as [[e|] ts']; [discriminate|].
  destruct (Z.of_nat (List.length ts') >=? Form.pageSize) eqn:Hlen;
    unfold ret in H; injection H as <- <- _.
  - split; [intros H; now apply Itoa_nonempty in H|]. lia.
  - split; [lia | reflexivity].
Qed.

End FormFacts.

Section BrowserFacts.

Variable E : Env.
Variable browser : nat -> Browser.action -> Browser.outcome.
Variable resolveRef : Url -> string -> string.

(** The cursor of the browser client is empty exactly when the page
    answers that its control "next page" is not enabled. *)
Lemma Browser_List_cursor (tok : string) (sk sk' : Browser.State * nat)
  (ts : list Tender) (next : string) :
  Browser.List E browser resolveRef tok sk = (Ok (ts, next), sk') ->
  exists before,
    Browser.done (fst sk') = (before ++ [Browser.IsEnabledNext])%list
    /\ (next = "" <->
        Browser.enabled (browser (List.length before) Browser.IsEnabledNext)
        = false).
Proof.
  unfold Browser.List. intros H.
  apply bind_ok in H as ([] & s1 & _ & H).
  apply bind_ok in H as (b1 & s2 & _ & H).
  apply bind_ok in H as (b2 & s3 & _ & H).
  apply bind_ok in H as (s4 & s5 & _ & H).
  destruct (Browser.dequeue (Browser.responses (Browser.self (fst s4))))
    as [[r q']|]; [|discriminate].
  apply bind_ok in H as ([] & s6 & _ & H).
  apply bind_ok in H as (tenders & s7 & _ & H).
  apply bind_ok in H as (ok & s8 & Hp & H).
  unfold ret in H. injection H as <- <- <-.
  unfold Browser.perform in Hp.
  destruct (Browser.failure (browser (List.length (Browser.done (fst s7)))
                                     Browser.IsEnabledNext)); [discriminate|].
  injection Hp as <- <-. cbn [fst Browser.done].
  exists (Browser.done (fst s7)). split; [reflexivity|].
  destruct (Browser.enabled _); split; try reflexivity; discriminate.
Qed.

End BrowserFacts.

Lemma Token_empty_cursor_last_page (recs : list Token.tenderData)
  (parseURL : string -> result string) (tok : string) (s s' : Token.State)
  (ts : list Tender) (page : Z) :
  Token.List (pagedPortal recs) parseURL tok s = (Ok (ts, ""), s') ->
  (if String.eqb tok "" then page = 1 else Atoi tok = Ok page) ->
  1 <= page ->
  furtherPages (Z.of_nat (List.length recs)) 25 page = false.
Proof.
  intros H Hp Hpos.
  apply Token_List_ok in H as (page' & n & b & body & Hp' & Hnet & Hlen & Hnext).
  assert (page' = page) as ->.
  { destruct (String.eqb tok ""); congruence. }
  simpl in Hnet. injection Hnet as <-. cbn [Token.TenderDataList] in Hlen.
  destruct (0 <? List.length ts)%nat eqn:H0.
  - symmetry in Hnext. now apply Itoa_nonempty in Hnext.
  - apply Nat.ltb_ge in H0. apply pageOf_nil; try lia.
    apply length_zero_iff_nil. lia.
Qed.

(** C6 (amended): what the cursor of a successful [List] tells.  The
    token client returns the empty cursor exactly when the page holds no
    record, the form client exactly when it holds fewer than a hundred,
    the browser client exactly when the control "next page" is not
    enabled.  On a source that serves pages of the size asked for, an
    empty cursor of the token client, and a page shorter than the size,
    mean that no further page remains; the last page itself can come
    with a cursor. *)
Theorem cursor_signal :
  (forall net parseURL tok s s' ts next,
      Token.List net parseURL tok s = (Ok (ts, next), s') ->
      (next = "" <-> ts = []))
  /\ (forall net resolve tok s s' ts next,
         Form.List net resolve tok s = (Ok (ts, next), s') ->
         (next = "" <-> Z.of_nat (List.length ts) < 100))
  /\ (forall E browser resolveRef tok sk sk' ts next,
         Browser.List E browser resolveRef tok sk = (Ok (ts, next), sk') ->
         exists before,
           Browser.done (fst sk') = (before ++ [Browser.IsEnabledNext])%list
           /\ (next = "" <->
               Browser.enabled
                 (browser (List.length before) Browser.IsEnabledNext) = false))
  /\ (forall recs parseURL tok s s' ts page,
         Token.List (pagedPortal recs) parseURL tok s = (Ok (ts, ""), s') ->
         (if String.eqb tok "" then page = 1 else Atoi tok = Ok page) ->
         1 <= page ->
         furtherPages (Z.of_nat (List.length recs)) 25 page = false)
  /\ (forall (A : Type) (recs : list A) size page,
         0 < size -> 1 <= page ->
         Z.of_nat (List.length (pageOf recs size page)) < size ->
         furtherPages (Z.of_nat (List.length recs)) size page = false).
Proof.
  repeat split.
  - eapply Token_List_cursor; eassumption.
  - intros ->. eapply Token_List_cursor; [eassumption | reflexivity].
  - eapply (proj1 (Form_List_cursor _ _ _ _ _ _ _ H)).
  - eapply (proj2 (Form_List_cursor _ _ _ _ _ _ _ H)).
  - intros. eapply Browser_List_cursor; eassumption.
  - intros. eapply Token_empty_cursor_last_page; eassumption.
  - intros. apply pageOf_short; assumption.
Qed.

(** ** Sessions *)

Section QuietFacts.

Variables (S R : Type).
Variable ready : S -> bool.
Variable log : S -> list R.
Variable p : R -> bool.

Lemma extends_refl (s : S) : ready s = true -> extends ready log p s s.
Proof. intros H. split; [exact H|]. exists []. now rewrite app_nil_r. Qed.

Lemma extends_trans (s1 s2 s3 : S) :
  extends ready log p s1 s2 -> extends ready log p s2 s3 ->
  extends ready log p s1 s3.
Proof.
  intros [_ (n1 & H1 & P1)] [R3 (n2 & H2 & P2)]. split; [exact R3|].
  exists (n1 ++ n2)%list. rewrite H2, H1, <- app_assoc, forallb_app, P1, P2.
  auto.
Qed.

Lemma quiet_ret {A : Type} (a : A) : quiet ready log p (ret a).
Proof. intros s H. now apply extends_refl. Qed.

Lemma quiet_fail {A : Type} (e : error) : quiet ready log p (@fail S A e).
Proof. intros s H. now apply extends_refl. Qed.

Lemma quiet_get : quiet ready log p get.
Proof. intros s H. now apply extends_refl. Qed.

Lemma quiet_bind {A B : Type} (m : M S A) (k : A -> M S B) :
  quiet ready log p m -> (forall a, quiet ready log p (k a)) ->
  quiet ready log p (bind m k).
Proof.
  intros Hm Hk s H. unfold bind. specialize (Hm s H).
  destruct (m s) as [[a|e] s1]; cbn [snd] in *; [|exact Hm].
  eapply extends_trans; [exact Hm|]. apply Hk. apply Hm.
Qed.

(** A step that keeps the client ready and logs one request. *)
Lemma quiet_step {A : Type} (m : M S A) (r : R) :
  p r = false ->
  (forall s, ready (snd (m s)) = ready s
             /\ log (snd (m s)) = (log s ++ [r])%list) ->
  quiet ready log p m.
Proof.
  intros Hp Hm s H. destruct (Hm s) as [Hr Hl]. split; [congruence|].
  exists [r]. split; [exact Hl|]. simpl. now rewrite Hp.
Qed.

(** A step that changes neither the flag nor the log. *)
Lemma quiet_silent {A : Type} (m : M S A) :
  (forall s, ready (snd (m s)) = ready s /\ log (snd (m s)) = log s) ->
  quiet ready log p m.
Proof.
  intros Hm s H. destruct (Hm s) as [Hr Hl]. split; [congruence|].
  exists []. rewrite app_nil_r. auto.
Qed.

(** Calls that are quiet stay quiet in sequence. *)
Lemma quiet_afterCalls {A : Type} (List : string -> M S A) :
  (forall tok, quiet ready log p (List tok)) ->
  forall toks s, ready s = true -> extends ready log p s (afterCalls List toks s).
Proof.
  intros HL toks. induction toks as [|tok toks IH]; intros s H; simpl.
  - now apply extends_refl.
  - pose proof (HL tok s H) as H1.
    eapply extends_trans; [exact H1|]. apply IH. apply H1.
Qed.

End QuietFacts.

Section TokenSession.

Variable net : nat -> Token.request -> reply Token.json.
Variable parseURL : string -> result string.

Let ready (s : Token.State) : bool := Token.ready (Token.self s).

Lemma Token_roundTrip_step (req : Token.request) (s : Token.State) :
  ready (snd (Token.roundTrip net req s)) = ready s
  /\ Token.sent (snd (Token.roundTrip net req s)) = (Token.sent s ++ [req])%list.
Proof.
  unfold Token.roundTrip.
  destruct (net (List.length (Token.sent s)) req) as [e|status b]; [auto|].
  destruct (status =? 200); [|auto]. destruct b; auto.
Qed.

Lemma Token_roundTrip_quiet (req : Token.request) :
  TokenEstablishing req = false ->
  quiet ready Token.sent TokenEstablishing (Token.roundTrip net req).
Proof.
  intros H. apply quiet_step with req; [exact H|].
  apply Token_roundTrip_step.
Qed.

Lemma Token_init_quiet : quiet ready Token.sent TokenEstablishing (Token.init net).
Proof.
  intros s H. unfold Token.init, bind, get. unfold ready in H. rewrite H.
  now apply extends_refl.
Qed.

Lemma Token_closing_quiet (tenderId : string) :
  quiet ready Token.sent TokenEstablishing
        (Token.tenderClosingLocationURL net parseURL tenderId).
Proof.
  unfold Token.tenderClosingLocationURL.
  apply quiet_bind; [apply Token_init_quiet | intros _].
  apply quiet_bind; [apply quiet_get | intros s].
  apply quiet_bind; [now apply Token_roundTrip_quiet | intros b].
  destruct b as [e|e|respBody]; try apply quiet_fail.
  destruct (Token.TenderDataList respBody) as [|td [|td' l]]; try apply quiet_ret.
  destruct (String.eqb (Token.ClosingLocation td) ""); [apply quiet_ret|].
  destruct (parseURL (Token.ClosingLocation td)); apply quiet_ret.
Qed.

Lemma Token_tenderOf_quiet (td : Token.tenderData) :
  quiet ready Token.sent TokenEstablishing (Token.tenderOf net parseURL td).
Proof.
  unfold Token.tenderOf.
  destruct (ParseDateOnly (Token.PostDate td)); [|apply quiet_fail].
  destruct (String.length (Token.ClosingDate td) <? 10)%nat; [apply quiet_fail|].
  destruct (ParseDateOnly _); [|apply quiet_fail].
  apply quiet_bind; [apply Token_closing_quiet | intros cURL].
  apply quiet_bind; [apply quiet_get | intros s]. apply quiet_ret.
Qed.

Lemma Token_tendersOf_quiet (tds : list Token.tenderData) (acc : list Tender) :
  quiet ready Token.sent TokenEstablishing (Token.tendersOf net parseURL tds acc).
Proof.
  revert acc. induction tds as [|td tds IH]; intros acc; simpl.
  - apply quiet_ret.
  - apply quiet_bind; [apply Token_tenderOf_quiet | intros t; apply IH].
Qed.

(** What follows [init] in [List]. *)
Lemma Token_List_quiet (tok : string) :
  quiet ready Token.sent TokenEstablishing (Token.List net parseURL tok).
Proof.
  unfold Token.List.
  apply quiet_bind; [apply Token_init_quiet | intros _].
  apply quiet_bind.
  { destruct (String.eqb tok ""); [apply quiet_ret|].
    destruct (Atoi tok); [apply quiet_ret | apply quiet_fail]. }
  intros page. apply quiet_bind; [apply quiet_get | intros s].
  apply quiet_bind; [now apply Token_roundTrip_quiet | intros b].
  destruct b as [e|e|respBody]; try apply quiet_fail.
  apply quiet_bind; [apply Token_tendersOf_quiet | intros ts].
  destruct (0 <? List.length ts)%nat; apply quiet_ret.
Qed.

(** [init] on a client that is not ready: one request, and the client
    is ready exactly when it succeeds. *)
Lemma Token_init_cases (s : Token.State) :
  ready s = false ->
  Token.sent (snd (Token.init net s)) = (Token.sent s ++ [Token.Authenticate])%list
  /\ ((exists e, fst (Token.init net s) = Err e)
      /\ ready (snd (Token.init net s)) = false
      \/ fst (Token.init net s) = Ok tt
         /\ ready (snd (Token.init net s)) = true).
Proof.
  intros H. unfold Token.init, bind, get. unfold ready in H. rewrite H.
  unfold Token.roundTrip, ready.
  destruct (net (List.length (Token.sent s)) Token.Authenticate) as [e|status b];
    [simpl; rewrite H; eauto 6|].
  destruct (status =? 200); [|simpl; rewrite H; eauto 6].
  destruct b as [e|e|body]; try (simpl; rewrite H; eauto 6).
  destruct (String.eqb (Token.JWTToken body) "");
    simpl; [rewrite H; eauto 6 | auto].
Qed.

Lemma Token_sessionOnce :
  sessionOnce (R := Token.request) ready Token.sent
              (Token.List net parseURL) TokenEstablishing TokenPaging.
Proof.
  assert (Hcall : forall tok s, ready s = false ->
    exists rest,
      Token.sent (snd (Token.List net parseURL tok s))
      = (Token.sent s ++ Token.Authenticate :: rest)%list
      /\ (ready (snd (Token.List net parseURL tok s)) = false ->
          (exists e, fst (Token.List net parseURL tok s) = Err e) /\ rest = [])).
  { intros tok s H. destruct (Token_init_cases s H) as [Hs Hc].
    destruct (Token.init net s) as [[[]|e] s1] eqn:Hi; cbn [fst snd] in *.
    - destruct Hc as [[[e He] _]|[_ Hr]]; [discriminate|].
      assert (Hi1 : Token.init net s1 = (Ok tt, s1)).
      { unfold Token.init, bind, get. unfold ready in Hr. now rewrite Hr. }
      assert (Heq : Token.List net parseURL tok s = Token.List net parseURL tok s1).
      { unfold Token.List. unfold bind at 1. rewrite Hi.
        symmetry. unfold bind at 1. rewrite Hi1. reflexivity. }
      rewrite Heq.
      destruct (Token_List_quiet tok s1 Hr) as [Hr' (new & Hn & _)].
      exists new. split.
      + rewrite Hn, Hs, <- app_assoc. reflexivity.
      + intros Hf. congruence.
    - exists []. unfold Token.List. unfold bind at 1. rewrite Hi.
      unfold bind at 1. rewrite Hi. unfold bind at 1. rewrite Hi.
      cbn [fst snd]. split; [exact Hs|]. intros _. split; [eauto | reflexivity]. }
  split; [|split].
  - apply quiet_afterCalls. apply Token_List_quiet.
  - intros tok s H Hf. destruct (Hcall tok s H) as (rest & Hs & Hr).
    destruct (Hr Hf) as [He ->]. split; [exact He|].
    exists [Token.Authenticate]. split; [exact Hs | reflexivity].
  - intros s H. destruct (Hcall "" s H) as (rest & Hs & _).
    exists Token.Authenticate, rest. split; [exact Hs | reflexivity].
Qed.

End TokenSession.

Section FormSession.

Variable net : nat -> Form.request -> reply Form.Doc.
Variable resolve : Url -> string -> result string.

Let ready (s : Form.State) : bool := Form.ready (Form.self s).

Lemma Form_roundTrip_step (req : Form.request) (s : Form.State) :
  ready (snd (Form.roundTrip net req s)) = ready s
  /\ Form.sent (snd (Form.roundTrip net req s)) = (Form.sent s ++ [req])%list.
Proof.
  unfold Form.roundTrip.
  destruct (net (List.length (Form.sent s)) req) as [e|status b]; [auto|].
  destruct (status =? 200); [|auto]. destruct b; auto.
Qed.

Lemma Form_setVals_quiet (vals : Form.Values) :
  quiet ready Form.sent FormEstablishing (Form.setVals vals).
Proof. apply quiet_silent. intros s. split; reflexivity. Qed.

Lemma Form_post_quiet (form : Form.Values) :
  quiet ready Form.sent FormEstablishing (Form.roundTrip net (Form.PostForm form)).
Proof.
  apply quiet_step with (Form.PostForm form); [reflexivity|].
  apply Form_roundTrip_step.
Qed.

(** [List] once the client is ready: nothing but the form of the page
    is sent. *)
Lemma Form_List_quiet (tok : string) :
  quiet ready Form.sent FormEstablishing (Form.List net resolve tok).
Proof.
  intros s H. unfold Form.List. unfold bind at 1. unfold get at 1.
  unfold ready in H. rewrite H. cbn [negb]. unfold bind at 1. unfold ret at 1.
  fold (ready s) in H. revert s H.
  apply quiet_bind.
  { destruct (String.eqb tok ""); [apply quiet_ret|].
    destruct (Atoi tok); [apply quiet_ret | apply quiet_fail]. }
  intros page. apply quiet_bind; [apply quiet_get | intros s].
  apply quiet_bind; [apply Form_setVals_quiet | intros _].
  apply quiet_bind; [apply Form_post_quiet|].
  intros doc. apply quiet_bind; [apply Form_setVals_quiet | intros _].
  destruct (fold_left _ _ _) as [[e|] ts]; [apply quiet_fail|].
  destruct (_ >=? _); apply quiet_ret.
Qed.

Lemma Form_List_unready (tok : string) (s : Form.State) :
  ready s = false ->
  exists new,
    Form.sent (snd (Form.List net resolve tok s)) = (Form.sent s ++ new)%list
    /\ (tok = "" -> exists rest, new = Form.GetForm :: rest)
    /\ (ready (snd (Form.List net resolve tok s)) = false ->
        (exists e, fst (Form.List net resolve tok s) = Err e)
        /\ forallb (fun r => negb (FormPaging r)) new = true).
Proof.
  intros H. unfold ready in H.
  destruct (String.eqb tok "") eqn:Htok.
  - apply String.eqb_eq in Htok. subst tok.
    destruct (Form_roundTrip_step Form.GetForm s) as [Hr1 Hs1].
    destruct (Form.roundTrip net Form.GetForm s) as [[doc|e] s1] eqn:Hrt;
      cbn [snd] in Hr1, Hs1.
    + pose (s2 := Form.mkState
                    (Form.mkClient (Form.u (Form.self s1)) true
                                   (Form.hiddenValues doc))
                    (Form.sent s1)).
      assert (Heq : Form.List net resolve "" s = Form.List net resolve "" s2).
      { unfold Form.List. unfold bind at 1. unfold get at 1. rewrite H.
        cbn [negb String.eqb]. unfold bind at 1. unfold bind at 1.
        unfold Form.init at 1. unfold bind at 1. rewrite Hrt.
        unfold Form.setVals at 1. unfold modify at 1 2. cbn [Form.self Form.u Form.vals Form.sent].
        symmetry. unfold bind at 1. unfold get at 1. cbn [s2 Form.self Form.ready negb].
        unfold bind at 1. unfold ret at 1. reflexivity. }
      rewrite Heq.
      destruct (Form_List_quiet "" s2 eq_refl) as [Hr' (new & Hn & _)].
      exists (Form.GetForm :: new). split; [|split].
      * rewrite Hn. cbn [s2 Form.sent]. rewrite Hs1, <- app_assoc. reflexivity.
      * eauto.
      * intros Hf. unfold ready in Hf, Hr'. congruence.
    + assert (Heq : Form.List net resolve "" s = (Err e, s1)).
      { unfold Form.List. unfold bind at 1. unfold get at 1. rewrite H.
        cbn [negb String.eqb]. unfold bind at 1. unfold bind at 1.
        unfold Form.init at 1. unfold bind at 1. rewrite Hrt. reflexivity. }
      rewrite Heq. cbn [fst snd]. exists [Form.GetForm].
      split; [exact Hs1|]. split; [eauto|]. intros _. split; [eauto | reflexivity].
  - assert (Heq : Form.List net resolve tok s
                  = (Err "List must first be called with empty token", s)).
    { unfold Form.List. unfold bind at 1. unfold get at 1. rewrite H, Htok.
      reflexivity. }
    rewrite Heq. cbn [fst snd]. exists []. rewrite app_nil_r.
    split; [reflexivity|]. split.
    + intros ->. discriminate.
    + intros _. split; [eauto | reflexivity].
Qed.

Lemma Form_sessionOnce :
  sessionOnce (R := Form.request) ready Form.sent
              (Form.List net resolve) FormEstablishing FormPaging.
Proof.
  split; [|split].
  - apply quiet_afterCalls. apply Form_List_quiet.
  - intros tok s H Hf. destruct (Form_List_unready tok s H) as (new & Hs & _ & Hr).
    destruct (Hr Hf) as [He Hp]. split; [exact He|]. eauto.
  - intros s H. destruct (Form_List_unready "" s H) as (new & Hs & Hg & _).
    destruct (Hg eq_refl) as [rest ->]. exists Form.GetForm, rest.
    split; [exact Hs | reflexivity].
Qed.

End FormSession.

Section BrowserSession.

Variable E : Env.
Variable browser : nat -> Browser.action -> Browser.outcome.
Variable resolveRef : Url -> string -> string.

Let ready (sk : Browser.State * nat) : bool :=
  Browser.ready (Browser.self (fst sk)).

Let done (sk : Browser.State * nat) : list Browser.action :=
  Browser.done (fst sk).

Lemma Browser_perform_quiet (a : Browser.action) (wrap : string) :
  BrowserEstablishing a = false ->
  quiet ready done BrowserEstablishing (Browser.perform browser a wrap).
Proof.
  intros H. apply quiet_step with a; [exact H|]. intros sk.
  unfold Browser.perform.
  destruct (Browser.failure _); split; reflexivity.
Qed.

Lemma Browser_now_quiet : quiet ready done BrowserEstablishing (Browser.now E).
Proof. apply quiet_silent. intros sk. split; reflexivity. Qed.

Lemma Browser_tendersOf_quiet (base : Url) (ds : list Browser.RawTender)
  (acc : list Tender) :
  quiet ready done BrowserEstablishing (Browser.tendersOf E resolveRef base ds acc).
Proof.
  revert acc. induction ds as [|d ds IH]; intros acc; simpl.
  - apply quiet_ret.
  - apply quiet_bind; [|intros t; apply IH].
    unfold Browser.tenderOf.
    destruct (CutSpace (Browser.Title d)) as [[id rest] ok].
    destruct (negb ok); [apply quiet_fail|].
    destruct (ParseDisplay (Browser.DateAvailableDisplay d)); [|apply quiet_fail].
    destruct (ParseDisplay (Browser.DateClosingDisplay d)); [|apply quiet_fail].
    apply quiet_bind; [apply Browser_now_quiet | intros now; apply quiet_ret].
Qed.

Lemma Browser_init_ready (sk : Browser.State * nat) :
  ready sk = true -> Browser.init browser sk = (Ok tt, sk).
Proof.
  intros H. unfold Browser.init, bind, get. unfold ready in H. now rewrite H.
Qed.

Lemma Browser_List_quiet (tok : string) :
  quiet ready done BrowserEstablishing (Browser.List E browser resolveRef tok).
Proof.
  unfold Browser.List.
  apply quiet_bind.
  { intros sk H. rewrite (Browser_init_ready sk H). now apply extends_refl. }
  intros _. apply quiet_bind.
  { destruct (negb (String.eqb tok ""));
      [now apply Browser_perform_quiet | apply quiet_ret]. }
  intros _. apply quiet_bind; [now apply Browser_perform_quiet | intros _].
  apply quiet_bind; [apply quiet_get | intros sk].
  destruct (Browser.dequeue _) as [[r q']|]; [|apply quiet_fail].
  apply quiet_bind.
  { apply quiet_silent. intros s. split; reflexivity. }
  intros _. apply quiet_bind; [apply Browser_tendersOf_quiet | intros ts].
  apply quiet_bind; [now apply Browser_perform_quiet | intros ok; apply quiet_ret].
Qed.

(** [init] on a client that is not ready: it starts with [Install],
    does nothing that fetches a page, and the client is ready exactly
    when all of it succeeds. *)
Lemma Browser_init_cases (sk : Browser.State * nat) :
  ready sk = false ->
  exists rest,
    done (snd (Browser.init browser sk)) = (done sk ++ Browser.Install :: rest)%list
    /\ forallb (fun a => negb (BrowserPaging a)) (Browser.Install :: rest) = true
    /\ ((exists e, fst (Browser.init browser sk) = Err e)
        /\ ready (snd (Browser.init browser sk)) = false
        \/ fst (Browser.init browser sk) = Ok tt
           /\ ready (snd (Browser.init browser sk)) = true).
Proof.
  intros H. destruct sk as [s k]. unfold ready, done in *. cbn [fst] in H.
  remember (Browser.init browser (s, k)) as r eqn:Hr.
  unfold Browser.init in Hr. unfold bind at 1 in Hr. unfold get at 1 in Hr.
  cbn [fst] in Hr. rewrite H in Hr.
  unfold bind, Browser.perform, modify, Browser.setSelf in Hr. cbn [fst snd] in Hr.
  repeat match type of Hr with
         | context [Browser.failure ?o] =>
             destruct (Browser.failure o);
             cbn [fst snd Browser.self Browser.done Browser.hooked
                  Browser.ready Browser.u Browser.responses] in Hr
         end;
    subst r;
    cbn [fst snd Browser.self Browser.done Browser.hooked
         Browser.ready Browser.u Browser.responses];
    rewrite <- ?app_assoc; cbn [app];
    (eexists; split; [reflexivity|]; split; [reflexivity|]);
    first [ left; split; [eauto | exact H] | right; split; reflexivity ].
Qed.

Lemma Browser_List_unready (tok : string) (sk : Browser.State * nat) :
  ready sk = false ->
  exists rest,
    done (snd (Browser.List E browser resolveRef tok sk))
    = (done sk ++ Browser.Install :: rest)%list
    /\ (ready (snd (Browser.List E browser resolveRef tok sk)) = false ->
        (exists e, fst (Browser.List E browser resolveRef tok sk) = Err e)
        /\ forallb (fun a => negb (BrowserPaging a)) (Browser.Install :: rest)
           = true).
Proof.
  intros H. destruct (Browser_init_cases sk H) as (rest & Hd & Hp & Hc).
  destruct (Browser.init browser sk) as [[[]|e] sk1] eqn:Hi; cbn [fst snd] in *.
  - destruct Hc as [[[e He] _]|[_ Hr]]; [discriminate|].
    assert (Heq : Browser.List E browser resolveRef tok sk = Browser.List E browser resolveRef tok sk1).
    { unfold Browser.List. unfold bind at 1. rewrite Hi.
      symmetry. unfold bind at 1. rewrite (Browser_init_ready sk1 Hr).
      reflexivity. }
    rewrite Heq.
    destruct (Browser_List_quiet tok sk1 Hr) as [Hr' (new & Hn & _)].
    exists (rest ++ new)%list. split.
    + rewrite Hn, Hd, <- app_assoc. reflexivity.
    + intros Hf. congruence.
  - assert (Heq : Browser.List E browser resolveRef tok sk = (Err e, sk1)).
    { unfold Browser.List. unfold bind at 1. rewrite Hi. reflexivity. }
    rewrite Heq. cbn [fst snd]. exists rest. split; [exact Hd|].
    intros _. split; [eauto | exact Hp].
Qed.

Lemma Browser_sessionOnce :
  sessionOnce (R := Browser.action) ready done
              (Browser.List E browser resolveRef) BrowserEstablishing BrowserPaging.
Proof.
  split; [|split].
  - apply quiet_afterCalls. apply Browser_List_quiet.
  - intros tok s H Hf. destruct (Browser_List_unready tok s H) as (rest & Hs & Hr).
    destruct (Hr Hf) as [He Hp]. split; [exact He|]. eauto.
  - intros s H. destruct (Browser_List_unready "" s H) as (rest & Hs & _).
    exists Browser.Install, rest. split; [exact Hs | reflexivity].
Qed.

End BrowserSession.

(** C8, as stated, fails on a sequence of calls in which the first one
    cannot establish the session: the portal refuses the first
    connection, the first [List] returns the error, and the second
    [List] authenticates again. *)
Lemma establishment_repeated_after_failure :
  let List := Token.List Sample.flakyPortal (fun s => Ok s) in
  fst (List "" Sample.fresh) = Err "connection refused"
  /\ Token.sent (afterCalls List [""; ""] Sample.fresh)
     = [Token.Authenticate; Token.Authenticate; Token.Tenders 1 "jwt";
        Token.TenderById "T1" "jwt"].
Proof. vm_compute. split; reflexivity. Qed.

(** C8 (amended): for the three clients, and every sequence of calls of
    [List].  Once the session is established the client stays ready and
    no later call establishes it again; a call that finds the client not
    ready and leaves it so has returned an error without fetching a
    page; and a first call, with the empty token, starts by establishing
    the session.  So the session is established at most once with
    success, while a call after a failed attempt attempts again. *)
Theorem session_established_once :
  (forall net parseURL,
      sessionOnce (fun s => Token.ready (Token.self s)) Token.sent
                  (Token.List net parseURL) TokenEstablishing TokenPaging)
  /\ (forall net resolve,
         sessionOnce (fun s => Form.ready (Form.self s)) Form.sent
                     (Form.List net resolve) FormEstablishing FormPaging)
  /\ (forall E browser resolveRef,
         sessionOnce (fun sk => Browser.ready (Browser.self (fst sk)))
                     (fun sk => Browser.done (fst sk))
                     (Browser.List E browser resolveRef)
                     BrowserEstablishing BrowserPaging).
Proof.
  split; [|split]; intros.
  - apply Token_sessionOnce.
  - apply Form_sessionOnce.
  - apply Browser_sessionOnce.
Qed.

(** ** The failure points of the clients

    Each of them makes [List] return an error, which the loop hands to
    the caller of the run. *)

(** The session cannot be established. *)
Lemma Token_List_session_error net parseURL tok s e s' :
  Token.init net s = (Err e, s') ->
  Token.List net parseURL tok s = (Err e, s').
Proof. intros H. unfold Token.List. unfold bind at 1. now rewrite H. Qed.

(** No reply, or a status other than 200, or a body that cannot be read
    or decoded, for the page. *)
Lemma Token_List_fetch_error net parseURL s (r : reply Token.json) :
  Token.ready (Token.self s) = true ->
  net (List.length (Token.sent s)) (Token.Tenders 1 (Token.token (Token.self s)))
  = r ->
  match r with
  | Reply 200 (Decoded _) => True
  | _ => exists e, fst (Token.List net parseURL "" s) = Err e
  end.
Proof.
  intros Hr Hn.
  assert (Hl : forall e s', Token.roundTrip net
                 (Token.Tenders 1 (Token.token (Token.self s))) s = (Err e, s') ->
               fst (Token.List net parseURL "" s) = Err e).
  { intros e s' H. unfold Token.List. unfold bind at 1.
    unfold Token.init, bind at 1, get at 1. rewrite Hr. unfold ret at 1.
    cbn [String.eqb]. unfold bind at 1, ret at 1. unfold bind at 1, get at 1.
    unfold bind at 1. rewrite H. reflexivity. }
  assert (Hm : forall e s', Token.roundTrip net
                 (Token.Tenders 1 (Token.token (Token.self s))) s
                 = (Ok (Malformed e), s') ->
               fst (Token.List net parseURL "" s) = Err e).
  { intros e s' H. unfold Token.List. unfold bind at 1.
    unfold Token.init, bind at 1, get at 1. rewrite Hr. unfold ret at 1.
    cbn [String.eqb]. unfold bind at 1, ret at 1. unfold bind at 1, get at 1.
    unfold bind at 1. rewrite H. reflexivity. }
  unfold Token.roundTrip in Hl, Hm. rewrite Hn in Hl, Hm.
  destruct r as [e|status b]; [eauto|].
  destruct (status =? 200) eqn:Hs.
  - apply Z.eqb_eq in Hs. subst status.
    destruct b as [e|e|body]; [eauto | eauto | exact I].
  - assert (exists e, fst (Token.List net parseURL "" s) = Err e) as He by eauto.
    destruct status as [|p|p]; try exact He.
    do 8 (destruct p as [p|p|]; try exact He). discriminate.
Qed.

(** A date of an entry does not parse. *)
Lemma Token_tenderOf_parse_error net parseURL td s e :
  ParseDateOnly (Token.PostDate td) = Err e ->
  Token.tenderOf net parseURL td s = (Err e, s).
Proof. intros H. unfold Token.tenderOf. now rewrite H. Qed.

Lemma Token_tendersOf_error net parseURL td tds acc s e s' :
  Token.tenderOf net parseURL td s = (Err e, s') ->
  Token.tendersOf net parseURL (td :: tds) acc s = (Err e, s').
Proof. intros H. cbn [Token.tendersOf]. unfold bind. now rewrite H. Qed.

(** A row of the grid without its link, or with other than two dates,
    or with a date that does not parse, fails the page of the form
    client, whatever rows follow. *)
Lemma Form_each_sticks resolve base (rows : list Form.GridRow) e ts :
  fold_left (Form.each resolve base) rows (Some e, ts) = (Some e, ts).
Proof. induction rows as [|r rows IH]; simpl; [reflexivity | exact IH]. Qed.

(** The capture buffer is empty when the table has appeared. *)
Lemma Browser_List_no_responses E browser resolveRef (sk : Browser.State * nat) :
  Browser.ready (Browser.self (fst sk)) = true ->
  let o := browser (List.length (Browser.done (fst sk))) Browser.WaitForTable in
  Browser.failure o = None ->
  (if Browser.hooked (fst sk)
   then fold_left Browser.hook (Browser.arrived o)
                  (Browser.responses (Browser.self (fst sk)))
   else Browser.responses (Browser.self (fst sk))) = [] ->
  fst (Browser.List E browser resolveRef "" sk) = Err "no responses".
Proof.
  intros Hr o Hf Hq. unfold Browser.List. unfold bind at 1.
  rewrite (Browser_init_ready browser sk Hr). cbn [String.eqb negb].
  unfold bind at 1, ret at 1. unfold bind at 1.
  unfold Browser.perform at 1. fold o. rewrite Hf.
  unfold bind at 1, get at 1. cbn [fst Browser.self Browser.responses].
  rewrite Hq. reflexivity.
Qed.

(** The watermark cannot be read. *)
Lemma findNew_watermark_error E (C : Type)
  (List : string -> M (C * nat) (list Tender * string)) fuel (w : World C) e :
  dbFault E (stmts w) = Some e ->
  fst (findNew E List fuel w) = Returned ([], Some e)
  /\ fst (findNewObserved E List fuel w) = Returned ([], Some e)
  /\ rows (snd (findNew E List fuel w)) = rows w.
Proof.
  intros H. unfold findNew, findNewObserved, maxIssued, maxObserved, maxOf,
    bind, queryMax. rewrite H. repeat split.
Qed.

(** ** The scenarios of the specification *)

(** End to end: an empty store and one page with [T1] and [T2].  Both
    are inserted and returned, and the watermark is the issued date of
    [T1].  A second run returns nothing and adds no row. *)
Example end_to_end :
  let run1 := findNew Sample.env Synthetic.List 5
                      (Sample.empty [([Sample.T1; Sample.T2], "")]) in
  let w1 := snd run1 in
  let run2 := findNew Sample.env Synthetic.List 5
                      (mkWorld [([Sample.T1; Sample.T2], "")]
                               (rows w1) (stmts w1) (ticks w1)) in
  fst run1 = Returned ([Sample.T1; Sample.T2], None)
  /\ map id (rows w1) = ["T1"; "T2"]
  /\ fst (maxIssued Sample.env w1) = Ok (Sample.day 2024 1 10)
  /\ fst run2 = Returned ([], None)
  /\ rows (snd run2) = rows w1.
Proof. vm_compute. repeat split. Qed.

(** A client whose first page comes with the empty cursor is asked
    once: the second page of the script is still there. *)
Example cursor_termination :
  let r := findNew Sample.env Synthetic.List 5
                   (Sample.empty [([Sample.T1], ""); Sample.page2]) in
  fst r = Returned ([Sample.T1], None) /\ cli (snd r) = [Sample.page2].
Proof. vm_compute. split; reflexivity. Qed.

(** Three pages, newest first, and a cutoff between the records of the
    second and of the third: no record of the second page is before the
    cutoff, so the third page is asked for, and the run stops on its
    first record. *)
Example cutoff_between_pages :
  let w0 := Sample.empty [Sample.page1; ([Sample.T3], "3");
                          ([Sample.T4; Sample.T5], "4"); ([Sample.T0], "")] in
  let r := pageLoop Sample.env Synthetic.List 5
                    (fun t => Before (IssuedDate t) (Sample.day 2023 11 1))
                    "" [] w0 in
  fst r = Returned ([Sample.T1; Sample.T2; Sample.T3; Sample.T4], None)
  /\ cli (snd r) = [([Sample.T0], "")]
  /\ map id (rows (snd r)) = ["T1"; "T2"; "T3"; "T4"].
Proof. vm_compute. repeat split. Qed.

(** The three clients on their sample sources. *)
Example Token_List_runs :
  let r := Token.List (pagedPortal [Sample.td1]) (fun s => Ok s) "" Sample.fresh in
  (exists t, fst r = Ok ([t], "2") /\ ID t = "T1"
             /\ URL t = "https://portal.example/tenders/T1"
             /\ IssuedDate t = Sample.day 2024 1 10)
  /\ Token.sent (snd r)
     = [Token.Authenticate; Token.Tenders 1 "jwt"; Token.TenderById "T1" "jwt"].
Proof. vm_compute. split; [eexists; repeat split | reflexivity]. Qed.

Example Form_List_runs :
  let r := Form.List Sample.formNet Sample.formResolve "" Sample.formFresh in
  (exists t, fst r = Ok ([t], "") /\ ID t = "T1"
             /\ Description t = "Road works" /\ Agency t = "HRM"
             /\ IssuedDate t = Sample.day 2024 1 10
             /\ CloseDate t = Sample.day 2024 2 1)
  /\ Form.vals (Form.self (snd r)) = [("__VIEWSTATE", "v1")]
  /\ fst (Form.List Sample.formNet Sample.formResolve "2" Sample.formFresh)
     = Err "List must first be called with empty token".
Proof. vm_compute. split; [eexists; repeat split | split; reflexivity]. Qed.

(** The browser program on an empty store: the record of [raw1] is
    listed with the time of the clock for its closing date of year 9999,
    and its row holds the date of today in [close]; the buffer is empty
    for a second call. *)
Example Browser_findNew_runs :
  let r := Browser.findNew Sample.env Sample.browser Sample.resolveRef 3
                           (Sample.empty Sample.browserFresh) in
  (exists t, fst r = Returned ([t], None) /\ ID t = "24-101"
             /\ Description t = "Transit shelters"
             /\ IssuedDate t = Sample.day 2024 11 8
             /\ CloseDate t = clock Sample.env 1)
  /\ map close (rows (snd r)) = ["2024-11-08"]
  /\ map first_observed (rows (snd r)) = ["2024-11-08 10:00:02+00:00"]
  /\ fst (Browser.List Sample.env Sample.browser Sample.resolveRef "next"
                       (cli (snd r), ticks (snd r)))
     = Err "no responses".
Proof.
  vm_compute. split; [eexists; repeat split | repeat split].
Qed.

(** Two payloads, appended in the order [A], [B], under three
    interleavings with the removals of [List]: they are taken in that
    order, and a removal that finds the buffer empty takes nothing. *)
Example capture_orderings (A B : Browser.RawTenders) :
  snd (Browser.runOps [] [Browser.Produce A; Browser.Produce B;
                          Browser.Consume; Browser.Consume]) = [A; B]
  /\ snd (Browser.runOps [] [Browser.Produce A; Browser.Consume;
                             Browser.Produce B; Browser.Consume]) = [A; B]
  /\ snd (Browser.runOps [] [Browser.Consume; Browser.Produce A;
                             Browser.Produce B; Browser.Consume]) = [A].
Proof. repeat split. Qed.

(** * Further properties of the code *)

(** ** The ledger of the store *)

Lemma hasId_false_iff (k : string) (rs : list Row) :
  hasId k rs = false <-> ~ In k (map id rs).
Proof.
  unfold hasId. induction rs as [|r rs IH]; simpl.
  - split; [intros _ [] | reflexivity].
  - rewrite orb_false_iff, IH, String.eqb_neq. tauto.
Qed.

Lemma unseen_nil (rs : list Row) : unseen rs [].
Proof. split; constructor. Qed.

Lemma grownFrom_refl (rs : list Row) : grownFrom rs rs.
Proof. exists []. rewrite app_nil_r. split; [reflexivity | apply unseen_nil]. Qed.

Lemma unseen_app (rs a1 a2 : list Row) :
  unseen rs a1 -> unseen (rs ++ a1) a2 -> unseen rs (a1 ++ a2).
Proof.
  intros [N1 F1] [N2 F2]. split.
  - rewrite map_app. apply NoDup_app; [exact N1 | exact N2 |].
    intros k H1 H2. apply in_map_iff in H2 as (r & <- & Hr).
    rewrite Forall_forall in F2. specialize (F2 r Hr).
    rewrite hasId_app, orb_false_iff in F2. destruct F2 as [_ F2].
    apply hasId_false_iff in F2. contradiction.
  - apply Forall_app. split; [exact F1|].
    apply Forall_impl with (2 := F2). intros r H.
    rewrite hasId_app, orb_false_iff in H. apply H.
Qed.

Lemma grownFrom_trans (r1 r2 r3 : list Row) :
  grownFrom r1 r2 -> grownFrom r2 r3 -> grownFrom r1 r3.
Proof.
  intros (a1 & -> & U1) (a2 & -> & U2). exists (a1 ++ a2)%list.
  split; [now rewrite app_assoc | now apply unseen_app].
Qed.

Lemma grownFrom_NoDup (rs rs' : list Row) :
  grownFrom rs rs' -> NoDup (map id rs) -> NoDup (map id rs').
Proof.
  intros (added & -> & [N F]) H. rewrite map_app.
  apply NoDup_app; [exact H | exact N |].
  intros k H1 H2. apply in_map_iff in H2 as (r & <- & Hr).
  rewrite Forall_forall in F. specialize (F r Hr).
  apply hasId_false_iff in F. contradiction.
Qed.

Section LedgerFacts.

Variable E : Env.
Variable C : Type.
Variable List : string -> M (C * nat) (list Tender * string).

Lemma add_grows (t : Tender) (w : World C) :
  grownFrom (rows w) (rows (snd (add E t w))).
Proof.
  unfold add, execInsert, readClock, RowsAffected; simpl.
  destruct (dbFault E (stmts w)); simpl; [apply grownFrom_refl|].
  assert (H : grownFrom (rows w)
                (if hasId (ID t) (rows w) then rows w
                 else (rows w ++ [rowOf t (clock E (ticks w))])%list)).
  { destruct (hasId (ID t) (rows w)) eqn:Hh; [apply grownFrom_refl|].
    eexists. split; [reflexivity|]. split.
    - repeat constructor. intros [].
    - repeat constructor. exact Hh. }
  destruct (affectedFault E (stmts w)); exact H.
Qed.

Lemma rangePage_grows (stop : Tender -> bool) (ct nt : list Tender)
  (w : World C) :
  grownFrom (rows w) (rows (snd (rangePage E stop ct nt w))).
Proof.
  revert nt w. induction ct as [|t ct IH]; intros nt w; simpl;
    [apply grownFrom_refl|].
  pose proof (add_grows t w) as Ha.
  destruct (add E t w) as [[isNew|e] w1]; cbn [snd] in *; [|exact Ha].
  destruct (stop t); cbn [snd]; [exact Ha|].
  eapply grownFrom_trans; [exact Ha | apply IH].
Qed.

Lemma pageLoop_grows (fuel : nat) (stop : Tender -> bool) (token : string)
  (nt : list Tender) (w : World C) :
  grownFrom (rows w) (rows (snd (pageLoop E List fuel stop token nt w))).
Proof.
  revert token nt w. induction fuel as [|fuel IH]; intros token nt w; simpl;
    [apply grownFrom_refl|].
  pose proof (callList_rows C List token w) as Hl.
  destruct (callList List token w) as [[[ct next]|e] w1]; cbn [snd] in *;
    [|rewrite Hl; apply grownFrom_refl].
  pose proof (rangePage_grows stop ct nt w1) as Hp. rewrite Hl in Hp.
  destruct (rangePage E stop ct nt w1) as [[nt'|nt'|e] w2]; cbn [snd] in *;
    try exact Hp.
  destruct (String.eqb next ""); cbn [snd]; [exact Hp|].
  eapply grownFrom_trans; [exact Hp | apply IH].
Qed.

Lemma maxOf_rows (col : Row -> string) (w : World C) :
  rows (snd (maxOf E col w)) = rows w.
Proof.
  unfold maxOf, bind, queryMax. destruct (dbFault E (stmts w)); [reflexivity|].
  destruct (sqlMax col (rows w)) as [s|]; [|reflexivity].
  destruct (ParseDateOnly s); reflexivity.
Qed.

End LedgerFacts.

(** X1: [add] only ever appends.  Whatever the database answers, the
    table after the call is the table before it followed by at most one
    row, whose id the table did not hold: no row is changed or removed,
    and a table in which every id occurs once stays so. *)
Theorem add_append_only (E : Env) (C : Type) (t : Tender) (w : World C) :
  let rs' := rows (snd (add E t w)) in
  (rs' = rows w \/ exists observed,
                     rs' = (rows w ++ [rowOf t observed])%list
                     /\ hasId (ID t) (rows w) = false)
  /\ (NoDup (map id (rows w)) -> NoDup (map id rs')).
Proof.
  cbv zeta. split.
  - unfold add, execInsert, readClock, RowsAffected; simpl.
    destruct (dbFault E (stmts w)); simpl; [now left|].
    destruct (hasId (ID t) (rows w)) eqn:Hh;
      destruct (affectedFault E (stmts w)); simpl;
      first [ now left | right; eexists; split; reflexivity ].
  - apply grownFrom_NoDup, add_grows.
Qed.

(** X2: a run of [findNew], of either program and however it ends (a
    list, an error, or still paging when the fuel is spent), leaves the
    table it found, followed by rows with ids that were not there, each
    id once.  The ledger is append-only, and the ids stay unique. *)
Theorem findNew_append_only (E : Env) (C : Type)
  (List : string -> M (C * nat) (list Tender * string))
  (fuel : nat) (w : World C) :
  grownFrom (rows w) (rows (snd (findNew E List fuel w)))
  /\ grownFrom (rows w) (rows (snd (findNewObserved E List fuel w)))
  /\ (NoDup (map id (rows w)) ->
      NoDup (map id (rows (snd (findNew E List fuel w))))
      /\ NoDup (map id (rows (snd (findNewObserved E List fuel w))))).
Proof.
  assert (H1 : grownFrom (rows w) (rows (snd (findNew E List fuel w)))).
  { unfold findNew, maxIssued. pose proof (maxOf_rows E C issued w) as Hm.
    destruct (maxOf E issued w) as [[wm|e] w0]; cbn [snd] in *;
      [|rewrite Hm; apply grownFrom_refl].
    rewrite <- Hm. apply pageLoop_grows. }
  assert (H2 : grownFrom (rows w) (rows (snd (findNewObserved E List fuel w)))).
  { unfold findNewObserved, maxObserved.
    pose proof (maxOf_rows E C first_observed w) as Hm.
    destruct (maxOf E first_observed w) as [[wm|e] w0]; cbn [snd] in *;
      [|rewrite Hm; apply grownFrom_refl].
    rewrite <- Hm. destruct (IsZero wm); [|apply pageLoop_grows].
    unfold readClock.
    match goal with
    | |- context [pageLoop E List fuel ?s "" [] ?w1] =>
        exact (pageLoop_grows E C List fuel s "" [] w1)
    end. }
  split; [exact H1|]. split; [exact H2|].
  intros H. split; eapply grownFrom_NoDup; eassumption.
Qed.

(** ** What a run returns *)

Section OutputFacts.

Variable E : Env.
Variable C : Type.
Variable List : string -> M (C * nat) (list Tender * string).

Lemma tally_add (rs0 : list Row) (nt : list Tender) (t : Tender)
  (w w' : World C) (isNew : bool) :
  tally rs0 nt (rows w) -> add E t w = (Ok isNew, w') ->
  tally rs0 (if isNew then (nt ++ [t])%list else nt) (rows w').
Proof.
  intros (added & Hr & Hu & Hw) Ha.
  assert (Hid : isNew = negb (hasId (ID t) (rows w))).
  { revert Ha. unfold add, execInsert, readClock, RowsAffected; simpl.
    destruct (dbFault E (stmts w)); [discriminate|].
    destruct (affectedFault E (stmts w)); [discriminate|].
    destruct (hasId (ID t) (rows w)); intros H; injection H as <- _; reflexivity. }
  apply add_ok in Ha as [Hr' _]. destruct isNew.
  - exists (added ++ [rowOf t (clock E (ticks w))])%list.
    rewrite Hr', Hr, <- app_assoc. split; [reflexivity|]. split.
    + apply unseen_app; [exact Hu|]. split; [repeat constructor; intros []|].
      repeat constructor. rewrite <- Hr. symmetry in Hid.
      now apply negb_true_iff in Hid.
    + apply Forall2_app; [exact Hw|]. repeat constructor. eexists; reflexivity.
  - exists added. rewrite Hr', app_nil_r. auto.
Qed.

Lemma tally_rangePage (rs0 : list Row) (stop : Tender -> bool)
  (ct nt nt' : list Tender) (w w' : World C) :
  tally rs0 nt (rows w) ->
  rangePage E stop ct nt w = (NextPage nt', w')
  \/ rangePage E stop ct nt w = (BreakOuter nt', w') ->
  tally rs0 nt' (rows w').
Proof.
  revert nt w. induction ct as [|t ct IH]; intros nt w Ht; simpl.
  - intros [H|H]; [|discriminate]. injection H as <- <-. exact Ht.
  - destruct (add E t w) as [[isNew|e] w1] eqn:Ha;
      [|intros [H|H]; discriminate].
    pose proof (tally_add rs0 nt t w w1 isNew Ht Ha) as Ht1.
    destruct (stop t).
    + intros [H|H]; [discriminate|]. injection H as <- <-. exact Ht1.
    + apply IH. exact Ht1.
Qed.

Lemma tally_pageLoop (rs0 : list Row) (fuel : nat) (stop : Tender -> bool)
  (token : string) (nt out : list Tender) (w w' : World C) :
  tally rs0 nt (rows w) ->
  pageLoop E List fuel stop token nt w = (Returned (out, None), w') ->
  tally rs0 out (rows w').
Proof.
  revert token nt w. induction fuel as [|fuel IH]; intros token nt w Ht;
    simpl; [discriminate|].
  pose proof (callList_rows C List token w) as Hl.
  destruct (callList List token w) as [[[ct next]|e] w1]; cbn [snd] in *;
    [|discriminate].
  rewrite <- Hl in Ht.
  destruct (rangePage E stop ct nt w1) as [[nt'|nt'|e] w2] eqn:Hp;
    [| |discriminate].
  - pose proof (tally_rangePage rs0 stop ct nt nt' w1 w2 Ht (or_introl Hp)) as Ht2.
    destruct (String.eqb next "").
    + intros H; injection H as <- <-. exact Ht2.
    + apply IH. exact Ht2.
  - intros H; injection H as <- <-.
    exact (tally_rangePage rs0 stop ct nt nt' w1 w2 Ht (or_intror Hp)).
Qed.

Lemma tally_start (rs : list Row) : tally rs [] rs.
Proof.
  exists []. rewrite app_nil_r. split; [reflexivity|].
  split; [apply unseen_nil | constructor].
Qed.

Lemma tally_output (rs0 rs : list Row) (out : list Tender) :
  tally rs0 out rs ->
  NoDup (map ID out)
  /\ Forall (fun t => hasId (ID t) rs0 = false /\ hasId (ID t) rs = true) out.
Proof.
  intros (added & -> & [N F] & Hw).
  assert (Hids : map ID out = map id added).
  { clear N F. induction Hw as [|t r out added [o ->] _ IH]; simpl;
      [reflexivity | now rewrite IH]. }
  split; [now rewrite Hids|].
  pose proof (written_hasId out added rs0 [] Hw) as Hin.
  rewrite app_nil_r in Hin.
  rewrite Forall_forall in *. intros t Ht. split; [|now apply Hin].
  apply hasId_false_iff. intros Hk.
  assert (Hi : In (ID t) (map id added)).
  { rewrite <- Hids. now apply in_map. }
  apply in_map_iff in Hi as (r & Hr & Hra). specialize (F r Hra).
  apply hasId_false_iff in F. rewrite Hr in F. contradiction.
Qed.

End OutputFacts.

(** X3: the list that a run of [findNew] returns names no id twice and
    no id that the store held before the run; every record of it is in
    the store after the run, and the table has grown by exactly as many
    rows as the list has records. *)
Theorem findNew_output_is_new (E : Env) (C : Type)
  (List : string -> M (C * nat) (list Tender * string))
  (fuel : nat) (w w' : World C) (out : list Tender) :
  findNew E List fuel w = (Returned (out, None), w')
  \/ findNewObserved E List fuel w = (Returned (out, None), w') ->
  NoDup (map ID out)
  /\ Forall (fun t => hasId (ID t) (rows w) = false
                      /\ hasId (ID t) (rows w') = true) out
  /\ List.length (rows w') = (List.length (rows w) + List.length out)%nat.
Proof.
  intros H.
  assert (Ht : tally (rows w) out (rows w')).
  { destruct H as [H|H].
    - unfold findNew, maxIssued in H.
      pose proof (maxOf_rows E C issued w) as Hm.
      destruct (maxOf E issued w) as [[wm|e] w0]; [|discriminate].
      cbn [snd] in Hm. rewrite <- Hm.
      eapply tally_pageLoop; [|exact H]. apply tally_start.
    - unfold findNewObserved, maxObserved in H.
      pose proof (maxOf_rows E C first_observed w) as Hm.
      destruct (maxOf E first_observed w) as [[wm|e] w0]; [|discriminate].
      cbn [snd] in Hm. rewrite <- Hm.
      destruct (IsZero wm); (eapply tally_pageLoop; [|exact H]);
        apply tally_start. }
  destruct (tally_output (rows w) (rows w') out Ht) as [Hn Hf].
  split; [exact Hn|]. split; [exact Hf|].
  destruct Ht as (added & -> & _ & Hw). rewrite length_app.
  f_equal. symmetry. clear -Hw. induction Hw; simpl; congruence.
Qed.

Lemma findNew_output_is_new_witness :
  let w := mkWorld [([Sample.T1; Sample.T1; Sample.T3; Sample.T2], "")]
                   [rowOf Sample.T3 (Sample.day 2023 11 21)] 1 1 in
  let r := findNew Sample.env Synthetic.List 3 w in
  fst r = Returned ([Sample.T1; Sample.T2], None)
  /\ NoDup (map ID [Sample.T1; Sample.T2])
  /\ Forall (fun t => hasId (ID t) (rows w) = false
                      /\ hasId (ID t) (rows (snd r)) = true)
            [Sample.T1; Sample.T2]
  /\ List.length (rows (snd r)) = (1 + 2)%nat.
Proof.
  intros w r. split; [reflexivity|].
  apply (findNew_output_is_new Sample.env _ Synthetic.List 3 w (snd r)
           [Sample.T1; Sample.T2]).
  left. reflexivity.
Defined.

Section NothingNew.

Variable E : Env.
Variable C : Type.
Variable List : string -> M (C * nat) (list Tender * string).
Variable rs : list Row.
Hypothesis Hknown : listsOnly (fun t => hasId (ID t) rs = true) List.

Lemma add_known (t : Tender) (w : World C) :
  hasId (ID t) (rows w) = true ->
  rows (snd (add E t w)) = rows w
  /\ forall isNew, fst (add E t w) = Ok isNew -> isNew = false.
Proof.
  intros H. unfold add, execInsert, readClock, RowsAffected; simpl.
  destruct (dbFault E (stmts w)); simpl; [split; [reflexivity | discriminate]|].
  rewrite H.
  destruct (affectedFault E (stmts w)); simpl; split; try reflexivity;
    intros isNew Hi; [discriminate | now injection Hi as <-].
Qed.

Lemma rangePage_known (stop : Tender -> bool) (ct nt : list Tender)
  (w : World C) :
  rows w = rs -> Forall (fun t => hasId (ID t) rs = true) ct ->
  rows (snd (rangePage E stop ct nt w)) = rs
  /\ forall nt', fst (rangePage E stop ct nt w) = NextPage nt'
                 \/ fst (rangePage E stop ct nt w) = BreakOuter nt' -> nt' = nt.
Proof.
  intros Hr Hct. revert nt w Hr.
  induction Hct as [|t ct Ht _ IH]; intros nt w Hr; simpl.
  - split; [exact Hr|]. intros nt' [H|H]; [now injection H | discriminate].
  - rewrite <- Hr in Ht. destruct (add_known t w Ht) as [Hrows Hnew].
    destruct (add E t w) as [[isNew|e] w1]; cbn [fst snd] in *.
    + rewrite (Hnew isNew eq_refl).
      destruct (stop t); cbn [fst snd].
      * split; [congruence|]. intros nt' [H|H]; [discriminate | now injection H].
      * apply IH. congruence.
    + split; [congruence|]. intros nt' [H|H]; discriminate.
Qed.

Lemma pageLoop_known (fuel : nat) (stop : Tender -> bool) (token : string)
  (nt : list Tender) (w : World C) :
  rows w = rs ->
  rows (snd (pageLoop E List fuel stop token nt w)) = rs
  /\ forall out, fst (pageLoop E List fuel stop token nt w)
                 = Returned (out, None) -> out = nt.
Proof.
  revert token nt w. induction fuel as [|fuel IH]; intros token nt w Hr; simpl.
  - split; [exact Hr | discriminate].
  - pose proof (callList_rows C List token w) as Hl.
    destruct (callList List token w) as [[[ct next]|e] w1] eqn:Hc;
      cbn [fst snd] in *; [|split; [congruence | discriminate]].
    assert (Hct : Forall (fun t => hasId (ID t) rs = true) ct).
    { unfold callList in Hc.
      destruct (List token (cli w, ticks w)) as [r [c k]] eqn:HL.
      injection Hc as -> _. exact (Hknown _ _ _ _ _ HL). }
    destruct (rangePage_known stop ct nt w1 (eq_trans Hl Hr) Hct) as [Hrows Hnt].
    destruct (rangePage E stop ct nt w1) as [[nt'|nt'|e] w2]; cbn [fst snd] in *.
    + rewrite (Hnt nt' (or_introl eq_refl)).
      destruct (String.eqb next ""); cbn [fst snd].
      * split; [exact Hrows|]. intros out H; now injection H.
      * apply IH. exact Hrows.
    + split; [exact Hrows|]. intros out H. injection H as <-.
      apply Hnt. now right.
    + split; [exact Hrows | discriminate].
Qed.

End NothingNew.

(** X4: a run over a source that lists only records whose ids the
    store holds changes no row, however it ends, and when it returns a
    list the list is empty. *)
Theorem findNew_nothing_new (E : Env) (C : Type)
  (List : string -> M (C * nat) (list Tender * string))
  (fuel : nat) (w : World C) :
  listsOnly (fun t => hasId (ID t) (rows w) = true) List ->
  rows (snd (findNew E List fuel w)) = rows w
  /\ rows (snd (findNewObserved E List fuel w)) = rows w
  /\ forall out,
       fst (findNew E List fuel w) = Returned (out, None)
       \/ fst (findNewObserved E List fuel w) = Returned (out, None) ->
       out = [].
Proof.
  intros Hk.
  assert (H1 : rows (snd (findNew E List fuel w)) = rows w
               /\ forall out, fst (findNew E List fuel w) = Returned (out, None)
                              -> out = []).
  { unfold findNew, maxIssued. pose proof (maxOf_rows E C issued w) as Hm.
    destruct (maxOf E issued w) as [[wm|e] w0]; cbn [fst snd] in *;
      [|split; [exact Hm | discriminate]].
    apply (pageLoop_known E C List (rows w) Hk); exact Hm. }
  assert (H2 : rows (snd (findNewObserved E List fuel w)) = rows w
               /\ forall out, fst (findNewObserved E List fuel w)
                              = Returned (out, None) -> out = []).
  { unfold findNewObserved, maxObserved.
    pose proof (maxOf_rows E C first_observed w) as Hm.
    destruct (maxOf E first_observed w) as [[wm|e] w0]; cbn [fst snd] in *;
      [|split; [exact Hm | discriminate]].
    destruct (IsZero wm); apply (pageLoop_known E C List (rows w) Hk); exact Hm. }
  destruct H1 as [R1 O1], H2 as [R2 O2].
  split; [exact R1|]. split; [exact R2|].
  intros out [H|H]; auto.
Qed.

Lemma findNew_nothing_new_witness :
  let w := mkWorld tt [rowOf Sample.T1 (Sample.day 2024 1 11);
                       rowOf Sample.T2 (Sample.day 2024 1 11)] 2 2 in
  let List := Sample.steady [Sample.T1'; Sample.T2] in
  rows (snd (findNew Sample.env List 3 w)) = rows w
  /\ rows (snd (findNewObserved Sample.env List 3 w)) = rows w
  /\ forall out,
       fst (findNew Sample.env List 3 w) = Returned (out, None)
       \/ fst (findNewObserved Sample.env List 3 w) = Returned (out, None) ->
       out = [].
Proof.
  intros w List.
  apply (findNew_nothing_new Sample.env unit List 3 w).
  intros tok s ct next s' H. unfold List, Sample.steady in H.
  injection H as <- _ _. repeat constructor.
Defined.

Lemma latest_snoc (d0 : Time) (ds : list Time) (d : Time) :
  latest d0 (ds ++ [d]) = laterDate (latest d0 ds) d.
Proof. unfold latest. rewrite fold_left_app. reflexivity. Qed.

Lemma maxIssued_watermark (E : Env) (C : Type) (w : World C) (ds : list Time) :
  dbFault E (stmts w) = None ->
  map issued (rows w) = map FormatDateOnly ds ->
  Forall (fun d => civil4 d = true) ds ->
  fst (maxIssued E w) = Ok (watermark ds).
Proof.
  intros Hd Hmap Hciv. destruct ds as [|d0 ds].
  - apply maxIssued_empty; [exact Hd|].
    destruct (rows w); [reflexivity | discriminate].
  - now apply maxIssued_latest.
Qed.

(** X5: the issued-date watermark after [add], on a database that
    answers and a table written from civil dates.  A record stored new
    moves the watermark to its issue date when that is later than every
    date of the table, and leaves it otherwise; a record whose id the
    table holds leaves the watermark where it was, whatever its issue
    date. *)
Theorem maxIssued_after_add (E : Env) (C : Type) (t : Tender) (w : World C)
  (ds : list Time) :
  healthy E (stmts w) -> dbFault E (S (stmts w)) = None ->
  map issued (rows w) = map FormatDateOnly ds ->
  Forall (fun d => civil4 d = true) ds ->
  civil4 (IssuedDate t) = true ->
  fst (maxIssued E (snd (add E t w)))
  = Ok (if hasId (ID t) (rows w) then watermark ds
        else watermarkWith ds (IssuedDate t)).
Proof.
  intros Hh Hd Hmap Hciv Ht. rewrite (add_healthy E C t w Hh). cbn [snd].
  destruct (hasId (ID t) (rows w)).
  - apply maxIssued_watermark; assumption.
  - replace (watermarkWith ds (IssuedDate t))
      with (watermark (ds ++ [IssuedDate t])%list).
    + apply maxIssued_watermark; cbn [stmts rows]; [exact Hd| |].
      * rewrite !map_app, Hmap. reflexivity.
      * apply Forall_app. split; [exact Hciv|]. repeat constructor. exact Ht.
    + destruct ds as [|d0 ds]; [reflexivity|].
      cbn [watermark watermarkWith app]. now rewrite latest_snoc.
Qed.

Lemma maxIssued_after_add_witness :
  let w := mkWorld tt [rowOf Sample.T2 (Sample.day 2024 1 6);
                       rowOf Sample.T3 (Sample.day 2024 1 6)] 2 2 in
  fst (maxIssued Sample.env (snd (add Sample.env Sample.T1 w)))
  = Ok (Sample.day 2024 1 10)
  /\ fst (maxIssued Sample.env (snd (add Sample.env Sample.T4 w)))
     = Ok (Sample.day 2024 1 5).
Proof.
  intros w. split.
  - apply (maxIssued_after_add Sample.env unit Sample.T1 w
             [Sample.day 2024 1 5; Sample.day 2023 11 20]);
      try reflexivity; repeat constructor.
  - apply (maxIssued_after_add Sample.env unit Sample.T4 w
             [Sample.day 2024 1 5; Sample.day 2023 11 20]);
      try reflexivity; repeat constructor.
Defined.

(** ** The page number in the cursor *)

Lemma parseDigits_app (s1 s2 : string) (a : Z) :
  parseDigits (s1 ++ s2) a
  = match parseDigits s1 a with
    | Some v => parseDigits s2 v
    | None => None
    end.
Proof.
  revert a. induction s1 as [|c s1 IH]; intros a; simpl; [reflexivity|].
  destruct (digitVal c); [apply IH | reflexivity].
Qed.

Lemma append_assoc (s1 s2 s3 : string) :
  (s1 ++ s2) ++ s3 = s1 ++ (s2 ++ s3).
Proof. induction s1 as [|c s1 IH]; simpl; [reflexivity | now rewrite IH]. Qed.

Lemma udigits_acc (fuel : nat) (n : Z) (acc : string) :
  udigits fuel n acc = udigits fuel n "" ++ acc.
Proof.
  revert n acc. induction fuel as [|fuel IH]; intros n acc; simpl; [reflexivity|].
  destruct (n <? 10); [reflexivity|].
  rewrite IH, (IH _ (String _ "")), append_assoc. reflexivity.
Qed.

Lemma parseDigits_udigits (fuel : nat) (n : Z) :
  0 <= n < 10 ^ Z.of_nat fuel -> parseDigits (udigits fuel n "") 0 = Some n.
Proof.
  revert n. induction fuel as [|fuel IH]; intros n Hn.
  - simpl in *. f_equal. lia.
  - cbn [udigits]. destruct (n <? 10) eqn:Hlt.
    + apply Z.ltb_lt in Hlt. cbn [parseDigits].
      rewrite digitVal_digit by (unfold isDig; lia). cbn [parseDigits]. f_equal; lia.
    + apply Z.ltb_ge in Hlt. rewrite udigits_acc, parseDigits_app.
      rewrite IH.
      * cbn [parseDigits].
        rewrite digitVal_digit
          by (unfold isDig; pose proof (Z.mod_pos_bound n 10); lia).
        pose proof (Z.div_mod n 10). f_equal; lia.
      * rewrite Nat2Z.inj_succ, Z.pow_succ_r in Hn by lia.
        split; [apply Z.div_pos; lia|].
        apply Z.div_lt_upper_bound; lia.
Qed.

Lemma decimal_bound (n : Z) :
  0 <= n -> n < 10 ^ Z.of_nat (S (Z.to_nat (Z.log2 n))).
Proof.
  intros Hn. rewrite Nat2Z.inj_succ, Z2Nat.id by apply Z.log2_nonneg.
  destruct (Z.eq_dec n 0) as [->|Hz]; [reflexivity|].
  pose proof (Z.log2_spec n ltac:(lia)) as [_ Hu].
  apply Z.lt_le_trans with (1 := Hu).
  apply Z.pow_le_mono_l. pose proof (Z.log2_nonneg n). lia.
Qed.

Lemma parseDigits_decimal (n : Z) :
  0 <= n -> parseDigits (decimal n) 0 = Some n.
Proof.
  intros Hn. apply parseDigits_udigits. split; [exact Hn|].
  now apply decimal_bound.
Qed.

Lemma udigits_head (fuel : nat) (n : Z) (acc : string) :
  (exists d rest, acc = String (digit d) rest) ->
  exists d rest, udigits fuel n acc = String (digit d) rest.
Proof.
  revert n acc. induction fuel as [|fuel IH]; intros n acc H; simpl; [exact H|].
  destruct (n <? 10); [eauto | apply IH; eauto].
Qed.

Lemma decimal_head (n : Z) : exists d rest, decimal n = String (digit d) rest.
Proof.
  unfold decimal. cbn [udigits].
  destruct (n <? 10); [eauto | apply udigits_head; eauto].
Qed.

Lemma digit_not_sign (d : Z) :
  Ascii.eqb (digit d) "-" = false /\ Ascii.eqb (digit d) "+" = false.
Proof.
  unfold digit.
  destruct d as [|p|p]; [split; reflexivity | | split; reflexivity].
  do 4 (try destruct p as [p|p|]); split; reflexivity.
Qed.

(** [strconv.Atoi] reads back what [strconv.Itoa] and [fmt.Sprint] write
    for an int. *)
Lemma Atoi_Itoa (z : Z) : inInt64 z = true -> Atoi (Itoa z) = Ok z.
Proof.
  intros Hz. unfold Itoa. destruct (z <? 0) eqn:Hneg.
  - apply Z.ltb_lt in Hneg.
    destruct (decimal_head (- z)) as (d & rest & Hd).
    pose proof (parseDigits_decimal (- z) ltac:(lia)) as Hp.
    unfold Atoi. rewrite Hd in *.
    replace (Ascii.eqb "-" "-") with true by reflexivity. cbn [fst snd].
    rewrite Hp, Z.opp_involutive, Hz. reflexivity.
  - apply Z.ltb_ge in Hneg.
    destruct (decimal_head z) as (d & rest & Hd).
    pose proof (parseDigits_decimal z Hneg) as Hp.
    destruct (digit_not_sign d) as [H1 H2].
    unfold Atoi. rewrite Hd in *. rewrite H1, H2. cbn [fst snd].
    rewrite Hp, Hz. reflexivity.
Qed.

Lemma Atoi_inInt64 (s : string) (z : Z) : Atoi s = Ok z -> inInt64 z = true.
Proof.
  unfold Atoi. destruct (snd _); [discriminate|].
  destruct (parseDigits _ 0); [|discriminate].
  destruct (inInt64 _) eqn:H; [|discriminate]. intros E; injection E as <-.
  exact H.
Qed.

(** ** The records of the token client *)

Section TokenRecords.

Variable net : nat -> Token.request -> reply Token.json.
Variable parseURL : string -> result string.

Lemma Token_roundTrip_self (req : Token.request) (s : Token.State) :
  Token.self (snd (Token.roundTrip net req s)) = Token.self s.
Proof.
  unfold Token.roundTrip.
  destruct (net (List.length (Token.sent s)) req) as [e|status b]; [reflexivity|].
  destruct (status =? 200); [|reflexivity]. destruct b; reflexivity.
Qed.

Lemma Token_init_u (s : Token.State) :
  Token.u (Token.self (snd (Token.init net s))) = Token.u (Token.self s).
Proof.
  unfold Token.init, bind, get. destruct (Token.ready (Token.self s)); [reflexivity|].
  pose proof (Token_roundTrip_self Token.Authenticate s) as H.
  destruct (Token.roundTrip net Token.Authenticate s) as [[b|e] s1];
    cbn [snd] in *; [|now rewrite H].
  destruct b as [e|e|body]; cbn [snd fail]; try now rewrite H.
  destruct (String.eqb (Token.JWTToken body) ""); cbn; now rewrite H.
Qed.

Lemma Token_closing_u (tenderId : string) (s : Token.State) :
  Token.u (Token.self (snd (Token.tenderClosingLocationURL net parseURL tenderId s)))
  = Token.u (Token.self s).
Proof.
  unfold Token.tenderClosingLocationURL. unfold bind at 1.
  pose proof (Token_init_u s) as Hi.
  destruct (Token.init net s) as [[[]|e] s1]; cbn [snd] in *; [|exact Hi].
  unfold bind at 1, get at 1. unfold bind at 1.
  pose proof (Token_roundTrip_self
                (Token.TenderById tenderId (Token.token (Token.self s1))) s1) as Hr.
  destruct (Token.roundTrip net _ s1) as [[b|e] s2]; cbn [snd] in *;
    [|now rewrite Hr].
  destruct b as [e|e|respBody]; cbn [snd fail]; try now rewrite Hr.
  destruct (Token.TenderDataList respBody) as [|td [|td' l]];
    cbn [snd ret]; try now rewrite Hr.
  destruct (String.eqb (Token.ClosingLocation td) ""); cbn [snd ret];
    [now rewrite Hr|].
  destruct (parseURL (Token.ClosingLocation td)); cbn [snd ret]; now rewrite Hr.
Qed.

Lemma Token_tenderOf_ok (td : Token.tenderData) (s s' : Token.State) (t : Tender) :
  Token.tenderOf net parseURL td s = (Ok t, s') ->
  mirrors (URLString (Token.u (Token.self s))) td t
  /\ Token.u (Token.self s') = Token.u (Token.self s).
Proof.
  unfold Token.tenderOf, mirrors.
  destruct (ParseDateOnly (Token.PostDate td)) as [pd|e]; [|discriminate].
  destruct (String.length (Token.ClosingDate td) <? 10)%nat; [discriminate|].
  destruct (ParseDateOnly _) as [cd|e]; [|discriminate].
  unfold bind at 1.
  pose proof (Token_closing_u (Token.TenderID td) s) as Hu.
  destruct (Token.tenderClosingLocationURL net parseURL (Token.TenderID td) s)
    as [[cURL|e] s1]; [|discriminate].
  cbn [snd] in Hu. unfold bind, get, ret. intros H. injection H as <- <-.
  cbn [ID URL Description Agency IssuedDate CloseDate]. rewrite Hu.
  split; [|reflexivity]. repeat (split; [reflexivity|]).
  destruct (String.eqb cURL "" || negb (Contains cURL "Detail")) eqn:Hc;
    [now left | right].
  apply orb_false_iff in Hc as [_ Hc]. now apply negb_false_iff in Hc.
Qed.

Lemma Token_tendersOf_ok (tds : list Token.tenderData) (acc ts : list Tender)
  (s s' : Token.State) :
  Token.tendersOf net parseURL tds acc s = (Ok ts, s') ->
  exists new, ts = (acc ++ new)%list
              /\ Forall2 (mirrors (URLString (Token.u (Token.self s)))) tds new.
Proof.
  revert acc s. induction tds as [|td tds IH]; intros acc s; simpl.
  - unfold ret. intros H; injection H as <- _. exists [].
    rewrite app_nil_r. split; [reflexivity | constructor].
  - unfold bind at 1.
    destruct (Token.tenderOf net parseURL td s) as [[t|e] s1] eqn:Ht;
      [|discriminate].
    apply Token_tenderOf_ok in Ht as [Hm Hu].
    intros H. apply IH in H as (new & -> & Hnew). rewrite Hu in Hnew.
    exists (t :: new). rewrite <- app_assoc. split; [reflexivity|].
    constructor; assumption.
Qed.

Lemma Token_page_of (tok : string) (A : Type) (k : Z -> M Token.State A)
  (s : Token.State) (a : A) (s' : Token.State) :
  bind (if String.eqb tok "" then ret 1
        else match Atoi tok with Err e => fail e | Ok p => ret p end) k s
  = (Ok a, s') ->
  exists page, (if String.eqb tok "" then page = 1 else Atoi tok = Ok page)
               /\ k page s = (Ok a, s').
Proof.
  unfold bind. destruct (String.eqb tok "").
  - intros H. exists 1. auto.
  - destruct (Atoi tok) as [p|e]; [|discriminate]. intros H. exists p. auto.
Qed.

End TokenRecords.

(** X6: a page that the token client returns mirrors the page of the
    server entry by entry and in order.  The record of an entry has its
    id, title and procurement entity, the dates that the layout
    2006-01-02 reads in its post date and in the first ten bytes of its
    closing date, and for its URL either a closing location that
    contains "Detail" or the base URL followed by /tenders/ and the
    id. *)
Theorem Token_List_mirrors (net : nat -> Token.request -> reply Token.json)
  (parseURL : string -> result string) (tok : string)
  (s s' : Token.State) (ts : list Tender) (next : string) :
  Token.List net parseURL tok s = (Ok (ts, next), s') ->
  exists page n bearer respBody,
    (if String.eqb tok "" then page = 1 else Atoi tok = Ok page)
    /\ net n (Token.Tenders page bearer) = Reply 200 (Decoded respBody)
    /\ Forall2 (mirrors (URLString (Token.u (Token.self s))))
               (Token.TenderDataList respBody) ts.
Proof.
  unfold Token.List. unfold bind at 1.
  pose proof (Token_init_u net s) as Hu.
  destruct (Token.init net s) as [[[]|e] s1]; [|discriminate]. cbn [snd] in Hu.
  intros H. apply Token_page_of in H as (page & Hp & H).
  unfold bind at 1 in H. unfold get at 1 in H.
  unfold bind at 1 in H.
  pose proof (Token_roundTrip_self net
                (Token.Tenders page (Token.token (Token.self s1))) s1) as Hs.
  unfold Token.roundTrip at 1 in H. unfold Token.roundTrip in Hs.
  destruct (net (List.length (Token.sent s1))
                (Token.Tenders page (Token.token (Token.self s1))))
    as [e|status b] eqn:Hnet; [discriminate|].
  destruct (status =? 200) eqn:Hst;
    [apply Z.eqb_eq in Hst; subst status|discriminate].
  destruct b as [e|e|respBody]; try discriminate.
  unfold bind at 1 in H.
  destruct (Token.tendersOf net parseURL (Token.TenderDataList respBody) [] _)
    as [[ts'|e] s2] eqn:Hts; [|discriminate].
  apply Token_tendersOf_ok in Hts as (new & -> & Hnew).
  cbn [Token.self] in Hnew. rewrite Hu in Hnew.
  exists page, (List.length (Token.sent s1)), (Token.token (Token.self s1)), respBody.
  split; [exact Hp|]. split; [exact Hnet|].
  destruct (0 <? List.length ([] ++ new))%nat; unfold ret in H;
    injection H as <- _ _; exact Hnew.
Qed.

Lemma Token_List_mirrors_witness :
  exists t,
    fst (Token.List (pagedPortal [Sample.td1]) (fun s => Ok s) "" Sample.fresh)
    = Ok ([t], "2")
    /\ mirrors "https://portal.example" Sample.td1 t.
Proof.
  destruct (Token.List (pagedPortal [Sample.td1]) (fun s => Ok s) "" Sample.fresh)
    as [[[ts next]|e] s'] eqn:HL; [|vm_compute in HL; discriminate].
  destruct (Token_List_mirrors _ _ _ _ _ _ _ HL)
    as (page & n & bearer & respBody & Hp & Hnet & Hm).
  cbn in Hp. subst page. cbn in Hnet. injection Hnet as <-.
  vm_compute in HL. injection HL as <- <- _.
  inversion Hm as [|td t tds ts' Ht Hrest]; subst.
  eexists. split; [reflexivity | exact Ht].
Defined.

Section TokenPages.

Variable net : nat -> Token.request -> reply Token.json.
Variable parseURL : string -> result string.

Let ready (s : Token.State) : bool := Token.ready (Token.self s).

(** A call of [List] that returns leaves the client ready. *)
Lemma Token_List_ready (tok : string) (s s' : Token.State)
  (r : list Tender * string) :
  Token.List net parseURL tok s = (Ok r, s') -> ready s' = true.
Proof.
  intros H. destruct (ready s) eqn:Hr.
  - pose proof (Token_List_quiet net parseURL tok s Hr) as [Hr' _].
    rewrite H in Hr'. exact Hr'.
  - destruct (ready s') eqn:Hr'; [reflexivity|].
    destruct (Token_sessionOnce net parseURL) as (_ & Hfail & _).
    destruct (Hfail tok s Hr) as [[e He] _].
    + rewrite H. exact Hr'.
    + rewrite H in He. discriminate.
Qed.

(** On a ready client, [List] with the token of a page starts with the
    request for that page. *)
Lemma Token_List_requests (tok : string) (page : Z) (s : Token.State) :
  ready s = true -> String.eqb tok "" = false -> Atoi tok = Ok page ->
  exists rest,
    Token.sent (snd (Token.List net parseURL tok s))
    = (Token.sent s
       ++ Token.Tenders page (Token.token (Token.self s)) :: rest)%list.
Proof.
  intros Hr Htok Hp. unfold Token.List.
  assert (Hi : Token.init net s = (Ok tt, s)).
  { unfold Token.init, bind, get. unfold ready in Hr. now rewrite Hr. }
  unfold bind at 1. rewrite Hi. rewrite Htok, Hp.
  unfold bind at 1, ret at 1. unfold bind at 1, get at 1.
  set (req := Token.Tenders page (Token.token (Token.self s))).
  destruct (Token_roundTrip_step net req s) as [Hr1 Hs1].
  unfold bind at 1.
  destruct (Token.roundTrip net req s) as [[b|e] s1]; cbn [snd] in *;
    [|exists []; exact Hs1].
  destruct b as [e|e|respBody]; try (exists []; exact Hs1).
  assert (Hr1' : ready s1 = true) by (unfold ready in *; cbn beta in *; congruence).
  pose proof (Token_tendersOf_quiet net parseURL (Token.TenderDataList respBody)
                [] s1 Hr1') as [_ (new & Hn & _)].
  unfold bind.
  destruct (Token.tendersOf net parseURL (Token.TenderDataList respBody) [] s1)
    as [[ts|e] s2]; cbn [snd] in *.
  - exists new. destruct (0 <? List.length ts)%nat; cbn [snd ret];
      rewrite Hn, Hs1, <- app_assoc; reflexivity.
  - exists new. rewrite Hn, Hs1, <- app_assoc. reflexivity.
Qed.

End TokenPages.

(** X7: the cursor that the token client returns with a page of
    records is the number of the following page: [strconv.Atoi] reads
    it back, and the next call of [List] with it starts by requesting
    that page with the bearer token of the session, without
    authenticating again. *)
Theorem Token_cursor_next_page (net : nat -> Token.request -> reply Token.json)
  (parseURL : string -> result string) (tok : string)
  (s s' : Token.State) (ts : list Tender) (next : string) :
  Token.List net parseURL tok s = (Ok (ts, next), s') ->
  ts <> [] ->
  (tok = "" \/ exists p, Atoi tok = Ok p /\ p + 1 < 2 ^ 63) ->
  exists page,
    (if String.eqb tok "" then page = 1 else Atoi tok = Ok page)
    /\ Atoi next = Ok (page + 1)
    /\ exists rest,
         Token.sent (snd (Token.List net parseURL next s'))
         = (Token.sent s'
            ++ Token.Tenders (page + 1) (Token.token (Token.self s')) :: rest)%list.
Proof.
  intros HL Hts Hbound.
  pose proof (Token_List_ready net parseURL tok s s' _ HL) as Hr.
  apply Token_List_ok in HL as (page & n & bearer & body & Hp & _ & _ & Hnext).
  exists page. split; [exact Hp|].
  assert (Hlen : (0 <? List.length ts)%nat = true).
  { destruct ts; [contradiction | reflexivity]. }
  rewrite Hlen in Hnext. subst next.
  assert (Hin : inInt64 (page + 1) = true).
  { unfold inInt64. apply andb_true_iff. rewrite Z.leb_le, Z.ltb_lt.
    destruct (String.eqb tok "") eqn:Htok.
    - subst page. lia.
    - pose proof (Atoi_inInt64 _ _ Hp) as Hi. unfold inInt64 in Hi.
      apply andb_true_iff in Hi. rewrite Z.leb_le, Z.ltb_lt in Hi.
      destruct Hbound as [->|(p & Hp' & Hb)]; [discriminate|].
      rewrite Hp in Hp'. injection Hp' as <-. lia. }
  pose proof (Atoi_Itoa (page + 1) Hin) as Ha.
  assert (Hincr : incr page = page + 1).
  { apply incr_small. unfold inInt64 in Hin. apply andb_true_iff in Hin.
    rewrite Z.leb_le, Z.ltb_lt in Hin. exact Hin. }
  rewrite Hincr.
  split; [exact Ha|].
  apply Token_List_requests; [exact Hr | apply Itoa_eqb | exact Ha].
Qed.

Lemma Token_cursor_next_page_witness :
  let r := Token.List (pagedPortal [Sample.td1]) (fun s => Ok s) "" Sample.fresh in
  Atoi (snd (match fst r with Ok p => p | Err _ => ([], "") end)) = Ok 2
  /\ exists rest,
       Token.sent (snd (Token.List (pagedPortal [Sample.td1]) (fun s => Ok s)
                                   "2" (snd r)))
       = (Token.sent (snd r) ++ Token.Tenders 2 "jwt" :: rest)%list.
Proof.
  intros r.
  destruct (Token_cursor_next_page (pagedPortal [Sample.td1]) (fun s => Ok s) ""
              Sample.fresh (snd r)
              (fst (match fst r with Ok p => p | Err _ => ([], "") end)) "2")
    as (page & Hp & Ha & Hs).
  - reflexivity.
  - discriminate.
  - now left.
  - cbn in Hp. subst page. split; [exact Ha | exact Hs].
Defined.

(** ** The records of the form client *)

Section FormRecords.

Variable net : nat -> Form.request -> reply Form.Doc.
Variable resolve : Url -> string -> result string.

Lemma Form_tenderOf_some (base : Url) (r : Form.GridRow) (t : Tender) :
  Form.tenderOf resolve base r = Ok (Some t) ->
  dataRows [r] = [r] /\ reads resolve base r t.
Proof.
  unfold Form.tenderOf, dataRows, reads. cbn [filter].
  destruct (Form.hasTh r); [discriminate|].
  destruct (Form.isPagination r); [discriminate|]. cbn [negb andb].
  destruct (Form.linkHref r) as [href|]; [|discriminate].
  destruct (resolve base href) as [hurl|e] eqn:Hres; [|discriminate].
  destruct (Form.dateSpans r) as [|c [|i [|x l]]]; try discriminate.
  destruct (ParseDayMonYear i) as [id|e] eqn:Hi; [|discriminate].
  destruct (ParseDayMonYear c) as [cd|e] eqn:Hc; [|discriminate].
  intros H. injection H as <-. cbn [ID URL Description Agency IssuedDate CloseDate].
  split; [reflexivity|]. split; [reflexivity|].
  split; [eauto|]. split; [reflexivity|]. split; [reflexivity|].
  exists c, i. auto.
Qed.

Lemma Form_tenderOf_none (base : Url) (r : Form.GridRow) :
  Form.tenderOf resolve base r = Ok None -> dataRows [r] = [].
Proof.
  unfold Form.tenderOf, dataRows. cbn [filter].
  destruct (Form.hasTh r); [reflexivity|].
  destruct (Form.isPagination r); [reflexivity|].
  destruct (Form.linkHref r) as [href|]; [|discriminate].
  destruct (resolve base href) as [hurl|e]; [|discriminate].
  destruct (Form.dateSpans r) as [|c [|i [|x l]]]; try discriminate.
  destruct (ParseDayMonYear i) as [id|e]; [|discriminate].
  destruct (ParseDayMonYear c) as [cd|e]; discriminate.
Qed.

Lemma dataRows_cons (r : Form.GridRow) (rows : list Form.GridRow) :
  dataRows (r :: rows) = (dataRows [r] ++ dataRows rows)%list.
Proof.
  unfold dataRows. cbn [filter].
  destruct (negb (Form.hasTh r) && negb (Form.isPagination r)); reflexivity.
Qed.

Lemma dataRows_app (l1 l2 : list Form.GridRow) :
  dataRows (l1 ++ l2) = (dataRows l1 ++ dataRows l2)%list.
Proof. unfold dataRows. apply filter_app. Qed.

(** The loop over the rows: without an error, the records of the data
    rows in order; with the error [e], the rows before the one that
    gave [e] were read, and the records of their data rows are what the
    loop holds. *)
Lemma Form_each_rows (base : Url) (rows : list Form.GridRow)
  (acc : list Tender) (err : option error) (ts : list Tender) :
  fold_left (Form.each resolve base) rows (None, acc) = (err, ts) ->
  match err with
  | None => exists new, ts = (acc ++ new)%list
                        /\ Forall2 (reads resolve base) (dataRows rows) new
  | Some e =>
      exists good bad rest new,
        rows = (good ++ bad :: rest)%list
        /\ Form.tenderOf resolve base bad = Err e
        /\ ts = (acc ++ new)%list
        /\ Forall2 (reads resolve base) (dataRows good) new
  end.
Proof.
  revert acc. induction rows as [|r rows IH]; intros acc; cbn [fold_left].
  - intros H. injection H as <- <-. exists []. rewrite app_nil_r.
    split; [reflexivity | constructor].
  - unfold Form.each at 2. cbn [fst snd].
    destruct (Form.tenderOf resolve base r) as [[t|]|e] eqn:Ht.
    + destruct (Form_tenderOf_some base r t Ht) as [Hd Hr].
      intros H. apply IH in H. destruct err as [e|].
      * destruct H as (good & bad & rest & new & -> & Hbad & -> & Hnew).
        exists (r :: good), bad, rest, (t :: new).
        rewrite <- app_assoc. repeat split; auto.
        rewrite dataRows_cons, Hd. constructor; assumption.
      * destruct H as (new & -> & Hnew). exists (t :: new).
        rewrite <- app_assoc. split; [reflexivity|].
        rewrite dataRows_cons, Hd. constructor; assumption.
    + pose proof (Form_tenderOf_none base r Ht) as Hd.
      intros H. apply IH in H. destruct err as [e|].
      * destruct H as (good & bad & rest & new & -> & Hbad & -> & Hnew).
        exists (r :: good), bad, rest, new. repeat split; auto.
        rewrite dataRows_cons, Hd. exact Hnew.
      * destruct H as (new & -> & Hnew). exists new.
        split; [reflexivity|]. rewrite dataRows_cons, Hd. exact Hnew.
    + rewrite Form_each_sticks. intros H. injection H as <- <-.
      exists [], r, rows, []. rewrite app_nil_r.
      repeat split; auto; constructor.
Qed.

(** [init] and the mark of readiness keep the base URL. *)
Lemma Form_roundTrip_ok (req : Form.request) (s s' : Form.State) (doc : Form.Doc) :
  Form.roundTrip net req s = (Ok doc, s') ->
  net (List.length (Form.sent s)) req = Reply 200 (Decoded doc)
  /\ s' = Form.mkState (Form.self s) (Form.sent s ++ [req])%list.
Proof.
  unfold Form.roundTrip.
  destruct (net (List.length (Form.sent s)) req) as [e|status b]; [discriminate|].
  destruct (status =? 200) eqn:Hs; [|discriminate].
  apply Z.eqb_eq in Hs. subst status.
  destruct b as [e|e|d]; try discriminate.
  intros H. injection H as <- <-. auto.
Qed.

Lemma Form_prologue_ok (tok : string) (s s' : Form.State) :
  (if negb (Form.ready (Form.self s)) then
     if negb (String.eqb tok "") then
       fail "List must first be called with empty token"
     else
       bind (Form.init net)
            (fun _ => modify (fun s => Form.mkState
                         (Form.mkClient (Form.u (Form.self s)) true
                                        (Form.vals (Form.self s)))
                         (Form.sent s)))
   else ret tt) s = (Ok tt, s') ->
  Form.u (Form.self s') = Form.u (Form.self s)
  /\ Form.ready (Form.self s') = true.
Proof.
  destruct (Form.ready (Form.self s)) eqn:Hr; cbn [negb].
  - unfold ret. intros H. injection H as <-. auto.
  - destruct (String.eqb tok ""); cbn [negb]; [|discriminate].
    intros H. apply bind_ok in H as ([] & s1 & Hi & H).
    unfold Form.init in Hi. apply bind_ok in Hi as (doc & s2 & Hg & Hi).
    apply Form_roundTrip_ok in Hg as [_ ->].
    unfold Form.setVals, modify in Hi. injection Hi as <-.
    unfold modify in H. injection H as <-. auto.
Qed.

End FormRecords.

(** X8: a page that the form client returns holds the records of the
    data rows of the document that the server sent for it, in the order
    of the document; the rows of the header and of the pager give no
    record.  Each record has the text and the resolved target of the
    link of its row, the trimmed agency and description, the closing
    date from the first span of the dates and the date of issue from
    the second.  After the call the client holds the hidden fields of
    that document. *)
Theorem Form_List_mirrors (net : nat -> Form.request -> reply Form.Doc)
  (resolve : Url -> string -> result string) (tok : string)
  (s s' : Form.State) (ts : list Tender) (next : string) :
  Form.List net resolve tok s = (Ok (ts, next), s') ->
  exists n form doc,
    net n (Form.PostForm form) = Reply 200 (Decoded doc)
    /\ Forall2 (reads resolve (Form.u (Form.self s))) (dataRows (Form.grid doc)) ts
    /\ Form.vals (Form.self s') = Form.hiddenValues doc
    /\ Form.ready (Form.self s') = true.
Proof.
  unfold Form.List. intros H.
  apply bind_ok in H as (s0 & s1 & Hg & H).
  unfold get in Hg. injection Hg as <- <-.
  apply bind_ok in H as ([] & s2 & Hp & H).
  apply Form_prologue_ok in Hp as [Hu Hr].
  apply bind_ok in H as (page & s3 & Hpage & H).
  assert (s3 = s2) as ->.
  { destruct (String.eqb tok ""); [now injection Hpage|].
    destruct (Atoi tok); [now injection Hpage | discriminate]. }
  apply bind_ok in H as (s4 & s5 & Hg & H).
  unfold get in Hg. injection Hg as <- <-.
  apply bind_ok in H as ([] & s6 & Hset & H).
  unfold Form.setVals, modify in Hset. injection Hset as <-.
  apply bind_ok in H as (doc & s7 & Hpost & H).
  apply Form_roundTrip_ok in Hpost as [Hnet ->].
  apply bind_ok in H as ([] & s8 & Hset & H).
  unfold Form.setVals, modify in Hset. injection Hset as <-.
  destruct (fold_left (Form.each resolve (Form.u (Form.self s2))) (Form.grid doc)
                      (None, [])) as [err ts'] eqn:Hfold.
  apply Form_each_rows in Hfold.
  destruct err as [e|]; [discriminate|].
  destruct Hfold as (new & -> & Hnew). rewrite Hu in Hnew.
  eexists _, _, doc. split; [exact Hnet|].
  destruct (Z.of_nat (List.length ([] ++ new)) >=? Form.pageSize);
    unfold ret in H; injection H as <- _ <-;
    cbn [Form.self Form.vals Form.ready Form.u app];
    (split; [exact Hnew|]); (split; [reflexivity | exact Hr]).
Qed.

Lemma Form_List_mirrors_witness :
  exists t,
    fst (Form.List Sample.formNet Sample.formResolve "" Sample.formFresh)
    = Ok ([t], "")
    /\ reads Sample.formResolve (mkUrl "https://p.example" "/ns-tenders.aspx")
             (Form.mkGridRow false false "T1" (Some "/tender.aspx?id=T1")
                             " HRM " "  Road works "
                             ["01 Feb 2024"; "10 Jan 2024"]) t
    /\ IssuedDate t = Sample.day 2024 1 10.
Proof.
  destruct (Form.List Sample.formNet Sample.formResolve "" Sample.formFresh)
    as [[[ts next]|e] s'] eqn:HL; [|vm_compute in HL; discriminate].
  destruct (Form_List_mirrors _ _ _ _ _ _ _ HL)
    as (n & form & doc & Hnet & Hm & _).
  cbn in Hnet. injection Hnet as <-.
  vm_compute in HL. injection HL as <- <- _.
  cbn in Hm. inversion Hm as [|r t rs ts' Ht Hrest]; subst.
  eexists. split; [reflexivity|]. split; [exact Ht | reflexivity].
Defined.

(** ** The forms of the form client *)

Lemma valueOf_Set (vals : Form.Values) (k v k' : string) :
  valueOf (Form.Set_ vals k v) k' = if String.eqb k k' then v else valueOf vals k'.
Proof.
  unfold valueOf. induction vals as [|[k1 v1] vals IH]; cbn [Form.Set_ find fst snd].
  - destruct (String.eqb k k'); reflexivity.
  - destruct (String.eqb k1 k) eqn:H1; cbn [find fst snd].
    + apply String.eqb_eq in H1. subst k1.
      destruct (String.eqb k k'); reflexivity.
    + destruct (String.eqb k1 k') eqn:H2; [|exact IH].
      apply String.eqb_eq in H2. subst k'. now rewrite String.eqb_sym, H1.
Qed.

Section FormForms.

Variable net : nat -> Form.request -> reply Form.Doc.
Variable resolve : Url -> string -> result string.

(** [List] on a client that has its session, up to the request. *)
Lemma Form_List_posts (tok : string) (page : Z) (s : Form.State) :
  Form.ready (Form.self s) = true ->
  (if String.eqb tok "" then page = 1 else Atoi tok = Ok page) ->
  exists form,
    (forall k, valueOf form k
               = if existsb (String.eqb k) (filterKeys page)
                 then valueOf form k else valueOf (Form.vals (Form.self s)) k)
    /\ valueOf form (Form.field ++ "ddDeptAgency")
       = "Halifax Regional Municipality (HRM)"
    /\ valueOf form (Form.field ++ "ddPageSize") = "100"
    /\ (if 1 <? page
        then valueOf form "__EVENTTARGET" = Form.field ++ "GridView1"
             /\ valueOf form "__EVENTARGUMENT" = "Page$" ++ Itoa page
        else valueOf form (Form.field ++ "btnFilter") = "Filter")
    /\ Form.List net resolve tok s
       = let s1 := Form.mkState
                     (Form.mkClient (Form.u (Form.self s)) true form)
                     (Form.sent s ++ [Form.PostForm form])%list in
         match Form.roundTrip net (Form.PostForm form)
                 (Form.mkState (Form.mkClient (Form.u (Form.self s)) true form)
                               (Form.sent s)) with
         | (Err e, _) => (Err e, s1)
         | (Ok doc, _) =>
             let s2 := Form.mkState
                         (Form.mkClient (Form.u (Form.self s)) true
                                        (Form.hiddenValues doc))
                         (Form.sent s ++ [Form.PostForm form])%list in
             match fold_left (Form.each resolve (Form.u (Form.self s)))
                             (Form.grid doc) (None, []) with
             | (Some e, _) => (Err e, s2)
             | (None, ts) =>
                 (Ok (ts, if Z.of_nat (List.length ts) >=? Form.pageSize
                          then Itoa (incr page) else ""), s2)
             end
         end.
Proof.
  intros Hr Hp.
  assert (Hpage : forall (k : Z -> M Form.State (list Tender * string)) s0,
             bind (if String.eqb tok "" then ret 1
                   else match Atoi tok with Err e => fail e | Ok p => ret p end)
                  k s0 = k page s0).
  { intros k s0. unfold bind. destruct (String.eqb tok "");
      [subst page; reflexivity | rewrite Hp; reflexivity]. }
  unfold Form.List. unfold bind at 1, get at 1. rewrite Hr. cbn [negb].
  unfold bind at 1, ret at 1. rewrite Hpage. clear Hpage.
  unfold bind at 1, get at 1.
  match goal with
  | |- context [Form.PostForm ?f] => set (form := f)
  end.
  exists form. split; [|split; [|split; [|split]]].
  - intros k. destruct (existsb (String.eqb k) (filterKeys page)) eqn:Hk;
      [reflexivity|].
    unfold filterKeys in Hk. rewrite existsb_app in Hk.
    apply orb_false_iff in Hk as [Hk1 Hk2]. cbn [existsb] in Hk1.
    repeat (apply orb_false_iff in Hk1 as [?H Hk1]).
    subst form. destruct (1 <? page); cbn [existsb] in Hk2;
      repeat (apply orb_false_iff in Hk2 as [?H Hk2]);
      rewrite !valueOf_Set;
      repeat match goal with
             | H : String.eqb k ?x = false |- _ =>
                 rewrite String.eqb_sym in H; rewrite H; clear H
             end; reflexivity.
  - subst form. destruct (1 <? page); rewrite !valueOf_Set; reflexivity.
  - subst form. destruct (1 <? page); rewrite !valueOf_Set; reflexivity.
  - subst form. destruct (1 <? page); [split|]; rewrite !valueOf_Set; reflexivity.
  - unfold bind at 1. unfold Form.setVals at 1, modify at 1.
    cbn [Form.self Form.u Form.ready Form.sent]. rewrite Hr.
    unfold bind at 1.
    destruct (Form.roundTrip net (Form.PostForm form) _) as [[doc|e] s1] eqn:Hpost.
    + apply Form_roundTrip_ok in Hpost as [_ ->]. cbn [Form.self Form.sent].
      unfold bind at 1. unfold Form.setVals at 1, modify at 1.
      cbn [Form.self Form.u Form.ready Form.sent Form.vals].
      destruct (fold_left _ (Form.grid doc) (None, [])) as [[e|] ts];
        [reflexivity|].
      destruct (Z.of_nat (List.length ts) >=? Form.pageSize); reflexivity.
    + unfold Form.roundTrip in Hpost. cbn [Form.self Form.sent] in Hpost.
      destruct (net _ _) as [e'|status b]; [now injection Hpost as <- <-|].
      destruct (status =? 200); [|now injection Hpost as <- <-].
      destruct b; try discriminate; now injection Hpost as <- <-.
Qed.

End FormForms.

Lemma Form_each_stops (resolve : Url -> string -> result string) (base : Url)
  (good : list Form.GridRow) (bad : Form.GridRow) (rest : list Form.GridRow)
  (e : error) (acc : list Tender) :
  Forall (fun r => exists o, Form.tenderOf resolve base r = Ok o) good ->
  Form.tenderOf resolve base bad = Err e ->
  fst (fold_left (Form.each resolve base) (good ++ bad :: rest)%list (None, acc))
  = Some e.
Proof.
  intros Hgood Hbad. revert acc.
  induction Hgood as [|r good [o Hr] _ IH]; intros acc; cbn [app fold_left].
  - unfold Form.each at 2. cbn [fst snd]. rewrite Hbad, Form_each_sticks.
    reflexivity.
  - unfold Form.each at 2. cbn [fst snd]. rewrite Hr.
    destruct o as [t|]; apply IH.
Qed.

(** X9: a row that the form client cannot read fails the whole page.
    On a client that has its session, when the document that answers
    the request has such a row after rows that can be read, [List]
    returns the error of that row and no record, whatever rows follow;
    the client has taken the hidden fields of the document all the
    same. *)
Theorem Form_List_row_error (net : nat -> Form.request -> reply Form.Doc)
  (resolve : Url -> string -> result string) (tok : string) (page : Z)
  (s : Form.State) (doc : Form.Doc) (good : list Form.GridRow)
  (bad : Form.GridRow) (rest : list Form.GridRow) (e : error) :
  Form.ready (Form.self s) = true ->
  (if String.eqb tok "" then page = 1 else Atoi tok = Ok page) ->
  (forall form, net (List.length (Form.sent s)) (Form.PostForm form)
                = Reply 200 (Decoded doc)) ->
  Form.grid doc = (good ++ bad :: rest)%list ->
  Forall (fun r => exists o,
            Form.tenderOf resolve (Form.u (Form.self s)) r = Ok o) good ->
  Form.tenderOf resolve (Form.u (Form.self s)) bad = Err e ->
  fst (Form.List net resolve tok s) = Err e
  /\ Form.vals (Form.self (snd (Form.List net resolve tok s)))
     = Form.hiddenValues doc.
Proof.
  intros Hr Hp Hnet Hgrid Hgood Hbad.
  destruct (Form_List_posts net resolve tok page s Hr Hp)
    as (form & _ & _ & _ & _ & ->).
  unfold Form.roundTrip. cbn [Form.sent Form.self]. rewrite Hnet.
  cbn [Z.eqb Pos.eqb]. cbv zeta.
  pose proof (Form_each_stops resolve (Form.u (Form.self s)) good bad rest e []
                Hgood Hbad) as Hf.
  rewrite <- Hgrid in Hf.
  destruct (fold_left _ (Form.grid doc) (None, [])) as [[e'|] ts];
    cbn [fst] in Hf; [|discriminate].
  injection Hf as ->. split; reflexivity.
Qed.

Lemma Form_List_row_error_witness :
  let r := Form.List Sample.brokenFormNet Sample.formResolve "" Sample.formReady in
  fst r = Err "T9 missing href"
  /\ Form.vals (Form.self (snd r)) = [("__VIEWSTATE", "v2")].
Proof.
  intros r.
  apply (Form_List_row_error Sample.brokenFormNet Sample.formResolve "" 1
           Sample.formReady Sample.brokenGrid
           [Form.mkGridRow false false "T1" (Some "/tender.aspx?id=T1")
                           " HRM " "  Road works "
                           ["01 Feb 2024"; "10 Jan 2024"]]
           (Form.mkGridRow false false "T9" None "HRM" "Culvert"
                           ["01 Mar 2024"; "12 Jan 2024"])
           [Form.mkGridRow false false "T2" (Some "/tender.aspx?id=T2")
                           "HRM" "Snow removal" ["05 Feb 2024"; "05 Jan 2024"]]).
  - reflexivity.
  - reflexivity.
  - reflexivity.
  - reflexivity.
  - constructor; [eexists; vm_compute; reflexivity | constructor].
  - reflexivity.
Defined.

(** X10: the form that [List] posts on a client that has its session.
    It asks for the tenders of Halifax Regional Municipality (HRM) in
    pages of 100 and names the page: beyond page 1 by the event of the
    grid with the argument Page$ and the number, otherwise by the
    button Filter.  Every other field is posted as the client holds it,
    which is how the hidden fields of the last document go back to the
    server.  One request is sent.  After the call the client holds the
    hidden fields of the document that answered; when no document
    answered it holds the posted form, filter fields included. *)
Theorem Form_List_form (net : nat -> Form.request -> reply Form.Doc)
  (resolve : Url -> string -> result string) (tok : string) (page : Z)
  (s : Form.State) :
  Form.ready (Form.self s) = true ->
  (if String.eqb tok "" then page = 1 else Atoi tok = Ok page) ->
  exists form,
    Form.sent (snd (Form.List net resolve tok s))
    = (Form.sent s ++ [Form.PostForm form])%list
    /\ valueOf form (Form.field ++ "ddDeptAgency")
       = "Halifax Regional Municipality (HRM)"
    /\ valueOf form (Form.field ++ "ddPageSize") = "100"
    /\ (if 1 <? page
        then valueOf form "__EVENTTARGET" = Form.field ++ "GridView1"
             /\ valueOf form "__EVENTARGUMENT" = "Page$" ++ Itoa page
        else valueOf form (Form.field ++ "btnFilter") = "Filter")
    /\ (forall k, ~ In k (filterKeys page) ->
                  valueOf form k = valueOf (Form.vals (Form.self s)) k)
    /\ Form.vals (Form.self (snd (Form.List net resolve tok s)))
       = match net (List.length (Form.sent s)) (Form.PostForm form) with
         | Reply 200 (Decoded doc) => Form.hiddenValues doc
         | _ => form
         end.
Proof.
  intros Hr Hp.
  destruct (Form_List_posts net resolve tok page s Hr Hp)
    as (form & Hk & Ha & Hs & Hpg & ->).
  exists form.
  assert (Hother : forall k, ~ In k (filterKeys page) ->
             valueOf form k = valueOf (Form.vals (Form.self s)) k).
  { intros k Hin. rewrite Hk.
    destruct (existsb (String.eqb k) (filterKeys page)) eqn:Hex; [|reflexivity].
    apply existsb_exists in Hex as (k' & Hin' & Heq).
    apply String.eqb_eq in Heq. subst k'. contradiction. }
  unfold Form.roundTrip. cbn [Form.sent Form.self]. cbv zeta.
  destruct (net (List.length (Form.sent s)) (Form.PostForm form))
    as [e|status b].
  - cbn [snd Form.sent Form.self Form.vals]. auto 10.
  - destruct (status =? 200) eqn:Hst.
    + apply Z.eqb_eq in Hst. subst status.
      destruct b as [e|e|doc]; cbn [snd Form.sent Form.self Form.vals];
        [auto 10 | auto 10 |].
      destruct (fold_left _ (Form.grid doc) (None, [])) as [[e|] ts];
        cbn [snd Form.sent Form.self Form.vals]; auto 10.
    + cbn [snd Form.sent Form.self Form.vals].
      assert (Hm : match status with
                   | 200 => match b with
                            | Decoded doc => Form.hiddenValues doc
                            | _ => form
                            end
                   | _ => form
                   end = form).
      { destruct status as [|p|p]; try reflexivity.
        do 8 (destruct p as [p|p|]; try reflexivity). discriminate. }
      rewrite Hm. auto 10.
Qed.

Lemma Form_List_form_witness :
  exists form,
    Form.sent (snd (Form.List Sample.formNet Sample.formResolve "3"
                              Sample.formReady))
    = [Form.GetForm; Form.PostForm []; Form.PostForm form]
    /\ valueOf form "__EVENTARGUMENT" = "Page$3"
    /\ valueOf form "__VIEWSTATE" = "v1"
    /\ valueOf form "__EVENTVALIDATION" = "e1"
    /\ valueOf form (Form.field ++ "btnFilter") = "".
Proof.
  destruct (Form_List_form Sample.formNet Sample.formResolve "3" 3
              Sample.formReady eq_refl eq_refl)
    as (form & Hs & _ & _ & [_ Hp] & Hk & _).
  exists form. split; [exact Hs|]. split; [exact Hp|].
  split; [|split]; rewrite Hk; try reflexivity;
    (intros Hin; cbn in Hin; repeat (destruct Hin as [Hin|Hin]; [discriminate|]);
     exact Hin).
Defined.

(** ** The records of the browser client *)

Lemma list_of_string_of (l : list ascii) :
  list_ascii_of_string (string_of_list_ascii l) = l.
Proof. apply list_ascii_of_string_of_list_ascii. Qed.

Lemma removeUnprintable_printable (s : string) :
  Forall (fun c => printable c = true)
         (list_ascii_of_string (Browser.removeUnprintable s)).
Proof.
  unfold Browser.removeUnprintable. rewrite list_of_string_of.
  apply Forall_forall. intros c Hc. apply filter_In in Hc as [_ Hc]. exact Hc.
Qed.

Lemma dropSpaces_cases (l : list ascii) :
  dropSpaces l = l
  \/ (exists a l1, l = a :: l1 /\ dropSpaces l = dropSpaces l1)
  \/ (exists a b l2, l = a :: b :: l2 /\ dropSpaces l = dropSpaces l2)
  \/ (exists a b c l3, l = a :: b :: c :: l3 /\ dropSpaces l = dropSpaces l3).
Proof.
  destruct l as [|a [|b [|c l3]]]; cbn [dropSpaces]; auto;
    destruct (isSpace a); eauto 7;
    destruct (isSpace2 a b); eauto 8;
    destruct (isSpace3 a b c); eauto 9.
Qed.

Lemma dropSpacesRight_cases (l : list ascii) :
  dropSpacesRight l = l
  \/ (exists a l1, l = a :: l1 /\ dropSpacesRight l = dropSpacesRight l1)
  \/ (exists a b l2, l = a :: b :: l2 /\ dropSpacesRight l = dropSpacesRight l2)
  \/ (exists a b c l3,
         l = a :: b :: c :: l3 /\ dropSpacesRight l = dropSpacesRight l3).
Proof.
  destruct l as [|a [|b [|c l3]]]; cbn [dropSpacesRight]; auto;
    destruct (isSpace a); eauto 7;
    destruct (isSpace2 b a); eauto 8;
    destruct (isSpace3 c b a); eauto 9.
Qed.

(** A function that drops one, two or three elements at a time, or
    stops, returns a suffix of its argument. *)
Lemma drops_suffix (f : list ascii -> list ascii) :
  (forall l,
      f l = l
      \/ (exists a l1, l = a :: l1 /\ f l = f l1)
      \/ (exists a b l2, l = a :: b :: l2 /\ f l = f l2)
      \/ (exists a b c l3, l = a :: b :: c :: l3 /\ f l = f l3)) ->
  forall l, exists sp, l = (sp ++ f l)%list.
Proof.
  intros Hf l. remember (List.length l) as n eqn:Hn. revert l Hn.
  induction n as [n IH] using (well_founded_induction Wf_nat.lt_wf).
  intros l Hn.
  destruct (Hf l) as [H | [(a & l1 & -> & H) | [(a & b & l2 & -> & H)
                                              | (a & b & c & l3 & -> & H)]]].
  - exists []. now rewrite H.
  - destruct (IH (List.length l1)) with (l := l1) as (sp & Hsp);
      [subst n; cbn; lia | reflexivity |].
    exists (a :: sp). rewrite H. cbn [app]. now rewrite <- Hsp.
  - destruct (IH (List.length l2)) with (l := l2) as (sp & Hsp);
      [subst n; cbn; lia | reflexivity |].
    exists (a :: b :: sp). rewrite H. cbn [app]. now rewrite <- Hsp.
  - destruct (IH (List.length l3)) with (l := l3) as (sp & Hsp);
      [subst n; cbn; lia | reflexivity |].
    exists (a :: b :: c :: sp). rewrite H. cbn [app]. now rewrite <- Hsp.
Qed.

Lemma dropSpaces_suffix (l : list ascii) :
  exists sp, l = (sp ++ dropSpaces l)%list.
Proof. exact (drops_suffix dropSpaces dropSpaces_cases l). Qed.

Lemma dropSpacesRight_suffix (l : list ascii) :
  exists sp, l = (sp ++ dropSpacesRight l)%list.
Proof. exact (drops_suffix dropSpacesRight dropSpacesRight_cases l). Qed.

Lemma dropSpaces_head (l : list ascii) (c : ascii) (rest : list ascii) :
  dropSpaces l = c :: rest -> isSpace c = false.
Proof.
  remember (List.length l) as n eqn:Hn. revert l Hn.
  induction n as [n IH] using (well_founded_induction Wf_nat.lt_wf).
  intros l Hn. destruct l as [|a l1]; cbn [dropSpaces]; [discriminate|].
  destruct (isSpace a) eqn:Ha.
  { apply (IH (List.length l1)); [subst n; cbn; lia | reflexivity]. }
  destruct l1 as [|b l2]; [intros H; injection H as <- _; exact Ha|].
  destruct (isSpace2 a b).
  { apply (IH (List.length l2)); [subst n; cbn; lia | reflexivity]. }
  destruct l2 as [|c0 l3]; [intros H; injection H as <- _; exact Ha|].
  destruct (isSpace3 a b c0).
  { apply (IH (List.length l3)); [subst n; cbn; lia | reflexivity]. }
  intros H; injection H as <- _; exact Ha.
Qed.

Lemma dropSpacesRight_head (l : list ascii) (c : ascii) (rest : list ascii) :
  dropSpacesRight l = c :: rest -> isSpace c = false.
Proof.
  remember (List.length l) as n eqn:Hn. revert l Hn.
  induction n as [n IH] using (well_founded_induction Wf_nat.lt_wf).
  intros l Hn. destruct l as [|a l1]; cbn [dropSpacesRight]; [discriminate|].
  destruct (isSpace a) eqn:Ha.
  { apply (IH (List.length l1)); [subst n; cbn; lia | reflexivity]. }
  destruct l1 as [|b l2]; [intros H; injection H as <- _; exact Ha|].
  destruct (isSpace2 b a).
  { apply (IH (List.length l2)); [subst n; cbn; lia | reflexivity]. }
  destruct l2 as [|c0 l3]; [intros H; injection H as <- _; exact Ha|].
  destruct (isSpace3 c0 b a).
  { apply (IH (List.length l3)); [subst n; cbn; lia | reflexivity]. }
  intros H; injection H as <- _; exact Ha.
Qed.

(** What [TrimSpace] keeps of [s]: the text between the leading and the
    trailing white space. *)
Lemma TrimSpace_spec (s : string) :
  exists front back,
    list_ascii_of_string s
    = (front ++ list_ascii_of_string (TrimSpace s) ++ back)%list
    /\ (forall c rest, list_ascii_of_string (TrimSpace s) = c :: rest ->
                       isSpace c = false)
    /\ (forall pre c, list_ascii_of_string (TrimSpace s) = (pre ++ [c])%list ->
                      isSpace c = false).
Proof.
  unfold TrimSpace. rewrite list_of_string_of.
  set (l := list_ascii_of_string s).
  destruct (dropSpaces_suffix l) as (front & Hl).
  set (l1 := dropSpaces l) in *.
  destruct (dropSpacesRight_suffix (rev l1)) as (back & Hr).
  set (l2 := dropSpacesRight (rev l1)) in *.
  assert (Hl1 : l1 = (rev l2 ++ rev back)%list).
  { rewrite <- rev_app_distr, <- Hr, rev_involutive. reflexivity. }
  exists front, (rev back). split; [rewrite Hl at 1; now rewrite Hl1|].
  split.
  - intros c rest H.
    destruct (rev l2) as [|c' r'] eqn:E; [discriminate|]. injection H as -> ->.
    cbn [app] in Hl1. exact (dropSpaces_head l c _ Hl1).
  - intros pre c H. apply (f_equal (@rev ascii)) in H.
    rewrite rev_involutive, rev_app_distr in H. cbn [rev app] in H.
    exact (dropSpacesRight_head (rev l1) c _ H).
Qed.

Lemma isReSpace_isSpace (c : ascii) : Browser.isReSpace c = true -> isSpace c = true.
Proof.
  unfold Browser.isReSpace, isSpace. set (n := N_of_ascii c).
  rewrite !orb_true_iff, andb_true_iff, !N.eqb_eq, !N.leb_le. lia.
Qed.

Lemma isReSpace_space (c : ascii) : Browser.isReSpace c = false -> c <> " "%char.
Proof. intros H ->. discriminate. Qed.

Lemma squeeze_printable (b : bool) (s : string) :
  Forall (fun c => printable c = true) (list_ascii_of_string s) ->
  Forall (fun c => printable c = true)
         (list_ascii_of_string (Browser.squeeze b s)).
Proof.
  revert b. induction s as [|c s IH]; intros b H; cbn; [constructor|].
  cbn in H. inversion H as [|? ? Hc Hs]; subst.
  destruct (Browser.isReSpace c); [destruct b|]; cbn; auto;
    try (constructor; [reflexivity | auto]).
Qed.

Lemma squeeze_spaces (s : string) (b : bool) :
  (b = true ->
   forall rest, list_ascii_of_string (Browser.squeeze b s) <> " "%char :: rest)
  /\ forall pre rest,
       list_ascii_of_string (Browser.squeeze b s)
       <> (pre ++ " "%char :: " "%char :: rest)%list.
Proof.
  revert b. induction s as [|c s IH]; intros b; cbn [Browser.squeeze].
  - split; [discriminate|]. intros [|a pre] rest; discriminate.
  - destruct (Browser.isReSpace c) eqn:Hc; [destruct b|].
    + apply IH.
    + split; [discriminate|]. intros [|a pre] rest; cbn; intros H.
      * injection H as H. exact (proj1 (IH true) eq_refl _ H).
      * injection H as _ H. exact (proj2 (IH true) _ _ H).
    + apply isReSpace_space in Hc. split.
      * intros _ rest. cbn. intros H. injection H as H _. contradiction.
      * intros [|a pre] rest; cbn; intros H.
        -- injection H as H _. contradiction.
        -- injection H as _ H. exact (proj2 (IH false) _ _ H).
Qed.

Lemma squeeze_last (s : string) (b : bool) (pre : list ascii) (c : ascii) :
  list_ascii_of_string s = (pre ++ [c])%list -> Browser.isReSpace c = false ->
  exists pre', list_ascii_of_string (Browser.squeeze b s) = (pre' ++ [c])%list.
Proof.
  revert b pre. induction s as [|a s IH]; intros b pre H Hc.
  - destruct pre; discriminate.
  - cbn in H. destruct pre as [|a' pre]; cbn in H; injection H as <- H.
    + destruct s; [|discriminate]. cbn. rewrite Hc. exists []. reflexivity.
    + cbn [Browser.squeeze].
      destruct (Browser.isReSpace a); [destruct b|].
      * exact (IH true pre H Hc).
      * destruct (IH true pre H Hc) as [pre' Hp]. exists (" "%char :: pre').
        cbn. now rewrite Hp.
      * destruct (IH false pre H Hc) as [pre' Hp]. exists (a :: pre').
        cbn. now rewrite Hp.
Qed.

(** The chain that [List] applies to the text after the id. *)
Lemma description_tidy (s : string) :
  tidy (Browser.squeeze false (TrimSpace (Browser.removeUnprintable s))).
Proof.
  set (x := Browser.removeUnprintable s).
  pose proof (removeUnprintable_printable s) as Hx. fold x in Hx.
  destruct (TrimSpace_spec x) as (front & back & Hsplit & Hhead & Hlast).
  set (y := TrimSpace x) in *.
  assert (Hy : Forall (fun c => printable c = true) (list_ascii_of_string y)).
  { rewrite Hsplit in Hx. apply Forall_app in Hx as [_ Hx].
    now apply Forall_app in Hx as [Hx _]. }
  assert (Hre : forall c, isSpace c = false -> Browser.isReSpace c = false).
  { intros c H. destruct (Browser.isReSpace c) eqn:E; [|reflexivity].
    apply isReSpace_isSpace in E. congruence. }
  unfold tidy. cbv zeta. split; [now apply squeeze_printable|].
  split; [apply squeeze_spaces|]. split.
  - intros rest H. destruct y as [|c y']; [discriminate|].
    pose proof (Hre c (Hhead c _ eq_refl)) as Hc.
    cbn in H. rewrite Hc in H. cbn in H. injection H as -> _. discriminate.
  - intros pre H.
    destruct (rev (list_ascii_of_string y)) as [|c r] eqn:E.
    + apply (f_equal (@rev ascii)) in E. rewrite rev_involutive in E.
      cbn in E. destruct y; [|discriminate]. destruct pre; discriminate.
    + apply (f_equal (@rev ascii)) in E. rewrite rev_involutive in E.
      cbn [rev] in E.
      pose proof (Hre c (Hlast _ _ E)) as Hc.
      destruct (squeeze_last y false _ c E Hc) as [pre' Hp].
      rewrite Hp in H. apply app_inj_tail in H as [_ ->]. discriminate.
Qed.

(** The part of a title before its first space. *)
Lemma CutSpace_spec (s before after : string) :
  CutSpace s = (before, after, true) ->
  s = before ++ String " " after
  /\ Forall (fun c => c <> " "%char) (list_ascii_of_string before).
Proof.
  revert before. induction s as [|c s IH]; intros before; cbn [CutSpace];
    [discriminate|].
  destruct (Ascii.eqb c " ") eqn:Hc.
  - apply Ascii.eqb_eq in Hc. subst c. intros H. injection H as <- <-.
    split; [reflexivity | constructor].
  - destruct (CutSpace s) as [[b a] found]. destruct found; [|discriminate].
    intros H. injection H as <- <-.
    destruct (IH b eq_refl) as [-> Hb]. split; [reflexivity|].
    cbn. constructor; [|exact Hb]. intros ->. discriminate.
Qed.

(** X11: what the browser client makes of an entry.  The id of the
    record is the title up to its first space and has no space in it;
    the agency is Halifax Regional Municipality; the description is
    made of printable ASCII, neither starts nor ends with a space and
    has no two spaces in a row, whatever bytes the title holds. *)
Theorem Browser_tenderOf_fields (E : Env)
  (resolveRef : Url -> string -> string) (base : Url) (d : Browser.RawTender)
  (sk sk' : Browser.State * nat) (t : Tender) :
  Browser.tenderOf E resolveRef base d sk = (Ok t, sk') ->
  (exists rest, Browser.Title d = ID t ++ String " " rest)
  /\ Forall (fun c => c <> " "%char) (list_ascii_of_string (ID t))
  /\ Agency t = "Halifax Regional Municipality"
  /\ tidy (Description t).
Proof.
  unfold Browser.tenderOf.
  destruct (CutSpace (Browser.Title d)) as [[id rest] ok] eqn:Hcut.
  destruct ok; cbn [negb]; [|discriminate].
  apply CutSpace_spec in Hcut as [Htitle Hid].
  destruct (ParseDisplay (Browser.DateAvailableDisplay d)) as [i|e]; [|discriminate].
  destruct (ParseDisplay (Browser.DateClosingDisplay d)) as [c|e]; [|discriminate].
  unfold bind, Browser.now, ret. intros H. injection H as <- _.
  cbn [ID Agency Description].
  split; [eauto|]. split; [exact Hid|]. split; [reflexivity|].
  apply description_tidy.
Qed.

Lemma Browser_tenderOf_fields_witness :
  let r := Browser.tenderOf Sample.env Sample.resolveRef (mkUrl "https://h.example" "/Module/Tenders/en")
             Sample.raw1 (Sample.browserFresh, 0%nat) in
  (exists t, fst r = Ok t /\ ID t = "24-101"
             /\ Description t = "Transit shelters"
             /\ tidy (Description t)).
Proof.
  intros r.
  destruct r as [[t|e] sk'] eqn:Hr; [|vm_compute in Hr; discriminate].
  destruct (Browser_tenderOf_fields _ _ _ _ _ _ _ Hr) as (_ & _ & _ & Ht).
  exists t. split; [reflexivity|].
  vm_compute in Hr. injection Hr as <- _.
  split; [reflexivity|]. split; [reflexivity | exact Ht].
Defined.

(** ** The notifier *)

Section NotifierFacts.

Variable E : Env.
Variable ParseEmail : string -> result Notifier.Email.
Variable sendgrid : nat -> Notifier.Mail -> Z * option error.

Lemma parseTos_ok (tes : list string) (acc tos : list Notifier.Email) :
  Notifier.parseTos ParseEmail tes acc = Ok tos ->
  exists new, tos = (acc ++ new)%list
              /\ Forall2 (fun te em => ParseEmail te = Ok em) tes new.
Proof.
  revert acc. induction tes as [|te tes IH]; intros acc; cbn [Notifier.parseTos].
  - intros H. injection H as <-. exists []. rewrite app_nil_r.
    split; [reflexivity | constructor].
  - destruct (ParseEmail te) as [em|e] eqn:Hte; [|discriminate].
    intros H. apply IH in H as (new & -> & Hnew). exists (em :: new).
    rewrite <- app_assoc. split; [reflexivity|]. constructor; assumption.
Qed.

Lemma parseTos_err (tes : list string) (acc : list Notifier.Email)
  (te : string) (e : error) :
  In te tes -> ParseEmail te = Err e ->
  exists e', Notifier.parseTos ParseEmail tes acc = Err e'.
Proof.
  revert acc. induction tes as [|te0 tes IH]; intros acc Hin Hte; [destruct Hin|].
  cbn [Notifier.parseTos]. destruct (ParseEmail te0) as [em|e0] eqn:H0; [|eauto].
  destruct Hin as [->|Hin]; [congruence|]. now apply IH.
Qed.

(** The message names every record it was made for. *)
Lemma hmsgOf_mentions (ts : list Tender) (t : Tender) :
  In t ts ->
  exists pre post,
    Notifier.hmsgOf ts = pre ++ Notifier.link t ++ Notifier.dates t ++ post.
Proof.
  unfold Notifier.hmsgOf. generalize Notifier.heading.
  induction ts as [|t0 ts IH]; intros h Hin; [destruct Hin|].
  cbn [fold_left]. destruct Hin as [->|Hin]; [|now apply IH].
  clear IH. exists h.
  assert (Hgrow : forall l h0, exists post,
             fold_left (fun hmsg t1 => (hmsg ++ Notifier.link t1) ++ Notifier.dates t1)
                       l h0 = h0 ++ post).
  { induction l as [|t1 l IHl]; intros h0; cbn [fold_left].
    - exists "". symmetry. clear. induction h0; cbn; congruence.
    - destruct (IHl ((h0 ++ Notifier.link t1) ++ Notifier.dates t1)) as [post ->].
      rewrite !append_assoc. eauto. }
  destruct (Hgrow ts ((h ++ Notifier.link t) ++ Notifier.dates t)) as [post ->].
  exists post. now rewrite !append_assoc.
Qed.

Lemma notify_cases (n : Notifier.notifier) (ts : list Tender)
  (st : list Notifier.Mail * nat) :
  let r := Notifier.notify E ParseEmail sendgrid n ts st in
  (r = (Ok tt, st) /\ (ts = [] \/ Notifier.toEmails n = []))
  \/ (ts <> [] /\ Notifier.toEmails n <> []
      /\ ((exists e, r = (Err e, st)
                     /\ Notifier.parseTos ParseEmail (Notifier.toEmails n) [] = Err e)
          \/ exists m,
               carries ParseEmail n ts m
               /\ snd r = ((fst st ++ [m])%list, S (snd st))
               /\ fst r = match snd (sendgrid (List.length (fst st)) m) with
                          | Some e => Err e
                          | None => Ok tt
                          end)).
Proof.
  unfold Notifier.notify. destruct ts as [|t ts]; cbn [List.length Nat.eqb].
  - left. auto.
  - destruct (Notifier.toEmails n) as [|te tes] eqn:Htes; cbn [List.length Nat.eqb].
    + left. auto.
    + right. split; [discriminate|]. split; [discriminate|].
      destruct (Notifier.parseTos ParseEmail (te :: tes) []) as [tos|e] eqn:Hp.
      * right. apply parseTos_ok in Hp as (new & -> & Hnew). cbn [app] in *.
        eexists. split; [|split]; cycle 1.
        -- cbv zeta. destruct (snd (sendgrid _ _)); reflexivity.
        -- cbv zeta. destruct (snd (sendgrid _ _)); reflexivity.
        -- unfold carries. cbn. rewrite Htes. repeat split. exact Hnew.
      * left. exists e. split; reflexivity.
Qed.

End NotifierFacts.

(** X12: what [notify] gives to SendGrid.  A call hands over one
    message or none.  None, and no error, when there is no record or no
    recipient; none, and an error, when a recipient is not an address,
    wherever it stands in the list.  A message that is handed over goes
    from the sender to the sender with every recipient as a blind copy,
    in order, and its text has the two lines of every record; the call
    then returns the error of the transport, if there is one, and never
    looks at the status of the response. *)
Theorem notify_outcome (E : Env) (ParseEmail : string -> result Notifier.Email)
  (sendgrid : nat -> Notifier.Mail -> Z * option error)
  (n : Notifier.notifier) (ts : list Tender) (st : list Notifier.Mail * nat) :
  let r := Notifier.notify E ParseEmail sendgrid n ts st in
  (snd r = st
   \/ exists m, snd r = ((fst st ++ [m])%list, S (snd st))
                /\ carries ParseEmail n ts m
                /\ (forall t, In t ts ->
                      exists pre post,
                        Notifier.Content m
                        = pre ++ Notifier.link t ++ Notifier.dates t ++ post)
                /\ fst r = match snd (sendgrid (List.length (fst st)) m) with
                           | Some e => Err e
                           | None => Ok tt
                           end)
  /\ (ts = [] \/ Notifier.toEmails n = [] -> r = (Ok tt, st))
  /\ (forall te e, ts <> [] -> In te (Notifier.toEmails n) ->
                   ParseEmail te = Err e ->
                   snd r = st /\ exists e', fst r = Err e').
Proof.
  intros r. subst r.
  destruct (notify_cases E ParseEmail sendgrid n ts st)
    as [[Hr Hno]|(Hts & Htes & [(e & Hr & Hp)|(m & Hm & Hs & Hf)])].
  - rewrite Hr. split; [now left|]. split; [reflexivity|].
    intros te e Hts Hin _. destruct Hno as [->| Hno]; [contradiction|].
    rewrite Hno in Hin. destruct Hin.
  - rewrite Hr. split; [now left|]. split.
    + intros [->|H]; contradiction.
    + intros te e0 _ _ _. cbn. eauto.
  - split; [|split].
    + right. exists m. split; [exact Hs|]. split; [exact Hm|].
      split; [|exact Hf].
      intros t Hin. destruct Hm as (_ & _ & _ & _ & _ & ->).
      now apply hmsgOf_mentions.
    + intros [->|H]; contradiction.
    + intros te e _ Hin Hte. exfalso.
      destruct Hm as (_ & _ & _ & Hall & _).
      clear -Hall Hin Hte. induction Hall as [|te0 em tes ems H0 _ IH];
        [destruct Hin|].
      destruct Hin as [->|Hin]; [congruence | auto].
Qed.

(** ** The program *)

Section ProgramFacts.

Variable E : Env.
Variable ParseEmail : string -> result Notifier.Email.
Variable sendgrid : nat -> Notifier.Mail -> Z * option error.
Variable C : Type.
Variable List : string -> M (C * nat) (list Tender * string).

Lemma driver_tally (find : nat -> World C -> run output * World C)
  (fuel : nat) (w w' : World C) (out : list Tender) :
  isDriver E List find -> find fuel w = (Returned (out, None), w') ->
  tally (rows w) out (rows w').
Proof.
  intros [->| ->] H.
  - unfold findNew, maxIssued in H.
    pose proof (maxOf_rows E C issued w) as Hm.
    destruct (maxOf E issued w) as [[wm|e] w0]; [|discriminate].
    cbn [snd] in Hm. rewrite <- Hm.
    eapply tally_pageLoop; [|exact H]. apply tally_start.
  - unfold findNewObserved, maxObserved in H.
    pose proof (maxOf_rows E C first_observed w) as Hm.
    destruct (maxOf E first_observed w) as [[wm|e] w0]; [|discriminate].
    cbn [snd] in Hm. rewrite <- Hm.
    destruct (IsZero wm); (eapply tally_pageLoop; [|exact H]);
      apply tally_start.
Qed.

Lemma driver_grows (find : nat -> World C -> run output * World C)
  (fuel : nat) (w : World C) :
  isDriver E List find -> grownFrom (rows w) (rows (snd (find fuel w))).
Proof.
  intros [->| ->].
  - unfold findNew, maxIssued.
    pose proof (maxOf_rows E C issued w) as Hm.
    destruct (maxOf E issued w) as [[wm|e] w0]; cbn [snd] in *;
      [|rewrite Hm; apply grownFrom_refl].
    rewrite <- Hm. apply pageLoop_grows.
  - unfold findNewObserved, maxObserved.
    pose proof (maxOf_rows E C first_observed w) as Hm.
    destruct (maxOf E first_observed w) as [[wm|e] w0]; cbn [snd] in *;
      [|rewrite Hm; apply grownFrom_refl].
    rewrite <- Hm. destruct (IsZero wm); [|apply pageLoop_grows].
    unfold readClock.
    match goal with
    | |- context [pageLoop E List fuel ?s "" [] ?w1] =>
        exact (pageLoop_grows E C List fuel s "" [] w1)
    end.
Qed.

Lemma SplitSemi_nonempty (s : string) : Program.SplitSemi s <> [].
Proof.
  destruct s as [|c s]; cbn; [discriminate|].
  destruct (Ascii.eqb c ";"); [discriminate|].
  destruct (Program.SplitSemi s); discriminate.
Qed.

(** The notifier that [main] sets up. *)
Lemma main_unfold (find : nat -> World C -> run output * World C)
  (skip : bool) (env : Program.Environ) (fuel : nat) (w : World C)
  (o : Program.Outside) :
  let w0 := snd (Program.createTable E w) in
  let not := Notifier.mkNotifier (Program.SENDGRID_API_KEY env)
               (Program.FROM_NAME env) (Program.FROM_EMAIL env)
               (Program.SplitSemi (Program.TO_EMAILS env)) in
  let r := Program.main E ParseEmail sendgrid find skip env fuel w o in
  rows w0 = rows w
  /\ ((snd r = o
       /\ (rows (snd (fst r)) = rows w
           \/ rows (snd (fst r)) = rows (snd (find fuel w0)))
       /\ forall nt, nt <> [] -> fst (find fuel w0) = Returned (nt, None) ->
            dbFault E (stmts w) = None ->
            String.eqb (Program.SENDGRID_API_KEY env) "" || skip = false
            /\ exists e, fst (fst r) = Returned (Program.Fatal e))
      \/ exists nt w1,
           nt <> [] /\ dbFault E (stmts w) = None
           /\ find fuel w0 = (Returned (nt, None), w1)
           /\ rows (snd (fst r)) = rows w1
           /\ ((String.eqb (Program.SENDGRID_API_KEY env) "" || skip = true
                /\ fst (fst r) = Returned Program.Exit0
                /\ snd r = Program.mkOutside
                             (Program.stdout o ++ map Program.Println nt)%list
                             (Program.handed o))
               \/ (String.eqb (Program.SENDGRID_API_KEY env) "" || skip = false
                   /\ exists m,
                        snd r = Program.mkOutside (Program.stdout o)
                                                  (Program.handed o ++ [m])%list
                        /\ carries ParseEmail not nt m
                        /\ fst (fst r)
                           = Returned
                               match snd (sendgrid (List.length (Program.handed o)) m) with
                               | Some e => Program.Fatal e
                               | None => Program.Exit0
                               end))).
Proof.
  intros w0 not r. subst w0 r. unfold Program.main, Program.createTable.
  destruct (dbFault E (stmts w)) as [e|] eqn:Hdb; cbn [fst snd rows].
  { split; [reflexivity|]. left. split; [reflexivity|]. split; [now left|].
    intros nt _ _ H. discriminate. }
  split; [reflexivity|].
  set (w0 := mkWorld (cli w) (rows w) (S (stmts w)) (ticks w)).
  destruct (find fuel w0) as [[[nt [e|]]|] w1] eqn:Hf; cbn [fst snd].
  - left. split; [reflexivity|]. split; [now right|]. intros ? _ H. discriminate.
  - destruct (String.eqb (Program.SENDGRID_API_KEY env) "" || skip) eqn:Hk.
    + destruct nt as [|t nt].
      * left. cbn [map]. rewrite app_nil_r. destruct o.
        split; [reflexivity|]. split; [now right|].
        intros nt Hnt H. injection H as <-. contradiction.
      * right. exists (t :: nt), w1. split; [discriminate|].
        split; [reflexivity|]. split; [reflexivity|]. split; [reflexivity|].
        left. auto.
    + fold not.
      destruct (notify_cases E ParseEmail sendgrid not nt
                  (Program.handed o, ticks w1))
        as [[Hr Hno]|(Hts & Htes & [(e & Hr & Hp)|(m & Hm & Hs & Hfst)])].
      * rewrite Hr. destruct Hno as [->|Hno];
          [|exfalso; exact (SplitSemi_nonempty _ Hno)].
        left. destruct o. split; [reflexivity|]. split; [now right|].
        intros nt Hnt H. injection H as <-. contradiction.
      * rewrite Hr. left. destruct o. split; [reflexivity|].
        split; [now right|]. intros nt' _ _ _. split; [reflexivity | cbn; eauto].
      * right. exists nt, w1. split; [exact Hts|]. split; [reflexivity|].
        split; [reflexivity|].
        destruct (Notifier.notify E ParseEmail sendgrid not nt
                    (Program.handed o, ticks w1)) as [r [mails k]].
        cbn [fst snd] in *. injection Hs as -> ->.
        split; [reflexivity|]. right. split; [reflexivity|].
        exists m. split; [reflexivity|]. split; [exact Hm|].
        rewrite Hfst. destruct (snd (sendgrid _ m)); reflexivity.
  - left. split; [reflexivity|]. split; [now right|]. intros ? _ H. discriminate.
Qed.

End ProgramFacts.

Lemma main_createTable_fails (E : Env)
  (ParseEmail : string -> result Notifier.Email)
  (sendgrid : nat -> Notifier.Mail -> Z * option error) (C : Type)
  (find : nat -> World C -> run output * World C)
  (skip : bool) (env : Program.Environ) (fuel : nat) (w : World C)
  (o : Program.Outside) (e : error) :
  dbFault E (stmts w) = Some e ->
  fst (fst (Program.main E ParseEmail sendgrid find skip env fuel w o))
  = Returned (Program.Fatal e).
Proof.
  intros H. unfold Program.main, Program.createTable. now rewrite H.
Qed.

(** X13: what a run of the program announces.  Whatever [main] prints
    or gives to SendGrid in a run comes from one list of records that
    [findNew] returned without an error: the list is not empty, names
    no id twice and no id that the store held when the run began, and
    its records are in the store when the run ends.  The lines printed
    are those of the list, or the one message is the message for the
    list.  In every other run, and so whenever [findNew] fails, nothing
    is printed or sent.  The rows of the store are only added to. *)
Theorem main_announces_new (E : Env)
  (ParseEmail : string -> result Notifier.Email)
  (sendgrid : nat -> Notifier.Mail -> Z * option error) (C : Type)
  (List : string -> M (C * nat) (list Tender * string))
  (find : nat -> World C -> run output * World C)
  (skip : bool) (env : Program.Environ) (fuel : nat) (w : World C)
  (o : Program.Outside) :
  isDriver E List find ->
  let r := Program.main E ParseEmail sendgrid find skip env fuel w o in
  let not := Notifier.mkNotifier (Program.SENDGRID_API_KEY env)
               (Program.FROM_NAME env) (Program.FROM_EMAIL env)
               (Program.SplitSemi (Program.TO_EMAILS env)) in
  grownFrom (rows w) (rows (snd (fst r)))
  /\ (snd r = o
      \/ exists nt,
           nt <> [] /\ NoDup (map ID nt)
           /\ Forall (fun t => hasId (ID t) (rows w) = false
                               /\ hasId (ID t) (rows (snd (fst r))) = true) nt
           /\ fst (find fuel (snd (Program.createTable E w))) = Returned (nt, None)
           /\ (snd r = Program.mkOutside
                         (Program.stdout o ++ map Program.Println nt)%list
                         (Program.handed o)
               \/ exists m,
                    snd r = Program.mkOutside (Program.stdout o)
                                              (Program.handed o ++ [m])%list
                    /\ carries ParseEmail not nt m)).
Proof.
  intros Hd r not. subst r.
  destruct (main_unfold E ParseEmail sendgrid C find skip env fuel w o)
    as [Hw0 [(Ho & Hrows & _)|(nt & w1 & Hnt & Hdb & Hf & Hrows & Hout)]].
  - split; [|now left].
    destruct Hrows as [->| ->]; [apply grownFrom_refl|].
    rewrite <- Hw0. now apply (driver_grows E C List).
  - pose proof (driver_tally E C List find fuel _ _ _ Hd Hf) as Ht.
    rewrite Hw0 in Ht. rewrite Hrows.
    destruct (tally_output _ _ _ Ht) as [Hn Hfr].
    split.
    + destruct Ht as (added & -> & Hu & _). now exists added.
    + right. exists nt. split; [exact Hnt|]. split; [exact Hn|].
      split; [exact Hfr|]. split; [now rewrite Hf|].
      destruct Hout as [(_ & _ & ->)|(_ & m & -> & Hm & _)]; [now left|].
      right. exists m. split; [reflexivity | exact Hm].
Qed.

Lemma main_announces_new_witness :
  let w := mkWorld [([Sample.T1; Sample.T1; Sample.T3; Sample.T2], "")]
                   [rowOf Sample.T3 (Sample.day 2023 11 21)] 1 1 in
  let o := Program.mkOutside [] [] in
  let r := Program.main Sample.env Sample.parseEmail Sample.accepting
             (findNew Sample.env Synthetic.List) false Sample.environ 3 w o in
  map id (rows (snd (fst r))) = ["T3"; "T1"; "T2"]
  /\ exists m,
       snd r = Program.mkOutside [] [m]
       /\ map Notifier.Address (Notifier.BCCs m)
          = ["a@example.org"; "b@example.org"]
       /\ Notifier.Content m = Notifier.hmsgOf [Sample.T1; Sample.T2].
Proof.
  intros w o r.
  destruct (main_announces_new Sample.env Sample.parseEmail Sample.accepting _
              Synthetic.List (findNew Sample.env Synthetic.List) false
              Sample.environ 3 w o (or_introl eq_refl))
    as [_ [Hsame|(nt & _ & _ & _ & Hf & [Hp|(m & Hm & Hc)])]].
  - exfalso. vm_compute in Hsame. discriminate.
  - exfalso. vm_compute in Hp. discriminate.
  - split; [reflexivity|]. exists m. split; [exact Hm|].
    vm_compute in Hf. injection Hf as <-.
    destruct Hc as (_ & _ & _ & Hb & _ & Hcont). split; [|exact Hcont].
    cbn in Hb.
    inversion Hb as [|te1 e1 l1 l1' H1 Hb1 E1 E1']; subst.
    inversion Hb1 as [|te2 e2 l2 l2' H2 Hb2 E2 E2']; subst.
    inversion Hb2; subst.
    vm_compute in H1, H2. injection H1 as <-. injection H2 as <-. reflexivity.
Defined.

(** X14: a run that ends well has told someone.  When [findNew] has
    returned records, the key of SendGrid is set and the flag
    [-skip-notify] is not, then [main] returns normally only after it
    has given one message for these records to SendGrid, with at least
    one recipient as a blind copy, and the transport has reported no
    error; the check of [notify] for an empty list of recipients never
    applies, as [strings.Split] gives at least one recipient.  The
    status with which SendGrid answered plays no part. *)
Theorem main_exit_ok (E : Env)
  (ParseEmail : string -> result Notifier.Email)
  (sendgrid : nat -> Notifier.Mail -> Z * option error) (C : Type)
  (find : nat -> World C -> run output * World C)
  (skip : bool) (env : Program.Environ) (fuel : nat) (w : World C)
  (o : Program.Outside) (nt : list Tender) :
  let r := Program.main E ParseEmail sendgrid find skip env fuel w o in
  let not := Notifier.mkNotifier (Program.SENDGRID_API_KEY env)
               (Program.FROM_NAME env) (Program.FROM_EMAIL env)
               (Program.SplitSemi (Program.TO_EMAILS env)) in
  fst (fst r) = Returned Program.Exit0 ->
  String.eqb (Program.SENDGRID_API_KEY env) "" || skip = false ->
  fst (find fuel (snd (Program.createTable E w))) = Returned (nt, None) ->
  nt <> [] ->
  exists m,
    snd r = Program.mkOutside (Program.stdout o) (Program.handed o ++ [m])%list
    /\ carries ParseEmail not nt m
    /\ Notifier.BCCs m <> []
    /\ snd (sendgrid (List.length (Program.handed o)) m) = None.
Proof.
  intros r not Hexit Hkey Hfind Hnt. subst r.
  destruct (dbFault E (stmts w)) as [e|] eqn:Hdb.
  { rewrite (main_createTable_fails E ParseEmail sendgrid C find skip env fuel
               w o e Hdb) in Hexit. discriminate. }
  destruct (main_unfold E ParseEmail sendgrid C find skip env fuel w o)
    as [_ [(_ & _ & Hfatal)|(nt' & w1 & _ & _ & Hf & _ & Hout)]].
  - destruct (Hfatal nt Hnt Hfind Hdb) as [_ [e He]].
    rewrite He in Hexit. discriminate.
  - rewrite Hf in Hfind. cbn [fst] in Hfind. injection Hfind as ->.
    destruct Hout as [(Hk & _)|(_ & m & Hs & Hm & Hfst)]; [congruence|].
    exists m. split; [exact Hs|]. split; [exact Hm|]. split.
    + destruct Hm as (_ & _ & _ & Hb & _). intros Hnil. rewrite Hnil in Hb.
      inversion Hb as [Hsplit|]. cbn in Hsplit.
      exact (SplitSemi_nonempty _ (eq_sym Hsplit)).
    + rewrite Hfst in Hexit.
      destruct (snd (sendgrid (List.length (Program.handed o)) m));
        [discriminate | reflexivity].
Qed.

Lemma main_exit_ok_witness :
  let w := mkWorld [([Sample.T1; Sample.T2], "")] [] 0 0 in
  let o := Program.mkOutside [] [] in
  let r := Program.main Sample.env Sample.parseEmail Sample.rejecting
             (findNew Sample.env Synthetic.List) false Sample.environ 3 w o in
  fst (fst r) = Returned Program.Exit0
  /\ exists m,
       snd r = Program.mkOutside [] [m]
       /\ fst (Sample.rejecting 0 m) = 401
       /\ Notifier.BCCs m <> [].
Proof.
  intros w o r. split; [reflexivity|].
  destruct (main_exit_ok Sample.env Sample.parseEmail Sample.rejecting _
              (findNew Sample.env Synthetic.List) false Sample.environ 3 w o
              [Sample.T1; Sample.T2])
    as (m & Hs & _ & Hb & _).
  - reflexivity.
  - reflexivity.
  - reflexivity.
  - discriminate.
  - exists m. split; [exact Hs|]. split; [reflexivity | exact Hb].
Defined.

(** ** The first program *)

Section LegacyFacts.

Variable net : nat -> Legacy.request -> reply Form.Doc.
Variable setCookie : nat -> string.
Variable resolve : Url -> string -> result string.
Variable Join : string -> string -> string.
Variable openFault : nat -> option error.

Lemma Legacy_roundTrip_cases (req : Legacy.request) (sent : list Legacy.request) :
  snd (Legacy.roundTrip net req sent) = (sent ++ [req])%list
  /\ forall doc, net (List.length sent) req = Reply 200 (Decoded doc) ->
                 fst (Legacy.roundTrip net req sent) = Ok doc.
Proof.
  unfold Legacy.roundTrip. split.
  - destruct (net (List.length sent) req) as [e|status b]; [reflexivity|].
    destruct (status =? 200); [|reflexivity]. destruct b; reflexivity.
  - intros doc ->. reflexivity.
Qed.

(** [mark] never removes a path, and adds the path of the id exactly
    when it returns true. *)
Lemma Legacy_mark_cases (dir id : string) (d : Legacy.Disk) :
  let r := Legacy.mark Join openFault dir id d in
  (fst r = Ok true
   /\ Legacy.exists_ (Join dir id) d = false
   /\ Legacy.files (snd r) = (Legacy.files d ++ [Join dir id])%list)
  \/ (fst r <> Ok true /\ Legacy.files (snd r) = Legacy.files d).
Proof.
  unfold Legacy.mark. destruct (openFault (Legacy.opens d)); cbn.
  - right. split; [discriminate | reflexivity].
  - destruct (Legacy.exists_ (Join dir id) d) eqn:He; cbn.
    + right. split; [discriminate | reflexivity].
    + left. auto.
Qed.

Lemma existsb_eqb_app (p : string) (l1 l2 : list string) :
  existsb (String.eqb p) (l1 ++ l2)%list
  = existsb (String.eqb p) l1 || existsb (String.eqb p) l2.
Proof. apply existsb_app. Qed.

Lemma existsb_eqb_false (p : string) (l : list string) :
  existsb (String.eqb p) l = false <-> ~ In p l.
Proof.
  split.
  - intros H Hin. assert (existsb (String.eqb p) l = true); [|congruence].
    apply existsb_exists. exists p. split; [exact Hin | apply String.eqb_refl].
  - intros H. destruct (existsb (String.eqb p) l) eqn:E; [|reflexivity].
    apply existsb_exists in E as (q & Hq & Heq). apply String.eqb_eq in Heq.
    subst q. contradiction.
Qed.

(** The loop of [findNew]: the paths created are those of the records
    it has kept, none of them was there before, none is created
    twice. *)
Lemma Legacy_markAll_paths (dir : string) (ct nt : list Tender)
  (d : Legacy.Disk) :
  let r := Legacy.markAll Join openFault dir ct nt d in
  exists added kept,
    Legacy.files (snd r) = (Legacy.files d ++ added)%list
    /\ NoDup added
    /\ Forall (fun p => Legacy.exists_ p d = false) added
    /\ added = map (fun t => Join dir (ID t)) kept
    /\ (forall p, In p added -> exists t, In t ct /\ p = Join dir (ID t))
    /\ (forall out, fst r = (out, None) -> out = (nt ++ kept)%list).
Proof.
  cbv zeta. revert nt d. induction ct as [|t ct IH]; intros nt d;
    cbn [Legacy.markAll].
  - exists [], []. rewrite !app_nil_r. cbn.
    repeat split; try constructor.
    + intros p [].
    + intros out H. now injection H.
  - pose proof (Legacy_mark_cases dir (ID t) d) as Hm. cbv zeta in Hm.
    destruct (Legacy.mark Join openFault dir (ID t) d) as [[isNew|e] d1];
      cbn [fst snd] in *.
    + destruct (IH (if isNew then (nt ++ [t])%list else nt) d1)
        as (added & kept & Hf & Hn & Hfr & Hk & Hsrc & Hout).
      destruct Hm as [(Htrue & Hex & Hfiles)|[Hne Hfiles]].
      * injection Htrue as ->. rewrite Hfiles in Hf.
        exists (Join dir (ID t) :: added), (t :: kept).
        rewrite <- app_assoc in Hf. split; [exact Hf|].
        assert (Hfr' : Forall (fun p => Legacy.exists_ p d = false
                                        /\ p <> Join dir (ID t)) added).
        { eapply Forall_impl; [|exact Hfr]. cbv beta. intros p Hp.
          unfold Legacy.exists_ in Hp. rewrite Hfiles, existsb_eqb_app in Hp.
          apply orb_false_iff in Hp as [Hp1 Hp2]. split; [exact Hp1|].
          cbn in Hp2. rewrite orb_false_r in Hp2.
          now apply String.eqb_neq in Hp2. }
        split; [|split; [|split; [|split]]].
        -- constructor; [|exact Hn]. intros Hin.
           rewrite Forall_forall in Hfr'. now destruct (Hfr' _ Hin).
        -- constructor; [exact Hex|].
           eapply Forall_impl; [|exact Hfr']. cbv beta. now intros p [Hp _].
        -- cbn. now rewrite Hk.
        -- intros p [<-|Hin]; [exists t; split; [now left | reflexivity]|].
           destruct (Hsrc p Hin) as (t' & Ht' & ->). exists t'.
           split; [now right | reflexivity].
        -- intros out H. rewrite (Hout out H), <- app_assoc. reflexivity.
      * assert (isNew = false) as -> by (destruct isNew; congruence).
        rewrite Hfiles in Hf. exists added, kept.
        split; [exact Hf|]. split; [exact Hn|]. split.
        { eapply Forall_impl; [|exact Hfr]. cbv beta. intros p Hp.
          unfold Legacy.exists_ in *. now rewrite Hfiles in Hp. }
        split; [exact Hk|]. split; [|exact Hout].
        intros p Hin. destruct (Hsrc p Hin) as (t' & Ht' & ->). exists t'.
        split; [now right | reflexivity].
    + exists [], []. rewrite app_nil_r.
      destruct Hm as [(Htrue & _)|[_ Hfiles]]; [discriminate|].
      split; [exact Hfiles|]. repeat split; try constructor.
      * intros p [].
      * intros out H. discriminate.
Qed.

End LegacyFacts.

(** X15: the marks of the first program.  A run of its [findNew],
    however it ends, removes no file of the directory; the files it
    creates are the paths of fetched records, each created once, none
    of them there before.  When the fetch has failed, and so whenever a
    row of the page could not be read, no file is created and no record
    is returned.  When the run returns a list without an error, the
    files created are the paths of the records of the list, in order:
    no two of its records share a path and none of their paths was
    marked before. *)
Theorem Legacy_findNew_marks (net : nat -> Legacy.request -> reply Form.Doc)
  (setCookie : nat -> string) (resolve : Url -> string -> result string)
  (Join : string -> string -> string) (openFault : nat -> option error)
  (purl : Url) (dir : string) (st : list Legacy.request * Legacy.Disk) :
  let fetched := fst (Legacy.fetch net setCookie resolve purl (fst st)) in
  let r := Legacy.findNew net setCookie resolve Join openFault purl dir st in
  let path := fun t => Join dir (ID t) in
  (exists added,
     Legacy.files (snd (snd r)) = (Legacy.files (snd st) ++ added)%list
     /\ NoDup added
     /\ Forall (fun p => Legacy.exists_ p (snd st) = false) added
     /\ (forall p, In p added -> exists t, In t (fst fetched) /\ p = path t)
     /\ forall out, fst r = (out, None) ->
          added = map path out)
  /\ (forall e, snd fetched = Some e ->
                fst r = ([], Some e) /\ snd (snd r) = snd st).
Proof.
  cbv zeta. unfold Legacy.findNew.
  destruct (Legacy.fetch net setCookie resolve purl (fst st))
    as [[ct [e|]] sent'] eqn:Hfetch; cbn [fst snd].
  - split.
    + exists []. rewrite app_nil_r. repeat split; try constructor.
      * intros p [].
      * intros out H. discriminate.
    + intros e' H. injection H as <-. auto.
  - split; [|discriminate].
    destruct (Legacy_markAll_paths Join openFault dir ct [] (snd st))
      as (added & kept & Hf & Hn & Hfr & Hk & Hsrc & Hout).
    destruct (Legacy.markAll Join openFault dir ct [] (snd st)) as [r d'].
    cbn [fst snd] in *. exists added.
    split; [exact Hf|]. split; [exact Hn|]. split; [exact Hfr|].
    split; [exact Hsrc|].
    intros out H. rewrite (Hout out H). exact Hk.
Qed.

(** X16: the fetch of the first program, when the page of the form
    arrives.  [fetch] sends the request for the page and then one form,
    with the cookie of the first response; the form asks for the
    tenders of Halifax Regional Municipality (HRM) in pages of 100 by
    the button Filter and carries every other hidden field of the page
    as it stood there.  When the grid arrives, [fetch] returns the
    records of its data rows in order; at the first row that cannot be
    read it returns the error of that row together with the records of
    the rows before it. *)
Theorem Legacy_fetch_outcome (net : nat -> Legacy.request -> reply Form.Doc)
  (setCookie : nat -> string) (resolve : Url -> string -> result string)
  (purl : Url) (sent : list Legacy.request) (getDoc : Form.Doc) :
  net (List.length sent) Legacy.Get = Reply 200 (Decoded getDoc) ->
  let r := Legacy.fetch net setCookie resolve purl sent in
  let cookie := setCookie (List.length sent) in
  exists form,
    snd r = (sent ++ [Legacy.Get; Legacy.Post form cookie])%list
    /\ valueOf form (Form.field ++ "ddDeptAgency")
       = "Halifax Regional Municipality (HRM)"
    /\ valueOf form (Form.field ++ "ddPageSize") = "100"
    /\ valueOf form (Form.field ++ "btnFilter") = "Filter"
    /\ (forall k, ~ In k (filterKeys 1) ->
                  valueOf form k = valueOf (Form.hiddenValues getDoc) k)
    /\ forall postDoc,
         net (S (List.length sent)) (Legacy.Post form cookie)
         = Reply 200 (Decoded postDoc) ->
         match snd (fst r) with
         | None =>
             Forall2 (reads resolve purl) (dataRows (Form.grid postDoc))
                     (fst (fst r))
         | Some e =>
             exists good bad rest,
               Form.grid postDoc = (good ++ bad :: rest)%list
               /\ Form.tenderOf resolve purl bad = Err e
               /\ Forall2 (reads resolve purl) (dataRows good) (fst (fst r))
         end.
Proof.
  intros Hget r cookie. subst r cookie. unfold Legacy.fetch.
  destruct (Legacy_roundTrip_cases net Legacy.Get sent) as [Hs1 Hok1].
  specialize (Hok1 getDoc Hget).
  destruct (Legacy.roundTrip net Legacy.Get sent) as [r1 sent1].
  cbn [fst snd] in Hs1, Hok1. subst r1 sent1.
  match goal with
  | |- context [Legacy.Post ?f _] => set (form := f)
  end.
  exists form.
  destruct (Legacy_roundTrip_cases net
              (Legacy.Post form (setCookie (List.length sent)))
              (sent ++ [Legacy.Get])%list) as [Hs2 Hok2].
  rewrite length_app, Nat.add_comm in Hok2. cbn [List.length Nat.add] in Hok2.
  rewrite <- app_assoc in Hs2. cbn [app] in Hs2.
  split; [|split; [|split; [|split; [|split]]]].
  - destruct (Legacy.roundTrip net _ (sent ++ [Legacy.Get])%list) as [[d|e] s2];
      cbn [snd] in *; [|exact Hs2].
    destruct (fold_left _ (Form.grid d) (None, [])); exact Hs2.
  - subst form. rewrite !valueOf_Set. reflexivity.
  - subst form. rewrite !valueOf_Set. reflexivity.
  - subst form. rewrite !valueOf_Set. reflexivity.
  - intros k Hk. subst form. rewrite !valueOf_Set.
    assert (Hne : forall x, In x (filterKeys 1) -> String.eqb x k = false).
    { intros x Hx. apply String.eqb_neq. intros ->. contradiction. }
    rewrite !Hne by (cbn; auto 10). reflexivity.
  - intros postDoc Hpost. specialize (Hok2 postDoc Hpost).
    destruct (Legacy.roundTrip net _ (sent ++ [Legacy.Get])%list) as [r2 s2].
    cbn [fst] in Hok2. subst r2.
    destruct (fold_left (Form.each resolve purl) (Form.grid postDoc) (None, []))
      as [err ts] eqn:Hfold.
    apply Form_each_rows in Hfold. cbn [fst snd].
    destruct err as [e|].
    + destruct Hfold as (good & bad & rest & new & Hg & Hb & -> & Hnew).
      exists good, bad, rest. auto.
    + destruct Hfold as (new & -> & Hnew). exact Hnew.
Qed.

Lemma Legacy_fetch_outcome_witness :
  let r := Legacy.fetch Sample.legacyNet Sample.cookies Sample.formResolve
             (mkUrl "https://p.example" "/ns-tenders.aspx") [] in
  snd (fst r) = Some "T9 missing href"
  /\ map ID (fst (fst r)) = ["T1"]
  /\ exists form,
       snd r = [Legacy.Get; Legacy.Post form "ASP.NET_SessionId=abc"]
       /\ valueOf form "__VIEWSTATE" = "v0".
Proof.
  intros r. split; [reflexivity|]. split; [reflexivity|].
  destruct (Legacy_fetch_outcome Sample.legacyNet Sample.cookies
              Sample.formResolve (mkUrl "https://p.example" "/ns-tenders.aspx")
              [] (Form.mkDoc [("__VIEWSTATE", "v0")] []) eq_refl)
    as (form & Hs & _ & _ & _ & Hk & _).
  exists form. split; [exact Hs|]. rewrite Hk; [reflexivity|].
  intros Hin. cbn in Hin.
  repeat (destruct Hin as [Hin|Hin]; [discriminate|]). exact Hin.
Defined.

(** ** The two token clients *)

Section TokenVersions.

Variable net : nat -> Token.request -> reply Token.json.
Variable parseURL : string -> result string.
Hypothesis Hno : noDetail net parseURL.

Lemma Token_init_on_ready (s : Token.State) :
  Token.ready (Token.self s) = true -> Token.init net s = (Ok tt, s).
Proof. intros H. unfold Token.init, bind, get. now rewrite H. Qed.

(** The lookup of the closing location finds nothing to use. *)
Lemma Token_closing_noDetail (tenderId : string) (s : Token.State) :
  Token.ready (Token.self s) = true ->
  exists cURL,
    Token.tenderClosingLocationURL net parseURL tenderId s
    = (Ok cURL,
       Token.mkState (Token.self s)
         (Token.sent s
          ++ [Token.TenderById tenderId (Token.token (Token.self s))])%list)
    /\ String.eqb cURL "" || negb (Contains cURL "Detail") = true.
Proof.
  intros Hr. unfold Token.tenderClosingLocationURL. unfold bind at 1.
  rewrite (Token_init_on_ready s Hr). unfold bind at 1, get at 1.
  unfold bind at 1. unfold Token.roundTrip at 1.
  destruct (Hno (List.length (Token.sent s)) tenderId (Token.token (Token.self s)))
    as (body & -> & Hbody).
  cbn [Z.eqb Pos.eqb].
  destruct (Token.TenderDataList body) as [|td [|td' l]] eqn:Hl;
    try (exists ""; split; reflexivity).
  destruct (String.eqb (Token.ClosingLocation td) "") eqn:Hloc;
    [exists ""; split; reflexivity|].
  destruct (parseURL (Token.ClosingLocation td)) as [locU|e] eqn:Hp;
    [|exists ""; split; reflexivity].
  exists locU. split; [reflexivity|].
  destruct (Hbody td locU eq_refl Hp) as [H|H].
  - rewrite H in Hloc. discriminate.
  - rewrite H. apply orb_true_r.
Qed.

Lemma Token_tenderOf_noDetail (td : Token.tenderData) (s : Token.State) :
  Token.ready (Token.self s) = true ->
  fst (Token.tenderOf net parseURL td s)
  = TokenPlain.tenderOf (Token.u (Token.self s)) td
  /\ Token.self (snd (Token.tenderOf net parseURL td s)) = Token.self s.
Proof.
  intros Hr. unfold Token.tenderOf, TokenPlain.tenderOf.
  destruct (ParseDateOnly (Token.PostDate td)) as [pd|e]; [|split; reflexivity].
  destruct (String.length (Token.ClosingDate td) <? 10)%nat; [split; reflexivity|].
  destruct (ParseDateOnly _) as [cd|e]; [|split; reflexivity].
  destruct (Token_closing_noDetail (Token.TenderID td) s Hr) as (cURL & Hc & Hd).
  unfold bind, get, ret. rewrite Hc. cbn [fst snd Token.self].
  rewrite Hd. split; reflexivity.
Qed.

Lemma Token_tendersOf_noDetail (tds : list Token.tenderData) (acc : list Tender)
  (s : Token.State) :
  Token.ready (Token.self s) = true ->
  fst (Token.tendersOf net parseURL tds acc s)
  = TokenPlain.tendersOf (Token.u (Token.self s)) tds acc
  /\ Token.self (snd (Token.tendersOf net parseURL tds acc s)) = Token.self s.
Proof.
  revert acc s. induction tds as [|td tds IH]; intros acc s Hr;
    cbn [Token.tendersOf TokenPlain.tendersOf]; [split; reflexivity|].
  destruct (Token_tenderOf_noDetail td s Hr) as [Hf Hs].
  unfold bind at 1 2.
  destruct (Token.tenderOf net parseURL td s) as [[t|e] s1]; cbn [fst snd] in *.
  - rewrite <- Hf.
    assert (Hr1 : Token.ready (Token.self s1) = true) by now rewrite Hs.
    destruct (IH (acc ++ [t])%list s1 Hr1) as [Hf1 Hs1].
    rewrite Hs in Hf1, Hs1. auto.
  - rewrite <- Hf. auto.
Qed.

Lemma Token_List_on_ready (tok : string) (s : Token.State) :
  Token.ready (Token.self s) = true ->
  Token.List net parseURL tok s
  = match (if String.eqb tok "" then Ok 1 else Atoi tok) with
    | Err e => (Err e, s)
    | Ok page =>
        match Token.roundTrip net
                (Token.Tenders page (Token.token (Token.self s))) s with
        | (Err e, s1) => (Err e, s1)
        | (Ok (ReadFailed e), s1) | (Ok (Malformed e), s1) => (Err e, s1)
        | (Ok (Decoded respBody), s1) =>
            match Token.tendersOf net parseURL
                    (Token.TenderDataList respBody) [] s1 with
            | (Err e, s2) => (Err e, s2)
            | (Ok ts, s2) =>
                (Ok (ts, if (0 <? List.length ts)%nat then Itoa (incr page)
                         else ""), s2)
            end
        end
    end.
Proof.
  intros Hr. unfold Token.List. unfold bind at 1.
  rewrite (Token_init_on_ready s Hr). unfold bind, get, ret, fail.
  destruct (String.eqb tok ""); [|destruct (Atoi tok); [|reflexivity]];
    (destruct (Token.roundTrip net _ s) as [[[e|e|respBody]|e] s1];
       try reflexivity;
     destruct (Token.tendersOf net parseURL _ [] s1) as [[ts|e] s2];
       [|reflexivity];
     destruct (0 <? List.length ts)%nat; reflexivity).
Qed.

Lemma TokenPlain_List_on_ready (tok : string) (s : Token.State) :
  Token.ready (Token.self s) = true ->
  TokenPlain.List net tok s
  = match (if String.eqb tok "" then Ok 1 else Atoi tok) with
    | Err e => (Err e, s)
    | Ok page =>
        match Token.roundTrip net
                (Token.Tenders page (Token.token (Token.self s))) s with
        | (Err e, s1) => (Err e, s1)
        | (Ok (ReadFailed e), s1) | (Ok (Malformed e), s1) => (Err e, s1)
        | (Ok (Decoded respBody), s1) =>
            match TokenPlain.tendersOf (Token.u (Token.self s))
                    (Token.TenderDataList respBody) [] with
            | Err e => (Err e, s1)
            | Ok ts =>
                (Ok (ts, if (0 <? List.length ts)%nat then Itoa (incr page)
                         else ""), s1)
            end
        end
    end.
Proof.
  intros Hr. unfold TokenPlain.List. unfold bind at 1, get at 1.
  rewrite Hr. cbn [negb]. unfold bind, get, ret, fail.
  destruct (String.eqb tok ""); [|destruct (Atoi tok); [|reflexivity]];
    (destruct (Token.roundTrip net _ s) as [[[e|e|respBody]|e] s1];
       try reflexivity;
     destruct (TokenPlain.tendersOf _ _ []) as [ts|e]; [|reflexivity];
     destruct (0 <? List.length ts)%nat; reflexivity).
Qed.

End TokenVersions.

(** X17: the client with the lookup of the closing location and the
    client before it agree on a portal that offers no location with
    "Detail" and serves its pages alike throughout a session.  On
    clients that have their session, with the same base URL and bearer
    token, [List] returns the same records, cursor or error in both,
    and leaves both with the session they had, so that they agree on
    every call that follows. *)
Theorem Token_versions_agree (net : nat -> Token.request -> reply Token.json)
  (parseURL : string -> result string) (tok : string)
  (sA sC : Token.State) :
  noDetail net parseURL -> steadyPages net ->
  Token.ready (Token.self sA) = true ->
  Token.self sC = Token.self sA ->
  fst (Token.List net parseURL tok sA) = fst (TokenPlain.List net tok sC)
  /\ Token.self (snd (Token.List net parseURL tok sA)) = Token.self sA
  /\ Token.self (snd (TokenPlain.List net tok sC)) = Token.self sA.
Proof.
  intros Hno Hst Hr Hself.
  assert (HrC : Token.ready (Token.self sC) = true) by now rewrite Hself.
  rewrite (Token_List_on_ready net parseURL tok sA Hr).
  rewrite (TokenPlain_List_on_ready net tok sC HrC). rewrite Hself.
  destruct (if String.eqb tok "" then Ok 1 else Atoi tok) as [page|e];
    [|cbn [fst snd]; auto].
  pose proof (Token_roundTrip_self net
                (Token.Tenders page (Token.token (Token.self sA))) sA) as HsA.
  pose proof (Token_roundTrip_self net
                (Token.Tenders page (Token.token (Token.self sA))) sC) as HsC.
  assert (Hsame : fst (Token.roundTrip net
                         (Token.Tenders page (Token.token (Token.self sA))) sA)
                  = fst (Token.roundTrip net
                           (Token.Tenders page (Token.token (Token.self sA))) sC)).
  { unfold Token.roundTrip.
    rewrite (Hst (List.length (Token.sent sA)) (List.length (Token.sent sC))).
    destruct (net _ _) as [e|status b]; [reflexivity|].
    destruct (status =? 200); [|reflexivity]. destruct b; reflexivity. }
  destruct (Token.roundTrip net _ sA) as [rA s1].
  destruct (Token.roundTrip net _ sC) as [rC s2].
  cbn [fst snd] in HsA, HsC, Hsame. subst rC.
  destruct rA as [[e|e|respBody]|e]; cbn [fst snd];
    try (repeat split; congruence).
  assert (Hr1 : Token.ready (Token.self s1) = true) by now rewrite HsA.
  destruct (Token_tendersOf_noDetail net parseURL Hno
              (Token.TenderDataList respBody) [] s1 Hr1) as [Hf Hs].
  rewrite HsA in Hf, Hs.
  destruct (Token.tendersOf net parseURL (Token.TenderDataList respBody) [] s1)
    as [[ts|e] s3]; cbn [fst snd] in *; rewrite <- Hf; cbn [fst snd];
    repeat split; congruence.
Qed.

Lemma Token_versions_agree_witness :
  let s := Token.mkState (Token.mkClient Sample.portal true "jwt") [] in
  fst (Token.List (pagedPortal [Sample.td1]) (fun s => Ok s) "" s)
  = fst (TokenPlain.List (pagedPortal [Sample.td1]) "" s)
  /\ exists t, fst (TokenPlain.List (pagedPortal [Sample.td1]) "" s)
               = Ok ([t], "2")
               /\ URL t = "https://portal.example/tenders/T1".
Proof.
  intros s. split.
  - apply (Token_versions_agree (pagedPortal [Sample.td1]) (fun s => Ok s) "" s s).
    + intros n tenderId bearer. exists (Token.mkJson "" []).
      split; [reflexivity|]. intros td locU H. discriminate.
    + intros n m page bearer. reflexivity.
    + reflexivity.
    + reflexivity.
  - eexists. split; reflexivity.
Defined.

(** ** A first run over a whole portal *)

Lemma Forall2_firstn {A B : Type} (R : A -> B -> Prop) (n : nat)
  (l : list A) (l' : list B) :
  Forall2 R l l' -> Forall2 R (firstn n l) (firstn n l').
Proof.
  intros H. revert n. induction H; intros [|n]; cbn; constructor; auto.
Qed.

Lemma Forall2_skipn {A B : Type} (R : A -> B -> Prop) (n : nat)
  (l : list A) (l' : list B) :
  Forall2 R l l' -> Forall2 R (skipn n l) (skipn n l').
Proof.
  intros H. revert n. induction H; intros [|n]; cbn; auto.
Qed.

Lemma Forall2_pageOf {A B : Type} (R : A -> B -> Prop) (size page : Z)
  (l : list A) (l' : list B) :
  Forall2 R l l' -> Forall2 R (pageOf l size page) (pageOf l' size page).
Proof. intros H. unfold pageOf. now apply Forall2_firstn, Forall2_skipn. Qed.

Lemma TokenPlain_tendersOf_ok (base : Url) (tds : list Token.tenderData)
  (ts acc : list Tender) :
  Forall2 (fun td t => TokenPlain.tenderOf base td = Ok t) tds ts ->
  TokenPlain.tendersOf base tds acc = Ok (acc ++ ts)%list.
Proof.
  intros H. revert acc. induction H as [|td t tds ts Ht _ IH]; intros acc; cbn.
  - now rewrite app_nil_r.
  - rewrite Ht, IH, <- app_assoc. reflexivity.
Qed.

(** A page of records that are new and do not stop the run, on a
    database that answers: every record is stored and reported. *)
Lemma rangePage_all_new (E : Env) (C : Type) (stop : Tender -> bool)
  (ct nt : list Tender) (w : World C) :
  (forall n, healthy E n) ->
  Forall (fun t => stop t = false) ct ->
  NoDup (map ID ct) ->
  Forall (fun t => hasId (ID t) (rows w) = false) ct ->
  exists w' added,
    rangePage E stop ct nt w = (NextPage (nt ++ ct)%list, w')
    /\ cli w' = cli w
    /\ rows w' = (rows w ++ added)%list
    /\ Forall2 written ct added
    /\ map id added = map ID ct.
Proof.
  intros Hh Hstop. revert nt w.
  induction Hstop as [|t ct Ht _ IH]; intros nt w Hnd Hnew; cbn [rangePage].
  - exists w, []. rewrite !app_nil_r. repeat split. constructor.
  - inversion Hnd as [|? ? Hnotin Hnd']; subst.
    inversion Hnew as [|? ? Hid Hnew']; subst.
    rewrite (add_healthy E C t w (Hh _)), Hid, Ht. cbn [negb].
    set (w1 := mkWorld (cli w) (rows w ++ [rowOf t (clock E (ticks w))])%list
                       (S (stmts w)) (S (ticks w))).
    destruct (IH (nt ++ [t])%list w1 Hnd') as (w' & added & Hrun & Hc & Hr & Hw & Hids).
    { apply Forall_forall. intros t' Hin. cbn [rows w1].
      rewrite hasId_app. rewrite Forall_forall in Hnew'. rewrite (Hnew' t' Hin).
      cbn. rewrite orb_false_r. apply String.eqb_neq. intros Heq.
      apply Hnotin. rewrite Heq. now apply in_map. }
    exists w', (rowOf t (clock E (ticks w)) :: added).
    rewrite Hrun, <- app_assoc. split; [reflexivity|]. split; [exact Hc|].
    split; [rewrite Hr; cbn [rows w1]; now rewrite <- app_assoc|].
    split; [constructor; [now eexists | exact Hw]|].
    cbn. now rewrite Hids.
Qed.

Lemma NoDup_app_disjoint {A : Type} (l1 l2 : list A) (a : A) :
  NoDup (l1 ++ l2) -> In a l1 -> ~ In a l2.
Proof.
  induction l1 as [|b l1 IH]; cbn; [intros _ []|].
  intros H [->|Hin] Hin2; inversion H as [|? ? Hnot Hnd]; subst.
  - apply Hnot, in_or_app. now right.
  - exact (IH Hnd Hin Hin2).
Qed.

Section WholePortal.

Variable E : Env.
Variable recs : list Token.tenderData.
Variable ts : list Tender.
Variable base : Url.

Hypothesis Hhealthy : forall n, healthy E n.
Hypothesis Hgood :
  Forall2 (fun td t => TokenPlain.tenderOf base td = Ok t) recs ts.

Let net := pagedPortal recs.

(** What [List] returns for the page [k] of the portal. *)
Lemma TokenPlain_List_page (tok : string) (k : Z) (s : Token.State) :
  Token.u (Token.self s) = base ->
  Token.ready (Token.self s) = true \/ tok = "" ->
  (if String.eqb tok "" then Ok 1 else Atoi tok) = Ok k ->
  exists s',
    TokenPlain.List net tok s
    = (Ok (pageOf ts 25 k,
           if (0 <? List.length (pageOf ts 25 k))%nat then Itoa (incr k) else ""),
       s')
    /\ Token.u (Token.self s') = base
    /\ Token.ready (Token.self s') = true.
Proof.
  intros Hu Hready Hk.
  assert (Hpage : TokenPlain.tendersOf base (pageOf recs 25 k) []
                  = Ok (pageOf ts 25 k)).
  { rewrite (TokenPlain_tendersOf_ok base (pageOf recs 25 k) (pageOf ts 25 k) []);
      [reflexivity | apply Forall2_pageOf, Hgood]. }
  destruct (Token.ready (Token.self s)) eqn:Hr.
  - rewrite (TokenPlain_List_on_ready net tok s Hr), Hk.
    unfold Token.roundTrip, net, pagedPortal. cbn [Z.eqb Pos.eqb].
    cbn [Token.TenderDataList]. rewrite Hu, Hpage.
    eexists. split; [reflexivity|]. cbn [Token.self]. auto.
  - destruct Hready as [Hready| ->]; [discriminate|].
    cbn [String.eqb] in Hk. injection Hk as <-.
    unfold TokenPlain.List. unfold bind at 1, get at 1. rewrite Hr.
    cbn [negb String.eqb]. unfold bind at 1. unfold bind at 1.
    unfold TokenPlain.init. unfold bind at 1.
    unfold Token.roundTrip at 1, net at 1, pagedPortal at 1.
    cbn [Z.eqb Pos.eqb Token.JWTToken String.eqb Ascii.eqb Bool.eqb].
    unfold modify at 1. unfold modify at 1.
    cbn [Token.self Token.u Token.ready Token.token Token.sent].
    unfold bind at 1, ret at 1. unfold bind at 1, get at 1.
    unfold bind at 1.
    unfold Token.roundTrip at 1, net at 1, pagedPortal at 1.
    cbn [Z.eqb Pos.eqb Token.self Token.token Token.sent Token.u
         Token.TenderDataList].
    rewrite Hu, Hpage.
    destruct (0 <? List.length (pageOf ts 25 1))%nat; unfold ret;
      (eexists; split; [reflexivity|]; cbn [Token.self Token.u Token.ready]; auto).
Qed.

Hypothesis Hsize : Z.of_nat (List.length ts) < 2 ^ 62.

(** The loop of [findNew] from the page [k] on, when the records from
    that page on are new. *)
Lemma TokenPlain_loop (fuel : nat) (stop : Tender -> bool) (k : Z) (tok : string)
  (nt : list Tender) (w : World Token.State) :
  let rest := skipn (Z.to_nat (25 * (k - 1))) ts in
  1 <= k -> k - 1 <= Z.of_nat (List.length ts) ->
  (if String.eqb tok "" then Ok 1 else Atoi tok) = Ok k ->
  Token.u (Token.self (cli w)) = base ->
  Token.ready (Token.self (cli w)) = true \/ tok = "" ->
  Forall (fun t => stop t = false) rest ->
  NoDup (map ID rest) ->
  Forall (fun t => hasId (ID t) (rows w) = false) rest ->
  (List.length rest + 25 <= 25 * fuel)%nat ->
  exists w' added,
    pageLoop E (fun tok => withoutClock (TokenPlain.List net tok)) fuel stop
             tok nt w
    = (Returned ((nt ++ rest)%list, None), w')
    /\ rows w' = (rows w ++ added)%list
    /\ Forall2 written rest added.
Proof.
  cbv zeta. revert k tok nt w.
  induction fuel as [|fuel IH]; intros k tok nt w Hk1 Hk2 Htok Hu Hready
    Hstop Hnd Hnew Hfuel; [lia|].
  cbn [pageLoop].
  destruct (TokenPlain_List_page tok k (cli w) Hu Hready Htok)
    as (s' & HL & Hu' & Hr').
  assert (Hincr : incr k = k + 1).
  { apply incr_small. assert (2 ^ 62 < 2 ^ 63) by reflexivity. lia. }
  rewrite Hincr in HL.
  assert (Hcall : callList (fun tok => withoutClock (TokenPlain.List net tok))
                           tok w
                  = (Ok (pageOf ts 25 k,
                         if (0 <? List.length (pageOf ts 25 k))%nat
                         then Itoa (k + 1) else ""),
                     mkWorld s' (rows w) (stmts w) (ticks w))).
  { unfold callList, withoutClock. cbn [fst snd]. now rewrite HL. }
  rewrite Hcall. clear HL Hcall.
  remember (skipn (Z.to_nat (25 * (k - 1))) ts) as rest eqn:Erest.
  assert (Hsplit : rest = (pageOf ts 25 k
                           ++ skipn (Z.to_nat (25 * k)) ts)%list).
  { unfold pageOf. rewrite <- Erest.
    replace (Z.to_nat (25 * k)) with (Z.to_nat 25 + Z.to_nat (25 * (k - 1)))%nat
      by lia.
    rewrite <- skipn_skipn, <- Erest. symmetry. apply firstn_skipn. }
  assert (Hplen : List.length (pageOf ts 25 k) = Nat.min 25 (List.length rest)).
  { unfold pageOf. rewrite <- Erest, length_firstn. reflexivity. }
  assert (Hrlen : List.length rest
                  = (List.length ts - Z.to_nat (25 * (k - 1)))%nat).
  { rewrite Erest. apply length_skipn. }
  remember (pageOf ts 25 k) as page eqn:Epage.
  remember (skipn (Z.to_nat (25 * k)) ts) as rest' eqn:Erest'.
  set (w1 := mkWorld s' (rows w) (stmts w) (ticks w)).
  rewrite Hsplit in Hstop, Hnd, Hnew.
  apply Forall_app in Hstop as [Hstop1 Hstop2].
  apply Forall_app in Hnew as [Hnew1 Hnew2].
  rewrite map_app in Hnd.
  pose proof (NoDup_app_remove_r _ _ Hnd) as Hnd1.
  pose proof (NoDup_app_remove_l _ _ Hnd) as Hnd2.
  destruct (rangePage_all_new E _ stop page nt w1 Hhealthy Hstop1 Hnd1 Hnew1)
    as (w2 & added & Hrun & Hc & Hrows & Hw & Hids).
  rewrite Hrun.
  destruct page as [|t0 page0].
  - cbn [List.length Nat.ltb Nat.leb String.eqb].
    assert (Hrest : rest = []).
    { cbn [List.length] in Hplen. destruct rest; [reflexivity|].
      cbn [List.length] in Hplen. lia. }
    exists w2, added. rewrite Hrest. split; [reflexivity|].
    split; [exact Hrows|]. inversion Hw; subst. constructor.
  - replace (0 <? List.length (t0 :: page0))%nat with true by reflexivity.
    rewrite Itoa_eqb.
    assert (Hlen : (List.length rest > 0)%nat).
    { rewrite Hsplit. cbn. lia. }
    assert (Hk3 : 25 * (k - 1) < Z.of_nat (List.length ts)) by lia.
    assert (Hin : inInt64 (k + 1) = true).
    { unfold inInt64. apply andb_true_iff. rewrite Z.leb_le, Z.ltb_lt.
      assert (2 ^ 62 < 2 ^ 63) by reflexivity. lia. }
    cbn [List.length] in Hplen.
    assert (Ek : k + 1 - 1 = k) by lia.
    destruct (IH (k + 1) (Itoa (k + 1)) (nt ++ t0 :: page0)%list w2)
      as (w' & added' & Hloop & Hrows' & Hw').
    + lia.
    + lia.
    + rewrite Itoa_eqb. now apply Atoi_Itoa.
    + rewrite Hc. exact Hu'.
    + left. rewrite Hc. exact Hr'.
    + rewrite Ek, <- Erest'. exact Hstop2.
    + rewrite Ek, <- Erest'. exact Hnd2.
    + rewrite Ek, <- Erest'.
      apply Forall_forall. intros t Hin'. rewrite Hrows, hasId_app.
      rewrite Forall_forall in Hnew2. cbn [rows w1]. rewrite (Hnew2 t Hin').
      cbn [orb]. apply hasId_false_iff. rewrite Hids. intros Hin2.
      apply (NoDup_app_disjoint _ _ _ Hnd Hin2). now apply in_map.
    + rewrite Ek, <- Erest'.
      assert (Hl2 : List.length rest' = (List.length rest - 25)%nat).
      { rewrite Erest', Hrlen, length_skipn. lia. }
      rewrite Hl2. lia.
    + rewrite Ek, <- Erest' in Hloop, Hw'.
      exists w', (added ++ added')%list. rewrite Hloop.
      rewrite Hsplit, <- !app_assoc. split; [reflexivity|].
      split; [rewrite Hrows', Hrows; cbn [rows w1]; now rewrite app_assoc|].
      apply Forall2_app; assumption.
Qed.

End WholePortal.

(** X18: a first run over a whole portal.  The portal holds records
    that the client can read, with ids that differ and dates of issue
    from year 1 on, and serves them in pages of 25; the database
    answers; the store is empty.  Then [findNew] of the token client
    asks for page after page until the empty one, returns every record
    of the portal, in the order of the portal, without an error, and
    leaves one row for each of them in the store. *)
Theorem TokenPlain_first_run (E : Env) (recs : list Token.tenderData)
  (ts : list Tender) (base : Url) (fuel : nat) (w : World Token.State) :
  (forall n, healthy E n) ->
  Forall2 (fun td t => TokenPlain.tenderOf base td = Ok t) recs ts ->
  NoDup (map ID ts) ->
  Forall (fun t => Before (IssuedDate t) zeroTime = false) ts ->
  Z.of_nat (List.length ts) < 2 ^ 62 ->
  rows w = [] ->
  Token.u (Token.self (cli w)) = base ->
  (List.length ts + 25 <= 25 * fuel)%nat ->
  exists w',
    TokenPlain.findNew (pagedPortal recs) E fuel w = (Returned (ts, None), w')
    /\ Forall2 written ts (rows w').
Proof.
  intros Hh Hgood Hnd Hissued Hsize Hrows Hu Hfuel.
  unfold TokenPlain.findNew, findNew.
  unfold maxIssued, maxOf, bind, queryMax.
  rewrite (proj1 (Hh (stmts w))), Hrows. cbn [sqlMax ret].
  replace (negb (IsZero zeroTime)) with false by reflexivity.
  pose proof (TokenPlain_loop E recs ts base Hh Hgood Hsize fuel
                (fun t => Before (IssuedDate t) zeroTime) 1 "" []
                (mkWorld (cli w) [] (S (stmts w)) (ticks w))) as H.
  cbv zeta in H. change (Z.to_nat (25 * (1 - 1))) with 0%nat in H.
  cbn [skipn rows cli app] in H.
  assert (Hnew : Forall (fun t => hasId (ID t) [] = false) ts).
  { apply Forall_forall. intros t _. reflexivity. }
  destruct (H ltac:(lia) ltac:(lia) eq_refl Hu (or_intror eq_refl)
              Hissued Hnd Hnew Hfuel) as (w' & added & Hloop & Hrows' & Hw).
  exists w'. split; [exact Hloop|]. rewrite Hrows'. exact Hw.
Qed.

Lemma TokenPlain_first_run_witness :
  exists w',
    TokenPlain.findNew (pagedPortal Sample.portal26) Sample.env 3
                       (Sample.empty Sample.fresh)
    = (Returned (Sample.records26, None), w')
    /\ List.length (rows w') = 26%nat
    /\ Token.sent (cli w')
       = [Token.Authenticate; Token.Tenders 1 "jwt"; Token.Tenders 2 "jwt";
          Token.Tenders 3 "jwt"].
Proof.
  destruct (TokenPlain_first_run Sample.env Sample.portal26 Sample.records26
              Sample.portal 3 (Sample.empty Sample.fresh))
    as (w' & Hrun & Hw).
  - intros n. split; reflexivity.
  - unfold Sample.portal26, Sample.records26.
    generalize (seq 1 26). intros l. induction l as [|i l IH]; cbn [map];
      constructor; [reflexivity | exact IH].
  - vm_compute. repeat constructor;
      (intros H; cbn in H;
       repeat (destruct H as [H|H]; [discriminate|]); exact H).
  - unfold Sample.records26. generalize (seq 1 26). intros l.
    induction l; cbn [map]; constructor; [reflexivity | assumption].
  - vm_compute. reflexivity.
  - reflexivity.
  - reflexivity.
  - vm_compute. lia.
  - exists w'. split; [exact Hrun|].
    assert (Hlen : List.length (rows w') = List.length Sample.records26).
    { clear -Hw. induction Hw; cbn; congruence. }
    split; [rewrite Hlen; reflexivity|].
    assert (Hc : snd (TokenPlain.findNew (pagedPortal Sample.portal26)
                        Sample.env 3 (Sample.empty Sample.fresh)) = w')
      by now rewrite Hrun.
    rewrite <- Hc. vm_compute. reflexivity.
Defined.

(** ** The look-back of the cutoff *)

Lemma daysIn_bounds (m y : Z) : 28 <= daysIn m y <= 31.
Proof.
  unfold daysIn. destruct (isLeap y); destruct m as [|p|p]; try lia;
    repeat (destruct p as [p|p|]; cbn; try lia).
Qed.

Lemma wf_clock (t : Time) :
  wf t = true -> 0 <= tSec t < 86400 /\ 0 <= tNsec t < 1000000000.
Proof.
  unfold wf. rewrite !andb_true_iff, !Z.leb_le, !Z.ltb_lt. tauto.
Qed.

Lemma normMonth_bounds (y m : Z) :
  1 <= snd (normMonth y m) <= 12
  /\ 12 * fst (normMonth y m) + snd (normMonth y m) = 12 * y + m.
Proof.
  unfold normMonth. cbn [fst snd].
  pose proof (Z.mod_pos_bound (m - 1) 12 ltac:(lia)).
  pose proof (Z.div_mod (m - 1) 12 ltac:(lia)). lia.
Qed.

(** X19: the cutoff of [findNew] lies [k] months back as
    [AddDate(0, k, 0)] counts them.  From a date and a time as
    [time.Parse] and [time.Now] give them, the result is the same day
    and time of the month [k] months away when that month has the day;
    when it is shorter, the day runs over into the month after it (from
    March 31 a month back is March 3, or March 2 in a leap year).  The
    result is again such a date, and for [k < 0] it is before the
    date it was counted from. *)
Theorem AddDate_months (t : Time) (k : Z) :
  wf t = true ->
  let target := normMonth (tYear t) (tMonth t + k) in
  let over := normMonth (fst target) (snd target + 1) in
  let short := daysIn (snd target) (fst target) in
  AddDate t 0 k 0
  = (if tDay t <=? short
     then mkTime (fst target) (snd target) (tDay t) (tSec t) (tNsec t)
     else mkTime (fst over) (snd over) (tDay t - short) (tSec t) (tNsec t))
  /\ wf (AddDate t 0 k 0) = true
  /\ (k < 0 -> Before (AddDate t 0 k 0) t = true).
Proof.
  intros Hwf target over short.
  destruct (wf_clock t Hwf) as [Hs Hn].
  apply wf_bounds in Hwf as (Hm & Hd & _).
  pose proof (daysIn_bounds (tMonth t) (tYear t)) as Hdi.
  pose proof (daysIn_bounds (snd target) (fst target)) as Hsh. fold short in Hsh.
  pose proof (daysIn_bounds (snd over) (fst over)) as Hov.
  destruct (normMonth_bounds (tYear t) (tMonth t + k)) as [Ht1 Ht2].
  fold target in Ht1, Ht2.
  destruct (normMonth_bounds (fst target) (snd target + 1)) as [Ho1 Ho2].
  fold over in Ho1, Ho2.
  assert (Heq : AddDate t 0 k 0
                = if tDay t <=? short
                  then mkTime (fst target) (snd target) (tDay t) (tSec t) (tNsec t)
                  else mkTime (fst over) (snd over) (tDay t - short)
                              (tSec t) (tNsec t)).
  { unfold AddDate, Date.
    replace (tYear t + 0) with (tYear t) by lia.
    replace (tDay t + 0) with (tDay t) by lia.
    rewrite (Z.div_small (tNsec t)) by lia.
    replace (tSec t + 0) with (tSec t) by lia.
    rewrite (Z.div_small (tSec t)) by lia.
    rewrite (Z.mod_small (tSec t)) by lia.
    rewrite (Z.mod_small (tNsec t)) by lia.
    replace (tDay t + 0) with (tDay t) by lia.
    fold target. destruct target as [y1 m1] eqn:Et. cbn [fst snd] in *.
    destruct (Z.to_nat (Z.abs (tDay t))) as [|f] eqn:Ef; [lia|].
    cbn [normDay].
    replace (tDay t <? 1) with false by (symmetry; apply Z.ltb_ge; lia).
    fold short. destruct (tDay t <=? short) eqn:Hle.
    - apply Z.leb_le in Hle.
      replace (short <? tDay t) with false by (symmetry; apply Z.ltb_ge; lia).
      reflexivity.
    - apply Z.leb_gt in Hle.
      replace (short <? tDay t) with true by (symmetry; apply Z.ltb_lt; lia).
      fold over. destruct over as [y2 m2] eqn:Eo. cbn [fst snd] in *.
      destruct f as [|f]; [lia|]. cbn [normDay].
      replace (tDay t - short <? 1) with false
        by (symmetry; apply Z.ltb_ge; lia).
      replace (daysIn m2 y2 <? tDay t - short) with false
        by (symmetry; apply Z.ltb_ge; lia).
      reflexivity. }
  split; [exact Heq|]. rewrite Heq.
  destruct (tDay t <=? short) eqn:Hle;
    [apply Z.leb_le in Hle | apply Z.leb_gt in Hle].
  - split.
    + unfold wf. cbn [tYear tMonth tDay tSec tNsec]. fold short.
      rewrite !andb_true_iff, !Z.leb_le, !Z.ltb_lt. lia.
    + intros Hk. unfold Before, compare. cbn [tYear tMonth tDay tSec tNsec].
      destruct (Z.compare_spec (fst target) (tYear t)) as [Ey|Ey|Ey];
        [|reflexivity | lia].
      destruct (Z.compare_spec (snd target) (tMonth t)) as [Em|Em|Em];
        [lia | reflexivity | lia].
  - split.
    + unfold wf. cbn [tYear tMonth tDay tSec tNsec].
      rewrite !andb_true_iff, !Z.leb_le, !Z.ltb_lt. lia.
    + intros Hk. unfold Before, compare. cbn [tYear tMonth tDay tSec tNsec].
      destruct (Z.compare_spec (fst over) (tYear t)) as [Ey|Ey|Ey];
        [|reflexivity | lia].
      destruct (Z.compare_spec (snd over) (tMonth t)) as [Em|Em|Em];
        [|reflexivity | lia].
      destruct (Z.compare_spec (tDay t - short) (tDay t)) as [Ed|Ed|Ed];
        [lia | reflexivity | lia].
Qed.

Lemma AddDate_months_witness :
  AddDate (mkTime 2023 3 31 0 0) 0 (-1) 0 = mkTime 2023 3 3 0 0
  /\ AddDate (mkTime 2024 3 31 0 0) 0 (-1) 0 = mkTime 2024 3 2 0 0
  /\ AddDate (mkTime 2025 1 15 36000 0) 0 (-4) 0 = mkTime 2024 9 15 36000 0.
Proof.
  split; [|split].
  - exact (proj1 (AddDate_months (mkTime 2023 3 31 0 0) (-1) eq_refl)).
  - exact (proj1 (AddDate_months (mkTime 2024 3 31 0 0) (-1) eq_refl)).
  - exact (proj1 (AddDate_months (mkTime 2025 1 15 36000 0) (-4) eq_refl)).
Defined.

(** ** The capture buffer in [List] *)

Lemma hook_fold (rs : list Browser.response) (q : list Browser.RawTenders) :
  fold_left Browser.hook rs q = (q ++ captured rs)%list.
Proof.
  unfold captured. revert q. induction rs as [|r rs IH]; intros q; cbn [fold_left].
  - now rewrite app_nil_r.
  - rewrite IH, (IH (Browser.hook [] r)). rewrite app_assoc. f_equal.
    unfold Browser.hook.
    destruct (negb (Contains (Browser.respURL r) "/Module/Tenders/en/Tender/Search/"));
      [now rewrite app_nil_r|].
    destruct (Browser.respBody r); try now rewrite app_nil_r.
    reflexivity.
Qed.

Lemma captured_app (x y : list Browser.response) :
  captured (x ++ y) = (captured x ++ captured y)%list.
Proof. unfold captured at 1. rewrite fold_left_app. apply hook_fold. Qed.

Section BrowserBuffer.

Variable E : Env.
Variable browser : nat -> Browser.action -> Browser.outcome.
Variable resolveRef : Url -> string -> string.

Lemma Browser_perform_ok (a : Browser.action) (wrap : string)
  (sk sk' : Browser.State * nat) (b : bool) :
  Browser.hooked (fst sk) = true ->
  Browser.perform browser a wrap sk = (Ok b, sk') ->
  b = Browser.enabled (browser (List.length (Browser.done (fst sk))) a)
  /\ sk' = (Browser.mkState
              (Browser.mkClient
                 (Browser.u (Browser.self (fst sk)))
                 (Browser.ready (Browser.self (fst sk)))
                 (Browser.responses (Browser.self (fst sk))
                  ++ captured (Browser.arrived
                                 (browser (List.length (Browser.done (fst sk))) a)))%list)
              (Browser.done (fst sk) ++ [a])%list true,
            snd sk).
Proof.
  intros Hh. unfold Browser.perform. rewrite Hh, hook_fold.
  destruct (Browser.failure _); [discriminate|].
  intros H. injection H as <- <-. auto.
Qed.

Lemma Browser_tendersOf_ok (base : Url) (ds : list Browser.RawTender)
  (acc ts : list Tender) (sk sk' : Browser.State * nat) :
  Browser.tendersOf E resolveRef base ds acc sk = (Ok ts, sk') ->
  fst sk' = fst sk
  /\ List.length ts = (List.length acc + List.length ds)%nat.
Proof.
  revert acc sk. induction ds as [|d ds IH]; intros acc sk; cbn [Browser.tendersOf].
  - unfold ret. intros H. injection H as <- <-. cbn. auto.
  - intros H. apply bind_ok in H as (t & sk1 & Ht & H).
    apply IH in H as [Hs Hl].
    assert (Hs1 : fst sk1 = fst sk).
    { revert Ht. unfold Browser.tenderOf.
      destruct (CutSpace (Browser.Title d)) as [[id rest] ok].
      destruct (negb ok); [discriminate|].
      destruct (ParseDisplay _); [|discriminate].
      destruct (ParseDisplay _); [|discriminate].
      unfold bind, Browser.now, ret. intros H. now injection H as _ <-. }
    split; [congruence|]. rewrite Hl, length_app. cbn. lia.
Qed.

End BrowserBuffer.

(** X20: what [List] of the browser client does to the capture buffer.
    On a client that has its session, a call that returns a page has
    clicked "next page" if it was given a cursor, waited for the table
    and asked whether "next page" is enabled, and nothing else.  It has
    taken the oldest payload of the buffer: that payload followed by
    the buffer after the call is the buffer before the call followed by
    the payloads captured during these actions, in the order of their
    arrival; and the page has one record for every entry of the
    payload. *)
Theorem Browser_List_consumes (E : Env)
  (browser : nat -> Browser.action -> Browser.outcome)
  (resolveRef : Url -> string -> string) (tok : string)
  (sk sk' : Browser.State * nat) (ts : list Tender) (next : string) :
  Browser.ready (Browser.self (fst sk)) = true ->
  Browser.hooked (fst sk) = true ->
  Browser.List E browser resolveRef tok sk = (Ok (ts, next), sk') ->
  let new := ((if String.eqb tok "" then [] else [Browser.ClickNext])
              ++ [Browser.WaitForTable; Browser.IsEnabledNext])%list in
  Browser.done (fst sk') = (Browser.done (fst sk) ++ new)%list
  /\ exists r,
       (r :: Browser.responses (Browser.self (fst sk')))
       = (Browser.responses (Browser.self (fst sk))
          ++ captured (arrivalsOf browser (List.length (Browser.done (fst sk)))
                                  new))%list
       /\ List.length ts = List.length (Browser.Data r).
Proof.
  intros Hr Hh H. unfold Browser.List in H.
  apply bind_ok in H as ([] & s0 & Hi & H).
  rewrite (Browser_init_ready browser sk Hr) in Hi. injection Hi as <-.
  apply bind_ok in H as (b1 & s1 & H1 & H).
  apply bind_ok in H as (b2 & s2 & H2 & H).
  apply bind_ok in H as (s3 & s4 & Hg & H).
  unfold get in Hg. injection Hg as <- <-.
  destruct (Browser.dequeue (Browser.responses (Browser.self (fst s2))))
    as [[r q']|] eqn:Hq; [|discriminate].
  apply bind_ok in H as ([] & s5 & Hset & H).
  unfold Browser.setSelf, modify in Hset. injection Hset as <-.
  apply bind_ok in H as (tenders & s6 & Hts & H).
  apply Browser_tendersOf_ok in Hts as [Hs6 Hlen]. cbn [fst snd] in Hs6.
  apply bind_ok in H as (ok & s7 & H3 & H).
  unfold ret in H. injection H as <- _ <-.
  assert (Hh6 : Browser.hooked (fst s6) = true).
  { rewrite Hs6. cbn [Browser.hooked].
    destruct (negb (String.eqb tok "")); [|unfold ret in H1; injection H1 as _ <-].
    - apply Browser_perform_ok in H1 as [_ ->]; [|exact Hh].
      apply Browser_perform_ok in H2 as [_ ->]; reflexivity.
    - apply Browser_perform_ok in H2 as [_ ->]; [reflexivity | exact Hh]. }
  apply Browser_perform_ok in H3 as [_ ->]; [|exact Hh6].
  rewrite Hs6. cbn [fst Browser.done Browser.self Browser.responses].
  unfold Browser.dequeue in Hq.
  destruct (Browser.responses (Browser.self (fst s2))) as [|r0 q0] eqn:Hq2;
    [discriminate|]. injection Hq as -> ->.
  destruct (String.eqb tok "") eqn:Htok; cbn [negb] in H1.
  - unfold ret in H1. injection H1 as _ <-.
    apply Browser_perform_ok in H2 as [_ ->]; [|exact Hh].
    cbn [fst Browser.done Browser.self Browser.responses] in *.
    cbv zeta. cbn [app]. split; [now rewrite <- app_assoc|].
    exists r. split; [|cbn in Hlen; exact Hlen].
    cbn [arrivalsOf]. rewrite app_nil_r, captured_app.
    rewrite length_app. cbn [List.length]. rewrite Nat.add_1_r.
    rewrite app_assoc, Hq2. reflexivity.
  - apply Browser_perform_ok in H1 as [_ ->]; [|exact Hh].
    apply Browser_perform_ok in H2 as [_ ->]; [|reflexivity].
    cbn [fst Browser.done Browser.self Browser.responses] in *.
    cbv zeta. cbn [app]. split; [now rewrite <- !app_assoc|].
    exists r. split; [|cbn in Hlen; exact Hlen].
    cbn [arrivalsOf]. rewrite app_nil_r, !captured_app.
    repeat (rewrite length_app in Hq2; cbn [List.length] in Hq2;
            rewrite Nat.add_1_r in Hq2).
    repeat (rewrite length_app; cbn [List.length]; rewrite Nat.add_1_r).
    rewrite !app_assoc, Hq2. reflexivity.
Qed.

Lemma Browser_List_consumes_witness :
  let sk := snd (Browser.init Sample.browser (Sample.browserFresh, 0%nat)) in
  let r := Browser.List Sample.env Sample.browser Sample.resolveRef "" sk in
  List.length (Browser.responses (Browser.self (fst sk))) = 1%nat
  /\ Browser.responses (Browser.self (fst (snd r))) = []
  /\ Browser.done (fst (snd r))
     = (Browser.done (fst sk)
        ++ [Browser.WaitForTable; Browser.IsEnabledNext])%list.
Proof.
  intros sk r.
  destruct r as [[[ts next]|e] sk'] eqn:Hr; [|vm_compute in Hr; discriminate].
  destruct (Browser_List_consumes Sample.env Sample.browser Sample.resolveRef
              "" sk sk' ts next
              eq_refl eq_refl Hr) as [Hd (p & Hq & _)].
  cbn [snd]. split; [reflexivity|]. split; [|exact Hd].
  assert (Hl : List.length (p :: Browser.responses (Browser.self (fst sk')))
               = 1%nat) by (rewrite Hq; reflexivity).
  destruct (Browser.responses (Browser.self (fst sk'))); [reflexivity|].
  discriminate.
Defined.

Section BrowserLoss.

Variable E : Env.
Variable browser : nat -> Browser.action -> Browser.outcome.
Variable resolveRef : Url -> string -> string.

Lemma Browser_tenderOf_cases (base : Url) (d : Browser.RawTender)
  (sk : Browser.State * nat) :
  fst (snd (Browser.tenderOf E resolveRef base d sk)) = fst sk
  /\ (~ readable d -> exists e, fst (Browser.tenderOf E resolveRef base d sk) = Err e).
Proof.
  unfold Browser.tenderOf, readable.
  destruct (CutSpace (Browser.Title d)) as [[id rest] ok]. cbn [snd].
  destruct ok; cbn [negb];
    [|split; [reflexivity | intros _; cbn; eauto]].
  destruct (ParseDisplay (Browser.DateAvailableDisplay d)) as [i|e];
    [|split; [reflexivity | intros _; cbn; eauto]].
  destruct (ParseDisplay (Browser.DateClosingDisplay d)) as [c|e];
    [|split; [reflexivity | intros _; cbn; eauto]].
  split; [reflexivity|]. intros H. exfalso. apply H. eauto.
Qed.

Lemma Browser_tendersOf_cases (base : Url) (ds : list Browser.RawTender)
  (acc : list Tender) (sk : Browser.State * nat) :
  fst (snd (Browser.tendersOf E resolveRef base ds acc sk)) = fst sk
  /\ (Exists (fun d => ~ readable d) ds ->
      exists e, fst (Browser.tendersOf E resolveRef base ds acc sk) = Err e).
Proof.
  revert acc sk. induction ds as [|d ds IH]; intros acc sk;
    cbn [Browser.tendersOf].
  - split; [reflexivity|]. intros H. inversion H.
  - destruct (Browser_tenderOf_cases base d sk) as [Hs Hbad].
    unfold bind at 1 2.
    destruct (Browser.tenderOf E resolveRef base d sk) as [[t|e] sk1]; cbn [fst snd] in *.
    + destruct (IH (acc ++ [t])%list sk1) as [Hs1 Hbad1].
      split; [congruence|]. intros H.
      inversion H as [? ? Hd|? ? Hds]; subst; [|auto].
      destruct (Hbad Hd) as [e He]. discriminate.
    + split; [exact Hs | eauto].
Qed.

End BrowserLoss.

(** X21: a payload with an entry that cannot be read is lost.  On a
    client that has its session, when the actions before the table
    succeed and the oldest payload of the buffer has an entry whose
    title has no space or whose dates do not parse, [List] returns an
    error, and the buffer it leaves is the rest of the buffer: the
    payload has been taken all the same, with the entries that could be
    read. *)
Theorem Browser_List_payload_lost (E : Env)
  (browser : nat -> Browser.action -> Browser.outcome)
  (resolveRef : Url -> string -> string) (tok : string)
  (sk : Browser.State * nat) (r : Browser.RawTenders)
  (q' : list Browser.RawTenders) :
  let n := List.length (Browser.done (fst sk)) in
  let pre := ((if String.eqb tok "" then [] else [Browser.ClickNext])
              ++ [Browser.WaitForTable])%list in
  Browser.ready (Browser.self (fst sk)) = true ->
  Browser.hooked (fst sk) = true ->
  (forall i a, nth_error pre i = Some a ->
               Browser.failure (browser (n + i)%nat a) = None) ->
  (Browser.responses (Browser.self (fst sk))
   ++ captured (arrivalsOf browser n pre))%list = r :: q' ->
  Exists (fun d => ~ readable d) (Browser.Data r) ->
  (exists e, fst (Browser.List E browser resolveRef tok sk) = Err e)
  /\ Browser.responses (Browser.self (fst (snd (Browser.List E browser resolveRef tok sk))))
     = q'.
Proof.
  intros n pre Hr Hh Hok Hq Hbad. subst n pre.
  assert (Hperf : forall a wrap (s : Browser.State * nat),
             Browser.hooked (fst s) = true ->
             Browser.failure (browser (List.length (Browser.done (fst s))) a)
             = None ->
             Browser.perform browser a wrap s
             = (Ok (Browser.enabled
                      (browser (List.length (Browser.done (fst s))) a)),
                (Browser.mkState
                   (Browser.mkClient
                      (Browser.u (Browser.self (fst s)))
                      (Browser.ready (Browser.self (fst s)))
                      (Browser.responses (Browser.self (fst s))
                       ++ captured (Browser.arrived
                            (browser (List.length (Browser.done (fst s))) a)))%list)
                   (Browser.done (fst s) ++ [a])%list true,
                 snd s))).
  { intros a wrap s Hhs Hf. unfold Browser.perform. rewrite Hhs, hook_fold, Hf.
    reflexivity. }
  assert (Htail : forall s : Browser.State * nat,
             Browser.responses (Browser.self (fst s)) = r :: q' ->
             exists e s',
               bind get
                 (fun sk0 : Browser.State * nat =>
                    match Browser.dequeue
                            (Browser.responses (Browser.self (fst sk0))) with
                    | None => fail "no responses"
                    | Some (r0, q0) =>
                        bind (Browser.setSelf
                                (fun c => Browser.mkClient (Browser.u c)
                                            (Browser.ready c) q0))
                          (fun _ =>
                             bind (Browser.tendersOf E resolveRef
                                     (Browser.u (Browser.self (fst sk0)))
                                     (Browser.Data r0) [])
                               (fun tenders =>
                                  bind (Browser.perform browser
                                          Browser.IsEnabledNext
                                          "checking next enabled: ")
                                    (fun ok =>
                                       ret (tenders,
                                            if ok then "next" else ""))))
                    end) s
               = (Err e, s')
               /\ Browser.responses (Browser.self (fst s')) = q').
  { intros s Hs. unfold bind at 1, get at 1. rewrite Hs. cbn [Browser.dequeue].
    unfold bind at 1. unfold Browser.setSelf at 1, modify at 1.
    unfold bind at 1.
    match goal with
    | |- context [Browser.tendersOf E resolveRef ?b ?ds [] ?s0] =>
        destruct (Browser_tendersOf_cases E resolveRef b ds [] s0) as [Hs0 Hfail];
        destruct (Hfail Hbad) as [e He];
        destruct (Browser.tendersOf E resolveRef b ds [] s0) as [[x|e'] s1]
    end; cbn [fst snd] in *; [discriminate|].
    exists e', s1. split; [reflexivity|]. rewrite Hs0. reflexivity. }
  assert (HL : exists e s',
             Browser.List E browser resolveRef tok sk = (Err e, s')
             /\ Browser.responses (Browser.self (fst s')) = q').
  { unfold Browser.List. unfold bind at 1.
    rewrite (Browser_init_ready browser sk Hr).
    destruct (String.eqb tok "") eqn:Htok; cbn [negb app] in *.
    - unfold bind at 1, ret at 1.
      pose proof (Hok 0%nat Browser.WaitForTable eq_refl) as Hw.
      rewrite Nat.add_0_r in Hw.
      unfold bind at 1. rewrite (Hperf _ _ sk Hh Hw).
      apply Htail. cbn [fst Browser.self Browser.responses].
      cbn [arrivalsOf] in Hq. rewrite app_nil_r in Hq. exact Hq.
    - pose proof (Hok 0%nat Browser.ClickNext eq_refl) as Hc.
      pose proof (Hok 1%nat Browser.WaitForTable eq_refl) as Hw.
      rewrite Nat.add_0_r in Hc. rewrite Nat.add_1_r in Hw.
      unfold bind at 1. rewrite (Hperf _ _ sk Hh Hc).
      unfold bind at 1.
      match goal with
      | |- context [Browser.perform browser Browser.WaitForTable ?w ?s] =>
          rewrite (Hperf Browser.WaitForTable w s eq_refl)
      end.
      2: { cbn [fst Browser.done]. rewrite length_app. cbn [List.length].
           rewrite Nat.add_1_r. exact Hw. }
      apply Htail. cbn [fst Browser.self Browser.responses Browser.done].
      cbn [arrivalsOf] in Hq. rewrite app_nil_r, captured_app, app_assoc in Hq.
      rewrite length_app. cbn [List.length]. rewrite Nat.add_1_r. exact Hq. }
  destruct HL as (e & s' & -> & Hq'). cbn [fst snd]. eauto.
Qed.

Lemma Browser_List_payload_lost_witness :
  let r := Browser.List Sample.env Sample.browser Sample.resolveRef ""
                        (Sample.browserLoaded, 0%nat) in
  (exists e, fst r = Err e)
  /\ Browser.responses (Browser.self (fst (snd r)))
     = [Browser.mkRawTenders true [Sample.raw1] 1].
Proof.
  intros r.
  apply (Browser_List_payload_lost Sample.env Sample.browser Sample.resolveRef ""
           (Sample.browserLoaded, 0%nat) Sample.badPayload
           [Browser.mkRawTenders true [Sample.raw1] 1]).
  - reflexivity.
  - reflexivity.
  - intros i a _. destruct a; reflexivity.
  - reflexivity.
  - apply Exists_cons_tl, Exists_cons_hd. intros [H _]. vm_compute in H.
    discriminate.
Defined.
